(** * AccessManager: administrative override sessions with a presence watchdog

    A shallow embedding of [access_manager.py] and the properties of its
    session state machine and of its dashboard.

    Modelling conventions.
    - A Python [str] is a [string] whose characters are the code points
      0..255; [strip] and [lower] follow Python on that range.
    - A Python [float] is a binary64 number, the primitive [float]:
      arithmetic rounds to nearest even, comparisons with NaN are false,
      [int] raises on infinities and NaN.
    - [time.monotonic()] is read at most once per call; every operation
      takes that reading as its argument [now].
    - An operation returns its outcome (a value or a raised exception), the
      manager after the call and the records it handed to the logger.
    - [None] passed where a [str] is expected is an [option string].
    - The text [AccessDashboard.render] writes is a list of code points;
      [render] returns it, or the exception it raises. Running out of
      memory is not modelled. *)

From Stdlib Require Import Ascii String ZArith QArith Qround Qpower Floats.
From stdpp Require Import base gmap strings pretty.

Local Open Scope string_scope.
Local Open Scope Z_scope.
Local Open Scope float_scope.

(** Comparisons of floats as propositions. *)
Notation "x <= y" := (PrimFloat.leb x y = true) : float_scope.
Notation "x < y" := (PrimFloat.ltb x y = true) : float_scope.
Notation "x == y" := (PrimFloat.eqb x y = true) (at level 70) : float_scope.
Notation "x <= y <= z" := (PrimFloat.leb x y = true /\ PrimFloat.leb y z = true)
  : float_scope.

(** ** Python built-ins used by the module *)

Module Py.

(** [str.isspace] on one character, code points 0..255. *)
Definition isspace (c : ascii) : bool :=
  let n := N_of_ascii c in
  ((9 <=? n) && (n <=? 13) || (28 <=? n) && (n <=? 32)
   || (n =? 133) || (n =? 160))%N.

Fixpoint lstrip (s : string) : string :=
  match s with
  | EmptyString => EmptyString
  | String c rest => if isspace c then lstrip rest else s
  end.

Fixpoint rstrip (s : string) : string :=
  match s with
  | EmptyString => EmptyString
  | String c rest =>
      match rstrip rest with
      | EmptyString => if isspace c then EmptyString else String c EmptyString
      | kept => String c kept
      end
  end.

(** [s.strip()] *)
Definition strip (s : string) : string := rstrip (lstrip s).

Definition lower_char (c : ascii) : ascii :=
  let n := N_of_ascii c in
  if ((65 <=? n) && (n <=? 90)
      || (192 <=? n) && (n <=? 222) && negb (n =? 215))%N
  then ascii_of_N (n + 32) else c.

(** [s.lower()] *)
Fixpoint lower (s : string) : string :=
  match s with
  | EmptyString => EmptyString
  | String c rest => String (lower_char c) (lower rest)
  end.

(** [s.startswith(p)] *)
Definition startswith (s p : string) : bool := String.prefix p s.

(** [x > y] on floats: false when either is NaN. *)
Definition gt (x y : float) : bool := PrimFloat.ltb y x.

(** [max(a, b)]: the first argument unless the second is greater. *)
Definition max (a b : float) : float := if gt b a then b else a.

Inductive exn : Type := AttributeError | OverflowError | ValueError.

(** [int(x)]: truncation towards zero; [OverflowError] on an infinity,
    [ValueError] on NaN. *)
Definition int (x : float) : exn + Z :=
  match Prim2SF x with
  | S754_nan => inl ValueError
  | S754_infinity _ => inl OverflowError
  | S754_zero _ => inr 0%Z
  | S754_finite s m e => inr (cond_Zopp s (Z.shiftl (Zpos m) e))
  end.

(** [math.isfinite(x)] *)
Definition isfinite (x : float) : bool :=
  match Prim2SF x with
  | S754_zero _ | S754_finite _ _ _ => true
  | S754_infinity _ | S754_nan => false
  end.

(** The rational number a finite float stands for. *)
Definition exact (x : float) : option Q :=
  match Prim2SF x with
  | S754_zero _ => Some 0%Q
  | S754_finite s m e => Some (inject_Z (cond_Zopp s (Zpos m)) * 2 ^ e)%Q
  | S754_infinity _ | S754_nan => None
  end.

(** [str(n)] for an [int], as the f-string and [%d] print it. *)
Definition str_of_int (n : Z) : string := pretty n.

(** The values stored in the telemetry dictionary. *)
Inductive value : Type :=
| VNone
| VBool (b : bool)
| VFloat (x : float)
| VStr (s : string).

Definition of_opt_str (o : option string) : value :=
  match o with Some s => VStr s | None => VNone end.

(** ["%s" % o] for an optional string. *)
Definition format_opt_str (o : option string) : string :=
  match o with Some s => s | None => "None" end.

(** [k in d] for a dict. *)
Definition contains {V} (d : gmap string V) (k : string) : bool :=
  bool_decide (is_Some (d !! k)).

(** [x in l] for a list of strings. *)
Definition list_contains (l : list string) (x : string) : bool :=
  bool_decide (x ∈ l).

End Py.

(** ** Configuration and clearance tiers *)

Record AccessConfig : Type := mkAccessConfig {
  MAINTENANCE_TIMEOUT_SEC : float;
  HEARTBEAT_THRESHOLD_SEC : float;
  auth_cache : gmap string string
}.

Definition default_auth_cache : gmap string string :=
  {[ "OP-7721" := "Standard Operator";
     "MAINT-900" := "Maintenance Tech";
     "ARCH-001" := "Senior Architect" ]}.

(** [AccessConfig()] *)
Definition default_config : AccessConfig :=
  {| MAINTENANCE_TIMEOUT_SEC := 300;
     HEARTBEAT_THRESHOLD_SEC := 1;
     auth_cache := default_auth_cache |}.

Record ClearanceLevel : Type := mkClearanceLevel {
  name : string;
  tier_id : Z;
  speed_limit_scale : float;
  stiffness_boost : float
}.

(** [0x1.999999999999ap-1] is the binary64 number the literal [0.8] denotes. *)
Definition TIER_1 : ClearanceLevel := mkClearanceLevel "Standard" 1 0.5 1.
Definition TIER_2 : ClearanceLevel :=
  mkClearanceLevel "Maintenance" 2 0x1.999999999999ap-1 1.5.
Definition TIER_3 : ClearanceLevel := mkClearanceLevel "Admin" 3 1 2.

(** ** The manager *)

Record AccessManager : Type := mkAccessManager {
  cfg : AccessConfig;
  _active_session : option ClearanceLevel;
  _last_presence_time : float;
  _active_badge : option string
}.

(** [AccessManager(config)] *)
Definition init (config : AccessConfig) : AccessManager :=
  {| cfg := config;
     _active_session := None;
     _last_presence_time := 0;
     _active_badge := None |}.

Definition is_override_active (self : AccessManager) : bool :=
  match _active_session self with Some _ => true | None => false end.

Definition active_session (self : AccessManager) : option ClearanceLevel :=
  _active_session self.

Definition active_badge (self : AccessManager) : option string :=
  _active_badge self.

Definition last_presence_time (self : AccessManager) : float :=
  _last_presence_time self.

(** The [last_presence_time] setter. *)
Definition set_last_presence_time (value : float) (self : AccessManager) : AccessManager :=
  {| cfg := cfg self;
     _active_session := _active_session self;
     _last_presence_time := value;
     _active_badge := _active_badge self |}.

(** ** Outcomes and logging *)

Inductive level : Type := INFO | WARNING | ERROR.

Definition log_record : Type := level * string.

Inductive outcome (A : Type) : Type :=
| Returns (a : A)
| Raises (e : Py.exn).
Arguments Returns {A} a.
Arguments Raises {A} e.

Record effect (A : Type) : Type := mkEffect {
  result : outcome A;
  after : AccessManager;
  logged : list log_record
}.
Arguments mkEffect {A} result after logged.
Arguments result {A} e.
Arguments after {A} e.
Arguments logged {A} e.

(** ** Operations *)

Definition valid_intents : list string :=
  ["start maintenance"; "admin override"; "system check"].

(** [secure_logout]: the session is cleared whether or not one was active;
    only the log line depends on it. *)
Definition secure_logout (self : AccessManager) : effect unit :=
  mkEffect (Returns tt)
    {| cfg := cfg self;
       _active_session := None;
       _last_presence_time := 0;
       _active_badge := None |}
    (match _active_session self with
     | Some _ =>
         [(INFO, "SECURE LOGOUT: User " +:+ Py.format_opt_str (_active_badge self)
                 +:+ " session closed.")]
     | None => []
     end).

Definition request_override (self : AccessManager) (now : float)
    (badge_id voice_intent : option string) : effect bool :=
  match badge_id with
  | None => mkEffect (Raises Py.AttributeError) self []
  | Some badge =>
      let clean_badge := Py.strip badge in
      match voice_intent with
      | None => mkEffect (Raises Py.AttributeError) self []
      | Some intent =>
          let clean_intent := Py.lower (Py.strip intent) in
          if negb (Py.contains (auth_cache (cfg self)) clean_badge) then
            mkEffect (Returns false) self
              [(WARNING, "Auth Denied: Invalid Badge ID [" +:+ clean_badge +:+ "]")]
          else if negb (Py.list_contains valid_intents clean_intent) then
            mkEffect (Returns false) self
              [(WARNING, "Auth Denied: Intent '" +:+ clean_intent
                         +:+ "' not recognized.")]
          else
            let session :=
              if Py.startswith clean_badge "ARCH" then TIER_3
              else if Py.startswith clean_badge "MAINT" then TIER_2
              else TIER_1 in
            mkEffect (Returns true)
              {| cfg := cfg self;
                 _active_session := Some session;
                 _last_presence_time := now;
                 _active_badge := Some clean_badge |}
              [(INFO, "OVERRIDE GRANTED: " +:+ name session +:+ " (Tier "
                      +:+ Py.str_of_int (tier_id session) +:+ ")")]
      end
  end.

Definition standby_message : string := "STANDBY: No active override.".
Definition emergency_message : string :=
  "EMERGENCY: Watchdog timeout. Reverting to Safe Mode.".
Definition active_message (remaining : Z) : string :=
  "ACTIVE: Session confirmed. Timeout in " +:+ Py.str_of_int remaining +:+ "s".

(** [maintenance_pulse]: when [int] raises, the presence refresh has
    already been written. *)
Definition maintenance_pulse (self : AccessManager) (now : float)
    (operator_present : bool) : effect (bool * string) :=
  if negb (is_override_active self) then
    mkEffect (Returns (true, standby_message)) self []
  else
    let current_time := now in
    let self1 :=
      if operator_present then set_last_presence_time current_time self else self in
    let elapsed := current_time - _last_presence_time self1 in
    if Py.gt elapsed (MAINTENANCE_TIMEOUT_SEC (cfg self1)) then
      let out := secure_logout self1 in
      mkEffect (Returns (false, emergency_message)) (after out)
        ((ERROR, "WATCHDOG EXPIRED: Operator absent.") :: logged out)
    else
      match Py.int (MAINTENANCE_TIMEOUT_SEC (cfg self1) - elapsed) with
      | inl err => mkEffect (Raises err) self1 []
      | inr remaining => mkEffect (Returns (true, active_message remaining)) self1 []
      end.

Definition get_telemetry (self : AccessManager) (now : float)
    : effect (gmap string Py.value) :=
  if negb (is_override_active self) then
    mkEffect
      (Returns {[ "active" := Py.VBool false;
                  "msg" := Py.VStr "STANDBY";
                  "time_left" := Py.VFloat 0 ]})
      self []
  else
    let elapsed := now - _last_presence_time self in
    let time_left := Py.max 0 (MAINTENANCE_TIMEOUT_SEC (cfg self) - elapsed) in
    mkEffect
      (Returns {[ "active" := Py.VBool true;
                  "tier" := Py.VStr (match _active_session self with
                                     | Some s => name s
                                     | None => "N/A"
                                     end);
                  "badge" := Py.of_opt_str (_active_badge self);
                  "time_left" := Py.VFloat time_left ]})
      self [].

(** ** Sequences of calls *)

Inductive call : Type :=
| RequestOverride (badge_id voice_intent : option string)
| MaintenancePulse (operator_present : bool)
| GetTelemetry
| SecureLogout.

(** What a call hands back to its caller. *)
Inductive answer : Type :=
| Granted (b : bool)
| Pulse (still_active : bool) (message : string)
| Telemetry (packet : gmap string Py.value)
| Done.

Definition answering {A} (f : A -> answer) (e : effect A) : effect answer :=
  mkEffect
    (match result e with Returns a => Returns (f a) | Raises x => Raises x end)
    (after e) (logged e).

Definition perform (self : AccessManager) (now : float) (c : call) : effect answer :=
  match c with
  | RequestOverride badge_id voice_intent =>
      answering Granted (request_override self now badge_id voice_intent)
  | MaintenancePulse operator_present =>
      answering (fun r => Pulse (fst r) (snd r))
        (maintenance_pulse self now operator_present)
  | GetTelemetry => answering Telemetry (get_telemetry self now)
  | SecureLogout => answering (fun _ => Done) (secure_logout self)
  end.

(** The manager after a sequence of calls, each with its clock reading. *)
Fixpoint final_state (self : AccessManager) (calls : list (float * call)) : AccessManager :=
  match calls with
  | [] => self
  | (now, c) :: rest => final_state (after (perform self now c)) rest
  end.

(** What the caller and the logger see along a sequence of calls. *)
Fixpoint responses (self : AccessManager) (calls : list (float * call))
    : list (outcome answer * list log_record) :=
  match calls with
  | [] => []
  | (now, c) :: rest =>
      let e := perform self now c in
      (result e, logged e) :: responses (after e) rest
  end.

(** The elapsed time a pulse compares with the timeout: taken after the
    presence refresh, as [maintenance_pulse] computes it. *)
Definition pulse_elapsed (self : AccessManager) (now : float) (operator_present : bool) : float :=
  now - (if operator_present then now else _last_presence_time self).

(** Two managers that agree on everything but the heartbeat threshold. *)
Definition agree_but_heartbeat (m1 m2 : AccessManager) : Prop :=
  MAINTENANCE_TIMEOUT_SEC (cfg m1) = MAINTENANCE_TIMEOUT_SEC (cfg m2)
  /\ auth_cache (cfg m1) = auth_cache (cfg m2)
  /\ _active_session m1 = _active_session m2
  /\ _last_presence_time m1 = _last_presence_time m2
  /\ _active_badge m1 = _active_badge m2.

(** What the four operations maintain: an active session has a badge, an
    idle manager has neither badge nor presence time. *)
Definition session_consistent (m : AccessManager) : Prop :=
  match _active_session m with
  | Some _ => is_Some (_active_badge m)
  | None => _active_badge m = None /\ _last_presence_time m = 0
  end.

(** ** The [last_presence_time] setter among the calls *)

Inductive action : Type :=
| Call (now : float) (c : call)
| SetLastPresenceTime (value : float).

Fixpoint final_state_with_setter (self : AccessManager) (acts : list action)
    : AccessManager :=
  match acts with
  | [] => self
  | Call now c :: rest => final_state_with_setter (after (perform self now c)) rest
  | SetLastPresenceTime value :: rest =>
      final_state_with_setter (set_last_presence_time value self) rest
  end.

(** The session a grant installs for a cleaned badge. *)
Definition granted_session (m : AccessManager) : Prop :=
  match _active_session m, _active_badge m with
  | Some s, Some b =>
      is_Some (auth_cache (cfg m) !! b)
      /\ Py.strip b = b
      /\ s = (if Py.startswith b "ARCH" then TIER_3
              else if Py.startswith b "MAINT" then TIER_2
              else TIER_1)
  | None, None => True
  | _, _ => False
  end.

(** ** Clock readings and log lines along a sequence of calls *)

(** The readings never go back, starting from [t0]. *)
Fixpoint clock_monotonic (t0 : float) (calls : list (float * call)) : Prop :=
  match calls with
  | [] => True
  | (t, _) :: rest => t0 <= t /\ clock_monotonic t rest
  end.

Fixpoint last_reading (t0 : float) (calls : list (float * call)) : float :=
  match calls with
  | [] => t0
  | (t, _) :: rest => last_reading t rest
  end.

(** A string of whitespace only. *)
Fixpoint all_space (s : string) : bool :=
  match s with
  | EmptyString => true
  | String c rest => Py.isspace c && all_space rest
  end.

(** ** Normalisation of the inputs, in the specification's words *)

(** Whitespace in front of, or at the end of, a string. *)
Definition starts_with_space (s : string) : bool :=
  match s with
  | EmptyString => false
  | String c _ => Py.isspace c
  end.

Fixpoint ends_with_space (s : string) : bool :=
  match s with
  | EmptyString => false
  | String c EmptyString => Py.isspace c
  | String _ rest => ends_with_space rest
  end.

(** [clean] is [s] with its surrounding whitespace trimmed: [s] is [clean]
    between two runs of whitespace, and [clean] has none at either end. *)
Definition trimmed_of (s clean : string) : Prop :=
  exists l r, s = l +:+ (clean +:+ r)
    /\ all_space l = true /\ all_space r = true
    /\ starts_with_space clean = false /\ ends_with_space clean = false.

(** The character [c] is [p] up to letter case, for a lower-case [p]: it is
    [p] itself or, when [p] is one of the letters a..z, its capital. *)
Definition folds_to_char (c p : ascii) : bool :=
  let n := N_of_ascii c in
  let k := N_of_ascii p in
  ((n =? k) || (97 <=? k) && (k <=? 122) && (n + 32 =? k))%N.

(** [s], lower-cased, is the phrase [phrase]. *)
Fixpoint folds_to (s phrase : string) : bool :=
  match s, phrase with
  | EmptyString, EmptyString => true
  | String c s', String p phrase' => folds_to_char c p && folds_to s' phrase'
  | _, _ => false
  end.

(** A phrase of characters below 128 none of which is a capital letter. *)
Fixpoint plain_lower (phrase : string) : bool :=
  match phrase with
  | EmptyString => true
  | String p rest =>
      let k := N_of_ascii p in
      ((k <? 128) && negb ((65 <=? k) && (k <=? 90)))%N && plain_lower rest
  end.

(** Everything handed to the logger along a sequence of calls, in order. *)
Definition all_logged (self : AccessManager) (calls : list (float * call)) : list log_record :=
  concat (snd <$> responses self calls).

Definition is_grant_line (r : log_record) : bool :=
  Py.startswith (snd r) "OVERRIDE GRANTED".

Definition is_logout_line (r : log_record) : bool :=
  Py.startswith (snd r) "SECURE LOGOUT".

Definition is_expiry_line (r : log_record) : bool :=
  Py.startswith (snd r) "WATCHDOG EXPIRED".

Fixpoint count_lines (p : log_record -> bool) (l : list log_record) : nat :=
  match l with
  | [] => O
  | r :: rest => (if p r then 1 else 0)%nat + count_lines p rest
  end.

(** One when an override is held, zero when idle. *)
Definition held (self : AccessManager) : nat :=
  if is_override_active self then 1%nat else 0%nat.

(** Pulses at the given clock readings, all with the same presence flag. *)
Definition pulses (operator_present : bool) (readings : list float) : list (float * call) :=
  (fun t => (t, MaintenancePulse operator_present)) <$> readings.

(** ** AccessDashboard

    The status line holds characters above code point 255, so the text
    written to the terminal is a list of code points. *)

Module Dashboard.

Local Open Scope list_scope.

Definition text : Type := list N.

(** A literal of the source whose characters are all below 256. *)
Definition lit (s : string) : text := N_of_ascii <$> list_ascii_of_string s.

Definition BAR_WIDTH : Z := 30.

Definition ESC : N := 27.
Definition CLR_RESET : text := ESC :: lit "[0m".
Definition CLR_GREEN : text := ESC :: lit "[92m".
Definition CLR_YELLOW : text := ESC :: lit "[93m".
Definition CLR_RED : text := ESC :: lit "[91m".
Definition CLR_BOLD : text := ESC :: lit "[1m".

(** The three block characters of the bars: U+2591, U+2588, U+00B7. *)
Definition LIGHT_SHADE : N := 9617.
Definition FULL_BLOCK : N := 9608.
Definition MIDDLE_DOT : N := 183.

Inductive exn : Type :=
| KeyError (key : string)
| TypeError
| AttributeError
| OverflowError
| ValueError.

(** [sys.maxsize] of a 64-bit build. *)
Definition maxsize : Z := 9223372036854775807.

(** [c * n] for a one-character string: empty when [n] is not positive,
    [OverflowError] when [n] does not fit the index type. *)
Definition times (c : N) (n : Z) : exn + text :=
  if ((n <? - maxsize - 1) || (maxsize <? n))%Z then inl OverflowError
  else inr (replicate (Z.to_nat n) c).

(** [c.upper()] for one character below 256. *)
Definition upper_char (c : ascii) : text :=
  let n := N_of_ascii c in
  if ((97 <=? n) && (n <=? 122)
      || (224 <=? n) && (n <=? 254) && negb (n =? 247))%N then [(n - 32)%N]
  else if (n =? 255)%N then [376%N]
  else if (n =? 181)%N then [924%N]
  else if (n =? 223)%N then [83%N; 83%N]
  else [n].

(** [s.upper()] *)
Fixpoint upper (s : string) : text :=
  match s with
  | EmptyString => []
  | String c rest => upper_char c ++ upper rest
  end.

Inductive written : Type :=
| Wrote (out : text)
| Failed (e : exn).

(** [bool(v)]: a float is false when it equals zero, so NaN is true. *)
Definition truthy (v : Py.value) : bool :=
  match v with
  | Py.VNone => false
  | Py.VBool b => b
  | Py.VFloat x => negb (PrimFloat.eqb x 0)
  | Py.VStr s => negb (String.eqb s "")
  end.

(** The operand [v] of [v / 300.0] and of [int(v)]: [None] and strings
    raise [TypeError] in the division. *)
Definition number (v : Py.value) : option float :=
  match v with
  | Py.VFloat x => Some x
  | Py.VBool b => Some (if b then 1 else 0)
  | Py.VNone | Py.VStr _ => None
  end.

(** [int(x)], with the exceptions of this module. *)
Definition int (x : float) : exn + Z :=
  match Py.int x with
  | inr n => inr n
  | inl Py.OverflowError => inl OverflowError
  | inl _ => inl ValueError
  end.

(** The line of the safe state. *)
Definition safe_line : text :=
  let status := lit " [SYSTEM SAFE: STANDARD GUARDS ACTIVE] " in
  let bar_content := replicate (Z.to_nat BAR_WIDTH) LIGHT_SHADE in
  let status_bar := CLR_GREEN ++ bar_content ++ CLR_RESET in
  [13%N] ++ status ++ lit " [" ++ status_bar ++ lit "]".

(** The line of an override, from the local variables of [render]. *)
Definition override_line (tier : text) (rem : Z) (bar_text : text) : text :=
  let status_bar := CLR_YELLOW ++ bar_text ++ CLR_RESET in
  let caution :=
    CLR_BOLD ++ CLR_RED ++ lit "CAUTION: " ++ tier ++ lit " OVERRIDE ACTIVE"
    ++ CLR_RESET in
  let prefix :=
    lit " [!] " ++ caution ++ lit " (" ++ lit (Py.str_of_int rem) ++ lit "s) [!] " in
  [13%N] ++ prefix ++ lit " [" ++ status_bar ++ lit "]".

(** The bar of an override: full blocks, then dots up to the bar width. *)
Definition bar_text (time_left : float) : exn + text :=
  let percent := time_left / 300 in
  match int (30 * percent) with
  | inl err => inl err
  | inr filled =>
      match times FULL_BLOCK filled with
      | inl err => inl err
      | inr blocks =>
          match times MIDDLE_DOT (BAR_WIDTH - filled) with
          | inl err => inl err
          | inr dots => inr (blocks ++ dots)
          end
      end
  end.

(** [AccessDashboard.render]: the text written to standard output, or the
    exception of the first failing subscript or operation. *)
Definition render (telemetry : gmap string Py.value) : written :=
  match telemetry !! "active" with
  | None => Failed (KeyError "active")
  | Some active =>
      if negb (truthy active) then Wrote safe_line
      else
        match telemetry !! "time_left" with
        | None => Failed (KeyError "time_left")
        | Some v =>
            match number v with
            | None => Failed TypeError
            | Some time_left =>
                match bar_text time_left with
                | inl err => Failed err
                | inr bar =>
                    match telemetry !! "tier" with
                    | None => Failed (KeyError "tier")
                    | Some (Py.VStr t) =>
                        let tier := upper t in
                        match int time_left with
                        | inl err => Failed err
                        | inr rem => Wrote (override_line tier rem bar)
                        end
                    | Some _ => Failed AttributeError
                    end
                end
            end
        end
  end.

End Dashboard.

(** * Binary64 arithmetic: auxiliary notions

    Python's [float] is the IEEE 754 binary64 format, here the primitive
    floats with their specification [Prim2SF] in [SpecFloat].  The notions
    below serve the facts about rounding proved further down. *)

Module F64.

Local Open Scope Z_scope.

(** Powers of two, shifted so that every exponent of the format is a
    non-negative power: the value of [S754_finite s m e] scaled by
    [2 ^ 4000] is [m * W e]. *)
Definition W (e : Z) : Z := 2 ^ (e + 4000).
Arguments W : simpl never.

(** A shifted mantissa has lost digits. *)
Definition inexact (mrs : shr_record) : bool := shr_r mrs || shr_s mrs.

(** [b] is [a] shifted right by [n] digits. *)
Definition shr_ok (n : Z) (a b : shr_record) : Prop :=
  0 <= shr_m a ->
  shr_m b = shr_m a / 2 ^ n
  /\ (inexact b = true -> shr_m a mod 2 ^ n <> 0 \/ inexact a = true).

(** The most a truncated mantissa at location [l] is below the exact one. *)
Definition delta (l : location) : Z :=
  match l with loc_Exact => 0 | loc_Inexact _ => 1 end.

(** A key on which the order of the floats is the lexicographic one. *)
Definition key (x : spec_float) : Z * Z * Z :=
  match x with
  | S754_nan => (0, 0, 0)
  | S754_infinity true => (-2, 0, 0)
  | S754_infinity false => (2, 0, 0)
  | S754_zero _ => (0, 0, 0)
  | S754_finite true m e => (-1, - e, - Zpos m)
  | S754_finite false m e => (1, e, Zpos m)
  end.

Definition is_nan (x : spec_float) : bool :=
  match x with S754_nan => true | _ => false end.

Definition lex_lt (a b : Z * Z * Z) : Prop :=
  let '(a1, a2, a3) := a in
  let '(b1, b2, b3) := b in
  a1 < b1 \/ (a1 = b1 /\ (a2 < b2 \/ (a2 = b2 /\ a3 < b3))).

(** Not negative: a zero, or a positive finite number or infinity. *)
Definition nonneg (x : spec_float) : Prop :=
  match x with
  | S754_zero _ => True
  | S754_finite s _ _ | S754_infinity s => s = false
  | S754_nan => False
  end.

(** Not positive: a zero, or a negative finite number or infinity. *)
Definition nonpos (x : spec_float) : Prop :=
  match x with
  | S754_zero _ => True
  | S754_finite s _ _ | S754_infinity s => s = true
  | S754_nan => False
  end.

Definition finite (x : spec_float) : bool :=
  match x with
  | S754_zero _ | S754_finite _ _ _ => true
  | _ => false
  end.

Definition SFzero : spec_float := S754_zero false.

Definition SFone : spec_float := S754_finite false 4503599627370496 (-52).

(** The aligned difference of two finite floats, as [SFsub] forms it. *)
Definition aligned_diff (sx : bool) (mx : positive) (ex : Z)
    (sy : bool) (my : positive) (ey : Z) : Z :=
  cond_Zopp sx (Zpos (fst (shl_align mx ex (Z.min ex ey))))
  - cond_Zopp sy (Zpos (fst (shl_align my ey (Z.min ex ey)))).

(** What an elapsed time can be when the clock is not behind the presence
    time: not a number, plus infinity, or finite and not negative. *)
Definition elapsed_like (e : spec_float) : Prop :=
  e = S754_nan \/ e = S754_infinity false \/ (finite e = true /\ nonneg e).

End F64.
(** ** The unit tests of the repository, replayed on the model *)

Section Replay.

Let m0 := init default_config.
Let maint := after (request_override m0 100 (Some "MAINT-900") (Some "start maintenance")).

Example test_admin_handshake_success :
  let e := request_override m0 7 (Some "ARCH-001") (Some "admin override") in
  result e = Returns true /\ active_session (after e) = Some TIER_3.
Proof. vm_compute. split; reflexivity. Qed.

Example test_standard_handshake_success :
  let e := request_override m0 7 (Some "OP-7721") (Some "system check") in
  result e = Returns true /\ active_session (after e) = Some TIER_1.
Proof. vm_compute. split; reflexivity. Qed.

Example test_invalid_badge_rejection :
  let e := request_override m0 7 (Some "GHOST-007") (Some "admin override") in
  result e = Returns false /\ active_session (after e) = None.
Proof. vm_compute. split; reflexivity. Qed.

Example test_case_insensitivity_voice :
  result (request_override m0 7 (Some "MAINT-900") (Some "START MAINTENANCE"))
  = Returns true.
Proof. vm_compute. reflexivity. Qed.

Example test_badge_case_sensitivity :
  result (request_override m0 7 (Some "arch-001") (Some "admin override"))
  = Returns false.
Proof. vm_compute. reflexivity. Qed.

Example test_none_type_simulation :
  result (request_override m0 7 None (Some "admin override"))
  = Raises Py.AttributeError.
Proof. reflexivity. Qed.

Example test_watchdog_exact_boundary :
  result (maintenance_pulse maint (100 + 300) false)
  = Returns (true, "ACTIVE: Session confirmed. Timeout in 0s").
Proof. vm_compute. reflexivity. Qed.

Example test_watchdog_timeout_trigger :
  let e := maintenance_pulse maint (100 + 300 + 1) false in
  result e = Returns (false, emergency_message) /\ after e = m0.
Proof. vm_compute. split; reflexivity. Qed.

Example test_heartbeat_renewal :
  let e := maintenance_pulse maint (100 + 50) true in
  result e = Returns (true, "ACTIVE: Session confirmed. Timeout in 300s")
  /\ last_presence_time (after e) = 100 + 50.
Proof. vm_compute. split; reflexivity. Qed.

Example test_override_telemetry :
  exists d, result (get_telemetry maint 100.5) = Returns d
    /\ d !! "active" = Some (Py.VBool true)
    /\ d !! "tier" = Some (Py.VStr "Maintenance").
Proof. eexists. split; [reflexivity|]. vm_compute. split; reflexivity. Qed.

Example strip_and_lower :
  Py.lower (Py.strip "  Admin  Override
 ") = "admin  override".
Proof. vm_compute. reflexivity. Qed.

(** Rounding shows: a presence time of 0.9999999999999999
    ([0x1.fffffffffffffp-1]) and a clock reading of 301 give an elapsed time
    of exactly 300, and the session is kept. *)
Example pulse_rounds_to_timeout :
  let held := set_last_presence_time 0x1.fffffffffffffp-1 maint in
  result (maintenance_pulse held 301 false)
  = Returns (true, "ACTIVE: Session confirmed. Timeout in 0s").
Proof. vm_compute. reflexivity. Qed.

(** A clock reading of 100.00000000000001 ([0x1.9000000000001p+6]) after a
    presence time of 100 still reports the full 300 seconds. *)
Example pulse_rounds_to_full :
  result (maintenance_pulse maint 0x1.9000000000001p+6 false)
  = Returns (true, "ACTIVE: Session confirmed. Timeout in 300s").
Proof. vm_compute. reflexivity. Qed.

Example telemetry_rounds_to_full :
  exists d, result (get_telemetry maint 0x1.9000000000001p+6) = Returns d
    /\ d !! "time_left" = Some (Py.VFloat 300).
Proof. eexists. split; [reflexivity|]. vm_compute. reflexivity. Qed.

(** With an infinite timeout [int] raises, after the refresh is written. *)
Example pulse_infinite_timeout :
  let forever := init (mkAccessConfig infinity 1 default_auth_cache) in
  let held := after (request_override forever 100
                       (Some "MAINT-900") (Some "start maintenance")) in
  let e := maintenance_pulse held 150 true in
  result e = Raises Py.OverflowError /\ last_presence_time (after e) = 150.
Proof. vm_compute. split; reflexivity. Qed.

Example bar_of_1230_seconds :
  exists bar, Dashboard.bar_text 1230 = inr bar /\ length bar = 122%nat.
Proof. eexists. split; [vm_compute; reflexivity|]. reflexivity. Qed.

Example bar_of_1e20_seconds :
  Dashboard.bar_text 1e20 = inl Dashboard.OverflowError.
Proof. vm_compute. reflexivity. Qed.

End Replay.

(** * Facts about binary64 arithmetic

    Rounding to nearest never crosses a representable bound: what is
    needed about [-], [/] and [*] on doubles for the time left and the
    progress bar. *)

Module F64Facts.

Import F64.
Local Open Scope Z_scope.

(** ** Scaled powers of two *)

Lemma W_pos e : -4000 <= e -> 0 < W e.
Proof. intros H. unfold W. apply Z.pow_pos_nonneg; lia. Qed.

Lemma W_add e n : -4000 <= e -> 0 <= n -> W (e + n) = W e * 2 ^ n.
Proof.
  intros He Hn. unfold W. replace (e + n + 4000) with ((e + 4000) + n) by lia.
  apply Z.pow_add_r; lia.
Qed.

Lemma pow2_pos n : 0 <= n -> 0 < 2 ^ n.
Proof. intros. apply Z.pow_pos_nonneg; lia. Qed.

Ltac hide_pow2 :=
  repeat match goal with
    | |- context [Z.pow 2 ?e] =>
        let p := fresh "p" in set (p := Z.pow 2 e) in *; clearbody p
    | H : context [Z.pow 2 ?e] |- _ =>
        let p := fresh "p" in set (p := Z.pow 2 e) in *; clearbody p
    end.

Lemma digits2_pos_bounds (m : positive) :
  2 ^ (Zpos (digits2_pos m) - 1) <= Zpos m < 2 ^ Zpos (digits2_pos m).
Proof.
  induction m as [m IH|m IH|]; cbn [digits2_pos].
  - rewrite Pos2Z.inj_succ.
    replace (Z.succ (Zpos (digits2_pos m)) - 1) with (Z.succ (Zpos (digits2_pos m) - 1)) by lia.
    rewrite !Z.pow_succ_r by lia. change (Zpos m~1) with (2 * Zpos m + 1). hide_pow2. lia.
  - rewrite Pos2Z.inj_succ.
    replace (Z.succ (Zpos (digits2_pos m)) - 1) with (Z.succ (Zpos (digits2_pos m) - 1)) by lia.
    rewrite !Z.pow_succ_r by lia. change (Zpos m~0) with (2 * Zpos m). hide_pow2. lia.
  - cbn. lia.
Qed.

Lemma Zdigits2_bounds (m : Z) :
  0 < m -> 2 ^ (Zdigits2 m - 1) <= m < 2 ^ Zdigits2 m.
Proof. destruct m; try lia. intros _. apply digits2_pos_bounds. Qed.

Lemma Zdigits2_nonneg m : 0 <= Zdigits2 m.
Proof. destruct m; cbn; lia. Qed.

(** ** Number of digits *)
Lemma Zdigits2_le_pow (m : Z) (d : Z) :
  0 < m -> m < 2 ^ d -> 0 <= d -> Zdigits2 m <= d.
Proof.
  intros Hm Hlt Hd. destruct (Zdigits2_bounds m Hm) as [Hlo _].
  destruct (Z_le_gt_dec (Zdigits2 m) d) as [|Hgt]; [assumption|].
  exfalso. assert (2 ^ d <= 2 ^ (Zdigits2 m - 1)) by (apply Z.pow_le_mono_r; lia). lia.
Qed.

Lemma Zdigits2_ge_pow (m : Z) (d : Z) :
  0 < m -> 2 ^ (d - 1) <= m -> 1 <= d -> d <= Zdigits2 m.
Proof.
  intros Hm Hge Hd. destruct (Zdigits2_bounds m Hm) as [_ Hhi].
  destruct (Z_le_gt_dec d (Zdigits2 m)) as [|Hgt]; [assumption|].
  exfalso. pose proof (Zdigits2_nonneg m).
  assert (2 ^ Zdigits2 m <= 2 ^ (d - 1)) by (apply Z.pow_le_mono_r; lia). lia.
Qed.

(** ** Valid floats *)
Lemma valid_finite (s : bool) (m : positive) (e : Z) :
  valid_binary (S754_finite s m e) = true ->
  -1074 <= e <= 971
  /\ Zpos (digits2_pos m) <= 53
  /\ (-1074 < e -> Zpos (digits2_pos m) = 53).
Proof.
  cbn. unfold bounded, canonical_mantissa, fexp, SpecFloat.emin, prec, emax.
  intros H. apply andb_prop in H as [H1 H2].
  apply Z.eqb_eq in H1. apply Z.leb_le in H2. lia.
Qed.

Lemma valid_bounds (s : bool) (m : positive) (e : Z) :
  valid_binary (S754_finite s m e) = true ->
  -1074 <= e <= 971
  /\ Zpos m < 2 ^ 53
  /\ (-1074 < e -> 2 ^ 52 <= Zpos m).
Proof.
  intros H. destruct (valid_finite s m e H) as (He & Hd & Hn).
  pose proof (digits2_pos_bounds m) as [Hlo Hhi].
  split; [exact He|]. split.
  - assert (2 ^ Zpos (digits2_pos m) <= 2 ^ 53) by (apply Z.pow_le_mono_r; lia). lia.
  - intros Hgt. rewrite (Hn Hgt) in Hlo. exact Hlo.
Qed.

(** Value order gives key order, on positive valid floats. *)
Lemma val_le_key (ma mb : positive) (ea eb : Z) :
  valid_binary (S754_finite false ma ea) = true ->
  valid_binary (S754_finite false mb eb) = true ->
  Zpos ma * W ea <= Zpos mb * W eb ->
  ea < eb \/ (ea = eb /\ Zpos ma <= Zpos mb).
Proof.
  intros Ha Hb Hle.
  destruct (valid_bounds _ _ _ Ha) as (Hea & Hma & Hna).
  destruct (valid_bounds _ _ _ Hb) as (Heb & Hmb & Hnb).
  destruct (Z.compare_spec ea eb) as [Heq|Hlt|Hgt].
  - right. split; [exact Heq|]. subst eb.
    pose proof (W_pos ea ltac:(lia)) as HW.
    apply (Z.mul_le_mono_pos_r _ _ (W ea) HW). exact Hle.
  - left. exact Hlt.
  - exfalso. specialize (Hna ltac:(lia)).
    replace ea with (eb + (ea - eb)) in Hle by lia.
    rewrite W_add in Hle by lia.
    pose proof (W_pos eb ltac:(lia)).
    assert (HP : 2 <= 2 ^ (ea - eb)).
    { change 2 with (2 ^ 1) at 1. apply Z.pow_le_mono_r; lia. }
    change (2 ^ 53) with (2 * 2 ^ 52) in Hmb.
    replace (Zpos ma * (W eb * 2 ^ (ea - eb)))
      with ((Zpos ma * 2 ^ (ea - eb)) * W eb) in Hle by ring.
    assert (H1 : 2 * 2 ^ 52 <= Zpos ma * 2 ^ (ea - eb)) by (hide_pow2; nia).
    assert (H2 : Zpos mb * W eb < (Zpos ma * 2 ^ (ea - eb)) * W eb)
      by (apply Z.mul_lt_mono_pos_r; [assumption | lia]).
    lia.
Qed.

Lemma key_le_val (ma mb : positive) (ea eb : Z) :
  valid_binary (S754_finite false ma ea) = true ->
  valid_binary (S754_finite false mb eb) = true ->
  ea < eb \/ (ea = eb /\ Zpos ma <= Zpos mb) ->
  Zpos ma * W ea <= Zpos mb * W eb.
Proof.
  intros Ha Hb Hle.
  destruct (valid_bounds _ _ _ Ha) as (Hea & Hma & Hna).
  destruct (valid_bounds _ _ _ Hb) as (Heb & Hmb & Hnb).
  destruct Hle as [Hlt|[-> Hm]].
  - specialize (Hnb ltac:(lia)).
    replace eb with (ea + (eb - ea)) by lia.
    rewrite W_add by lia.
    pose proof (W_pos ea ltac:(lia)).
    assert (HP : 2 <= 2 ^ (eb - ea)).
    { change 2 with (2 ^ 1) at 1. apply Z.pow_le_mono_r; lia. }
    change (2 ^ 53) with (2 * 2 ^ 52) in Hma.
    replace (Zpos mb * (W ea * 2 ^ (eb - ea)))
      with ((Zpos mb * 2 ^ (eb - ea)) * W ea) by ring.
    assert (H1 : Zpos ma <= Zpos mb * 2 ^ (eb - ea)) by (hide_pow2; nia).
    apply Z.mul_le_mono_nonneg_r; lia.
  - pose proof (W_pos eb ltac:(lia)).
    apply Z.mul_le_mono_nonneg_r; lia.
Qed.

Lemma shr_1_ok (a : shr_record) : shr_ok 1 a (shr_1 a).
Proof.
  destruct a as [m r s]. unfold shr_ok, inexact. cbn [shr_m shr_r shr_s].
  intros Hm. change (2 ^ 1) with 2.
  destruct m as [|p|p]; [| |lia].
  - cbn. split; [reflexivity|]. intros H. right.
    destruct r, s; cbn in *; congruence.
  - destruct p as [p|p|]; cbn [shr_1 shr_m shr_r shr_s].
    + split.
      * change (Zpos p~1) with (2 * Zpos p + 1).
        apply Z.div_unique with 1; lia.
      * intros _. left. change (Zpos p~1) with (2 * Zpos p + 1).
        rewrite Z.add_comm, Z.mul_comm, Z.mod_add by lia. discriminate.
    + split.
      * change (Zpos p~0) with (2 * Zpos p).
        apply Z.div_unique with 0; lia.
      * intros H. right. destruct r, s; cbn in *; congruence.
    + split; [reflexivity|]. intros _. left. discriminate.
Qed.

Lemma shr_ok_compose (a b : Z) (x y z : shr_record) :
  0 <= a -> 0 <= b ->
  shr_ok a x y -> shr_ok b y z -> shr_ok (a + b) x z.
Proof.
  intros Ha Hb Hxy Hyz Hx.
  destruct (Hxy Hx) as [Hm1 Hi1].
  assert (Hy : 0 <= shr_m y).
  { rewrite Hm1. apply Z.div_pos; [exact Hx | apply Z.pow_pos_nonneg; lia]. }
  destruct (Hyz Hy) as [Hm2 Hi2].
  assert (Hpa : 0 < 2 ^ a) by (apply Z.pow_pos_nonneg; lia).
  assert (Hpb : 0 < 2 ^ b) by (apply Z.pow_pos_nonneg; lia).
  split.
  - rewrite Hm2, Hm1, Z.pow_add_r, Z.div_div by lia. reflexivity.
  - intros Hz. destruct (Hi2 Hz) as [Hmod|Hin].
    + left. rewrite Hm1 in Hmod. intros H0. apply Hmod.
      rewrite Z.pow_add_r in H0 by lia.
      apply Z.mod_divide in H0; [|lia]. destruct H0 as [k Hk].
      rewrite Hk.
      replace (k * (2 ^ a * 2 ^ b)) with ((k * 2 ^ b) * 2 ^ a) by ring.
      rewrite Z.div_mul by lia. apply Z.mod_mul. lia.
    + destruct (Hi1 Hin) as [Hmod|Hin0]; [|right; exact Hin0].
      left. intros H0. apply Hmod.
      rewrite Z.pow_add_r in H0 by lia.
      apply Z.mod_divide in H0; [|lia]. destruct H0 as [k Hk].
      rewrite Hk.
      replace (k * (2 ^ a * 2 ^ b)) with ((k * 2 ^ b) * 2 ^ a) by ring.
      apply Z.mod_mul. lia.
Qed.

Lemma iter_shr_ok (p : positive) (x : shr_record) :
  shr_ok (Zpos p) x (SpecFloat.iter_pos shr_1 p x).
Proof.
  revert x. induction p as [p IH|p IH|]; intros x; cbn [SpecFloat.iter_pos].
  - replace (Zpos p~1) with (1 + (Zpos p + Zpos p)) by lia.
    apply shr_ok_compose with (shr_1 x); try lia; [apply shr_1_ok|].
    apply shr_ok_compose with (SpecFloat.iter_pos shr_1 p (shr_1 x)); try lia; apply IH.
  - replace (Zpos p~0) with (Zpos p + Zpos p) by lia.
    apply shr_ok_compose with (SpecFloat.iter_pos shr_1 p x); try lia; apply IH.
  - apply shr_1_ok.
Qed.

Lemma inexact_of_loc (m : Z) (l : location) :
  inexact (shr_record_of_loc m l) = true -> delta l = 1.
Proof. destruct l as [|[]]; cbn; congruence. Qed.

Lemma shr_m_of_loc (m : Z) (l : location) : shr_m (shr_record_of_loc m l) = m.
Proof. destruct l as [|[]]; reflexivity. Qed.

Lemma round_bounds (mrs : shr_record) :
  let m1 := round_nearest_even (shr_m mrs) (loc_of_shr_record mrs) in
  shr_m mrs <= m1 <= shr_m mrs + 1
  /\ (inexact mrs = false -> m1 = shr_m mrs).
Proof.
  destruct mrs as [m r s]. unfold inexact. cbn.
  destruct r, s; cbn; try (destruct (Z.even m)); repeat split; try lia; discriminate.
Qed.

Lemma fexp_eq (z : Z) : fexp prec emax z = Z.max (z - 53) (-1074).
Proof. reflexivity. Qed.

Lemma shr_fexp_spec (m e : Z) (l : location) :
  0 <= m ->
  let n := fexp prec emax (Zdigits2 m + e) - e in
  let mrs := fst (shr_fexp prec emax m e l) in
  let e' := snd (shr_fexp prec emax m e l) in
  0 <= shr_m mrs
  /\ ((n <= 0 /\ e' = e /\ mrs = shr_record_of_loc m l)
      \/ (0 < n /\ e' = e + n /\ shr_m mrs = m / 2 ^ n
          /\ (inexact mrs = true -> m mod 2 ^ n <> 0 \/ delta l = 1))).
Proof.
  intros Hm. cbn zeta. unfold shr_fexp, shr.
  destruct (fexp prec emax (Zdigits2 m + e) - e) as [|p|p] eqn:Hn; cbn [fst snd].
  - rewrite shr_m_of_loc. split; [exact Hm|]. left. repeat split; lia.
  - pose proof (iter_shr_ok p (shr_record_of_loc m l)) as Hok.
    unfold shr_ok in Hok. rewrite shr_m_of_loc in Hok.
    destruct (Hok Hm) as [Hdiv Hin].
    split.
    + rewrite Hdiv. apply Z.div_pos; [exact Hm | apply Z.pow_pos_nonneg; lia].
    + right. split; [lia|]. split; [reflexivity|]. split; [exact Hdiv|].
      intros Hi. destruct (Hin Hi) as [H|H]; [left; exact H|].
      right. apply (inexact_of_loc m l H).
  - rewrite shr_m_of_loc. split; [exact Hm|]. left. repeat split; lia.
Qed.

Lemma W_lt_exp (a b : Z) : -4000 <= a -> -4000 <= b -> W a < W b -> a < b.
Proof.
  intros Ha Hb H. unfold W in H.
  apply Z.pow_lt_mono_r_iff in H; lia.
Qed.

Lemma W_le_mono (a b : Z) : -4000 <= a -> a <= b -> W a <= W b.
Proof. intros Ha Hab. unfold W. apply Z.pow_le_mono_r; lia. Qed.

Lemma pow_W (k e : Z) : 0 <= k -> -4000 <= e -> 2 ^ k * W e = W (e + k).
Proof. intros Hk He. rewrite W_add by lia. ring. Qed.

(** A value below a float of the grid stays below it after one more unit. *)
Lemma grid_step (mF m' eF e' : Z) :
  -4000 <= e' -> e' <= eF ->
  m' * W e' < mF * W eF -> (m' + 1) * W e' <= mF * W eF.
Proof.
  intros He Hle Hlt.
  replace eF with (e' + (eF - e')) in * by lia.
  rewrite W_add in * by lia.
  pose proof (W_pos e' He) as HW.
  replace (mF * (W e' * 2 ^ (eF - e'))) with ((mF * 2 ^ (eF - e')) * W e') in * by ring.
  apply Z.mul_lt_mono_pos_r in Hlt; [|exact HW].
  apply Z.mul_le_mono_nonneg_r; lia.
Qed.

(** The exponent of a float bounds the magnitude of what lies below it. *)
Lemma exp_from_val (mF : positive) (eF m e d : Z) :
  valid_binary (S754_finite false mF eF) = true ->
  -4000 <= e -> 1 <= d -> 2 ^ (d - 1) <= m ->
  m * W e <= Zpos mF * W eF ->
  d + e - 53 <= eF.
Proof.
  intros HF He Hd Hm Hle.
  destruct (valid_bounds _ _ _ HF) as (HeF & HmF & _).
  pose proof (W_pos e He) as HWe. pose proof (W_pos eF ltac:(lia)) as HWF.
  assert (H1 : 2 ^ (d - 1) * W e <= m * W e) by (apply Z.mul_le_mono_nonneg_r; lia).
  assert (H2 : Zpos mF * W eF < 2 ^ 53 * W eF) by (apply Z.mul_lt_mono_pos_r; lia).
  rewrite !pow_W in * by lia.
  assert (H3 : W (e + (d - 1)) < W (eF + 53)) by lia.
  apply W_lt_exp in H3; lia.
Qed.

(** The value of a valid float is below 2^1024. *)
Lemma val_lt_max (mF : positive) (eF : Z) :
  valid_binary (S754_finite false mF eF) = true ->
  Zpos mF * W eF < W 1024.
Proof.
  intros HF. destruct (valid_bounds _ _ _ HF) as (HeF & HmF & _).
  pose proof (W_pos eF ltac:(lia)) as HWF.
  assert (H2 : Zpos mF * W eF < 2 ^ 53 * W eF) by (apply Z.mul_lt_mono_pos_r; lia).
  rewrite pow_W in H2 by lia.
  pose proof (W_le_mono (eF + 53) 1024 ltac:(lia) ltac:(lia)). lia.
Qed.

(** A mantissa with [d] digits at exponent [e] with [d + e > 1024] is not
    below any float. *)
Lemma too_big (mF : positive) (eF m e : Z) :
  valid_binary (S754_finite false mF eF) = true ->
  0 < m -> -4000 <= e -> 1024 < Zdigits2 m + e ->
  m * W e <= Zpos mF * W eF -> False.
Proof.
  intros HF Hm He Hbig Hle.
  pose proof (Zdigits2_bounds m Hm) as [Hlo _].
  pose proof (Zdigits2_nonneg m) as Hd.
  assert (Hd1 : 1 <= Zdigits2 m).
  { destruct m; cbn in *; lia. }
  pose proof (exp_from_val mF eF m e (Zdigits2 m) HF He Hd1 Hlo Hle).
  destruct (valid_bounds _ _ _ HF) as (HeF & _). lia.
Qed.

Lemma round_aux_upper (m e : Z) (l : location) (mF : positive) (eF : Z) :
  0 <= m -> -4000 <= e <= 971 ->
  valid_binary (S754_finite false mF eF) = true ->
  (m + delta l) * W e <= Zpos mF * W eF ->
  match binary_round_aux prec emax false m e l with
  | S754_zero s => s = false
  | S754_finite s m2 e2 => s = false /\ Zpos m2 * W e2 <= Zpos mF * W eF
  | _ => False
  end.
Proof.
  intros Hm He HF Hle.
  pose proof (valid_bounds _ _ _ HF) as (HeF & HmF & _).
  unfold binary_round_aux.
  pose proof (shr_fexp_spec m e l Hm) as H1. cbn zeta in H1.
  destruct (shr_fexp prec emax m e l) as [mrs1 e1]. cbn [fst snd] in H1.
  destruct H1 as [Hm1 H1].
  pose proof (round_bounds mrs1) as Hr. cbn zeta in Hr.
  set (r := round_nearest_even (shr_m mrs1) (loc_of_shr_record mrs1)) in *.
  destruct Hr as [[Hrlo Hrhi] Hrex].
  assert (Hr0 : 0 <= r) by lia.
  assert (He1 : -4000 <= e1) by (rewrite fexp_eq in H1; lia).
  pose proof (W_pos e ltac:(lia)) as HWe.
  (* the rounded mantissa is below the float *)
  assert (K1 : r * W e1 <= Zpos mF * W eF).
  { destruct H1 as [(Hn & -> & ->)|(Hn & -> & Hdiv & Hin)].
    - rewrite shr_m_of_loc in *.
      destruct (inexact (shr_record_of_loc m l)) eqn:Hi.
      + rewrite (inexact_of_loc m l Hi) in Hle.
        apply Z.le_trans with ((m + 1) * W e); [|exact Hle].
        apply Z.mul_le_mono_nonneg_r; lia.
      + rewrite (Hrex eq_refl).
        apply Z.le_trans with ((m + delta l) * W e); [|exact Hle].
        apply Z.mul_le_mono_nonneg_r; [lia|]. destruct l; cbn; lia.
    - set (n := fexp prec emax (Zdigits2 m + e) - e) in *.
      assert (Hpn : 0 < 2 ^ n) by (apply Z.pow_pos_nonneg; lia).
      pose proof (Z.mul_div_le m (2 ^ n) Hpn) as Hfloor.
      assert (Hbelow : shr_m mrs1 * W (e + n) <= m * W e).
      { rewrite W_add by lia. rewrite Hdiv.
        replace (m / 2 ^ n * (W e * 2 ^ n)) with ((2 ^ n * (m / 2 ^ n)) * W e) by ring.
        apply Z.mul_le_mono_nonneg_r; lia. }
      assert (Hdl : 0 <= delta l) by (destruct l; cbn; lia).
      destruct (inexact mrs1) eqn:Hi.
      + (* rounded up at most one unit of the new grid *)
        apply Z.le_trans with ((shr_m mrs1 + 1) * W (e + n)).
        { apply Z.mul_le_mono_nonneg_r; [pose proof (W_pos (e + n)); lia | lia]. }
        apply grid_step; [lia| |].
        * (* the float is on the grid *)
          unfold n. rewrite fexp_eq.
          replace (e + (Z.max (Zdigits2 m + e - 53) (-1074) - e))
            with (Z.max (Zdigits2 m + e - 53) (-1074)) by lia.
          apply Z.max_lub; [|lia].
          destruct (Z.eq_dec m 0) as [->|Hm0].
          -- cbn [Zdigits2].
             destruct (Hin eq_refl) as [Hmod|Hd]; [rewrite Z.mod_0_l in Hmod by lia; lia|].
             rewrite Hd, Z.add_0_l in Hle.
             assert (Hx : 1 * W e <= Zpos mF * W eF) by lia.
             pose proof (exp_from_val mF eF 1 e 1 HF ltac:(lia) ltac:(lia) ltac:(cbn; lia) Hx).
             lia.
          -- assert (Hmp : 0 < m) by lia.
             pose proof (Zdigits2_bounds m Hmp) as [Hlo _].
             assert (Hd1 : 1 <= Zdigits2 m) by (destruct m; cbn in *; lia).
             assert (Hx : m * W e <= Zpos mF * W eF).
             { apply Z.le_trans with ((m + delta l) * W e); [|exact Hle].
               apply Z.mul_le_mono_nonneg_r; lia. }
             pose proof (exp_from_val mF eF m e (Zdigits2 m) HF ltac:(lia) Hd1 Hlo Hx).
             lia.
        * (* strictly below *)
          apply Z.lt_le_trans with ((m + delta l) * W e); [|exact Hle].
          rewrite W_add by lia. rewrite Hdiv.
          replace (m / 2 ^ n * (W e * 2 ^ n)) with ((2 ^ n * (m / 2 ^ n)) * W e) by ring.
          apply Z.mul_lt_mono_pos_r; [exact HWe|].
          destruct (Hin eq_refl) as [Hmod|Hd]; [|lia].
          pose proof (Z.div_mod m (2 ^ n) ltac:(lia)) as Hdm.
          pose proof (Z.mod_pos_bound m (2 ^ n) Hpn). lia.
      + rewrite (Hrex eq_refl).
        apply Z.le_trans with (m * W e); [exact Hbelow|].
        apply Z.le_trans with ((m + delta l) * W e); [|exact Hle].
        apply Z.mul_le_mono_nonneg_r; lia. }
  (* the second normalisation only shifts right *)
  pose proof (shr_fexp_spec r e1 loc_Exact Hr0) as H2. cbn zeta in H2.
  destruct (shr_fexp prec emax r e1 loc_Exact) as [mrs2 e2]. cbn [fst snd] in H2.
  destruct H2 as [Hm2 H2].
  pose proof (W_pos e1 He1) as HWe1.
  assert (K2 : shr_m mrs2 * W e2 <= r * W e1 /\ -4000 <= e2).
  { destruct H2 as [(Hn & -> & ->)|(Hn & -> & Hdiv & _)].
    - cbn. lia.
    - set (n := fexp prec emax (Zdigits2 r + e1) - e1) in *.
      assert (Hpn : 0 < 2 ^ n) by (apply Z.pow_pos_nonneg; lia).
      pose proof (Z.mul_div_le r (2 ^ n) Hpn) as Hfloor.
      split; [|lia]. rewrite W_add by lia. rewrite Hdiv.
      replace (r / 2 ^ n * (W e1 * 2 ^ n)) with ((2 ^ n * (r / 2 ^ n)) * W e1) by ring.
      apply Z.mul_le_mono_nonneg_r; lia. }
  destruct K2 as [K2 He2].
  destruct (shr_m mrs2) as [|p|p] eqn:Hp; [reflexivity| |lia].
  destruct (Z.leb_spec e2 (emax - prec)) as [Hok|Hbig].
  - split; [reflexivity | lia].
  - (* the exponent cannot overflow below a finite float *)
    change (emax - prec) with 971 in Hbig. exfalso.
    assert (Hrpos : 0 < r).
    { destruct (Z.eq_dec r 0) as [Hr00|]; [|lia]. exfalso.
      rewrite Hr00 in K2. pose proof (W_pos e2 He2).
      assert (0 < Zpos p * W e2) by (apply Z.mul_pos_pos; lia). lia. }
    destruct H2 as [(Hn2 & -> & _)|(Hn2 & -> & _)].
    + (* no second shift *)
      destruct H1 as [(Hn1 & -> & _)|(Hn1 & -> & Hdiv & _)]; [lia|].
      rewrite fexp_eq in Hbig, Hn1.
      assert (Hmp : 0 < m).
      { destruct (Z.eq_dec m 0) as [->|]; [cbn in Hbig; lia | lia]. }
      apply (too_big mF eF m e HF Hmp ltac:(lia)); [lia|].
      apply Z.le_trans with ((m + delta l) * W e); [|exact Hle].
      apply Z.mul_le_mono_nonneg_r; [lia|]. destruct l; cbn; lia.
    + rewrite fexp_eq in Hbig, Hn2.
      apply (too_big mF eF r e1 HF Hrpos He1); [lia | exact K1].
Qed.

Lemma compare_cont_Eq (m1 m2 : positive) :
  Pos.compare_cont Eq m1 m2 = (Zpos m1 ?= Zpos m2).
Proof. reflexivity. Qed.

Lemma SFcompare_key (x y : spec_float) :
  is_nan x = false -> is_nan y = false ->
  (SFcompare x y = Some Lt <-> lex_lt (key x) (key y))
  /\ (SFcompare x y = Some Eq <-> key x = key y)
  /\ (SFcompare x y = Some Gt <-> lex_lt (key y) (key x)).
Proof.
  destruct x as [sx|sx| |sx mx ex], y as [sy|sy| |sy my ey];
    try discriminate; intros _ _;
    try (destruct sx); try (destruct sy); cbn -[Z.compare Z.opp];
    try (repeat split; intros H; try discriminate; try reflexivity;
         try (inversion H; fail); try lia; fail).
  all: rewrite ?compare_cont_Eq.
  all: destruct (Z.compare_spec ex ey) as [He|He|He];
       destruct (Z.compare_spec (Zpos mx) (Zpos my)) as [Hm|Hm|Hm];
       cbn -[Z.opp];
       repeat split; intros H; try discriminate; try reflexivity;
       try (inversion H; lia); try lia;
       try (f_equal; f_equal; lia).
Qed.

(** The sign of a rounded number is the sign given. *)
Lemma round_aux_sign (sx : bool) (m e : Z) (l : location) :
  0 <= m ->
  match binary_round_aux prec emax sx m e l with
  | S754_zero s | S754_infinity s | S754_finite s _ _ => s = sx
  | S754_nan => False
  end.
Proof.
  intros Hm. unfold binary_round_aux.
  pose proof (shr_fexp_spec m e l Hm) as H1. cbn zeta in H1.
  destruct (shr_fexp prec emax m e l) as [mrs1 e1]. cbn [fst snd] in H1.
  destruct H1 as [Hm1 _].
  pose proof (round_bounds mrs1) as Hr. cbn zeta in Hr.
  set (r := round_nearest_even (shr_m mrs1) (loc_of_shr_record mrs1)) in *.
  destruct Hr as [[Hrlo _] _].
  pose proof (shr_fexp_spec r e1 loc_Exact ltac:(lia)) as H2. cbn zeta in H2.
  destruct (shr_fexp prec emax r e1 loc_Exact) as [mrs2 e2]. cbn [fst snd] in H2.
  destruct H2 as [Hm2 _].
  destruct (shr_m mrs2) as [|p|p]; [reflexivity| |lia].
  destruct (e2 <=? emax - prec); reflexivity.
Qed.

Lemma iter_xO (d m : positive) : Zpos (Pos.iter xO m d) = Zpos m * 2 ^ Zpos d.
Proof.
  induction d as [|d IH] using Pos.peano_ind.
  - cbn. lia.
  - rewrite Pos.iter_succ, Pos2Z.inj_succ, Z.pow_succ_r by lia.
    change (Zpos (Pos.iter xO m d)~0) with (2 * Zpos (Pos.iter xO m d)).
    rewrite IH. ring.
Qed.

(** Aligning a mantissa to a lower exponent keeps the value. *)
Lemma shl_align_spec (m : positive) (e e' : Z) :
  let a := shl_align m e e' in
  snd a = Z.min e e' /\ Zpos (fst a) = Zpos m * 2 ^ (e - Z.min e e').
Proof.
  cbn zeta. unfold shl_align.
  destruct (e' - e) as [|d|d] eqn:Hd; cbn [fst snd].
  - replace (Z.min e e') with e by lia. rewrite Z.sub_diag. split; lia.
  - replace (Z.min e e') with e by lia. rewrite Z.sub_diag. split; lia.
  - replace (Z.min e e') with e' by lia. split; [reflexivity|].
    rewrite iter_xO. f_equal. f_equal. lia.
Qed.

Lemma shl_align_val (m : positive) (e e' : Z) :
  -4000 <= e -> -4000 <= e' ->
  Zpos (fst (shl_align m e e')) * W (snd (shl_align m e e')) = Zpos m * W e.
Proof.
  intros He He'. destruct (shl_align_spec m e e') as [-> ->].
  assert (HW : W e = W (Z.min e e') * 2 ^ (e - Z.min e e')).
  { rewrite <- W_add by lia. f_equal. lia. }
  rewrite HW. ring.
Qed.

(** Rounding a positive integer at an exponent: below any float above it. *)
Lemma binary_round_upper (m : positive) (e : Z) (mF : positive) (eF : Z) :
  -2000 <= e <= 971 ->
  valid_binary (S754_finite false mF eF) = true ->
  Zpos m * W e <= Zpos mF * W eF ->
  match binary_round prec emax false m e with
  | S754_zero s => s = false
  | S754_finite s m2 e2 => s = false /\ Zpos m2 * W e2 <= Zpos mF * W eF
  | _ => False
  end.
Proof.
  intros He HF Hle. unfold binary_round.
  pose proof (shl_align_spec m e (fexp prec emax (Zpos (digits2_pos m) + e))) as [Hs _].
  pose proof (shl_align_val m e (fexp prec emax (Zpos (digits2_pos m) + e))
                ltac:(lia) ltac:(rewrite fexp_eq; lia)) as Hv.
  destruct (shl_align m e (fexp prec emax (Zpos (digits2_pos m) + e))) as [mz ez].
  cbn [fst snd] in *.
  apply round_aux_upper; [lia | rewrite fexp_eq in Hs; lia | exact HF |].
  cbn [delta]. rewrite Z.add_0_r, Hv. exact Hle.
Qed.

Lemma binary_round_sign (sx : bool) (m : positive) (e : Z) :
  match binary_round prec emax sx m e with
  | S754_zero s | S754_infinity s | S754_finite s _ _ => s = sx
  | S754_nan => False
  end.
Proof.
  unfold binary_round.
  destruct (shl_align m e (fexp prec emax (Zpos (digits2_pos m) + e))) as [mz ez].
  apply round_aux_sign. lia.
Qed.

(** Order by value of two valid finite floats of the same sign. *)
Lemma key_val_pos (ma mb : positive) (ea eb : Z) :
  valid_binary (S754_finite false ma ea) = true ->
  valid_binary (S754_finite false mb eb) = true ->
  (Zpos ma * W ea <= Zpos mb * W eb
   <-> ea < eb \/ (ea = eb /\ Zpos ma <= Zpos mb)).
Proof. intros Ha Hb. split; [apply val_le_key | apply key_le_val]; assumption. Qed.

Lemma SFleb_key (x y : spec_float) :
  SFleb x y = true <->
  is_nan x = false /\ is_nan y = false
  /\ (lex_lt (key x) (key y) \/ key x = key y).
Proof.
  unfold SFleb. destruct (is_nan x) eqn:Hx.
  { destruct x; try discriminate. cbn. split; [discriminate | intros [H _]; discriminate]. }
  destruct (is_nan y) eqn:Hy.
  { destruct y; try discriminate. destruct x; cbn;
      (split; [discriminate | intros (_ & H & _); discriminate]). }
  destruct (SFcompare_key x y Hx Hy) as (Hlt & Heq & Hgt).
  destruct (SFcompare x y) as [[]|] eqn:Hc.
  - split; [intros _|reflexivity]. repeat split. right. apply Heq. reflexivity.
  - split; [intros _|reflexivity]. repeat split. left. apply Hlt. reflexivity.
  - split; [discriminate|]. intros (_ & _ & [H|H]).
    + apply Hlt in H. discriminate.
    + apply Heq in H. discriminate.
  - split; [discriminate|]. intros (_ & _ & [H|H]).
    + apply Hlt in H. discriminate.
    + apply Heq in H. discriminate.
Qed.

Lemma SFltb_key (x y : spec_float) :
  SFltb x y = true <->
  is_nan x = false /\ is_nan y = false /\ lex_lt (key x) (key y).
Proof.
  unfold SFltb. destruct (is_nan x) eqn:Hx.
  { destruct x; try discriminate. cbn. split; [discriminate | intros [H _]; discriminate]. }
  destruct (is_nan y) eqn:Hy.
  { destruct y; try discriminate. destruct x; cbn;
      (split; [discriminate | intros (_ & H & _); discriminate]). }
  destruct (SFcompare_key x y Hx Hy) as (Hlt & Heq & Hgt).
  destruct (SFcompare x y) as [[]|] eqn:Hc.
  - split; [discriminate|]. intros (_ & _ & H). apply Hlt in H. discriminate.
  - split; [intros _|reflexivity]. repeat split. apply Hlt. reflexivity.
  - split; [discriminate|]. intros (_ & _ & H). apply Hlt in H. discriminate.
  - split; [discriminate|]. intros (_ & _ & H). apply Hlt in H. discriminate.
Qed.

Lemma SFeqb_key (x y : spec_float) :
  SFeqb x y = true <->
  is_nan x = false /\ is_nan y = false /\ key x = key y.
Proof.
  unfold SFeqb. destruct (is_nan x) eqn:Hx.
  { destruct x; try discriminate. cbn. split; [discriminate | intros [H _]; discriminate]. }
  destruct (is_nan y) eqn:Hy.
  { destruct y; try discriminate. destruct x; cbn;
      (split; [discriminate | intros (_ & H & _); discriminate]). }
  destruct (SFcompare_key x y Hx Hy) as (Hlt & Heq & Hgt).
  destruct (SFcompare x y) as [[]|] eqn:Hc.
  - split; [intros _|reflexivity]. repeat split. apply Heq. reflexivity.
  - split; [discriminate|]. intros (_ & _ & H). apply Heq in H. discriminate.
  - split; [discriminate|]. intros (_ & _ & H). apply Heq in H. discriminate.
  - split; [discriminate|]. intros (_ & _ & H). apply Heq in H. discriminate.
Qed.

Lemma nonneg_leb (x : spec_float) : nonneg x -> SFleb SFzero x = true.
Proof. destruct x as [s|s| |s m e]; cbn; try tauto; intros ->; reflexivity. Qed.

Lemma leb_nonneg (x : spec_float) : SFleb SFzero x = true -> nonneg x.
Proof. destruct x as [s|[]| |[] m e]; cbn; try tauto; try discriminate; reflexivity. Qed.

Lemma aligned_val (m : positive) (e ez : Z) :
  -4000 <= e -> -4000 <= ez -> ez <= e ->
  Zpos (fst (shl_align m e ez)) * W ez = Zpos m * W e.
Proof.
  intros He Hez Hle. pose proof (shl_align_val m e ez He Hez) as H.
  destruct (shl_align_spec m e ez) as [Hs _]. rewrite Hs in H.
  replace (Z.min e ez) with ez in H by lia. exact H.
Qed.

Lemma SFsub_finite (sx : bool) (mx : positive) (ex : Z)
    (sy : bool) (my : positive) (ey : Z) :
  SFsub prec emax (S754_finite sx mx ex) (S754_finite sy my ey)
  = binary_normalize prec emax (aligned_diff sx mx ex sy my ey) (Z.min ex ey) false.
Proof. reflexivity. Qed.

Lemma aligned_diff_val (sx : bool) (mx : positive) (ex : Z)
    (sy : bool) (my : positive) (ey : Z) :
  -4000 <= ex -> -4000 <= ey ->
  aligned_diff sx mx ex sy my ey * W (Z.min ex ey)
  = cond_Zopp sx (Zpos mx) * W ex - cond_Zopp sy (Zpos my) * W ey.
Proof.
  intros Hx Hy. unfold aligned_diff.
  pose proof (aligned_val mx ex (Z.min ex ey) Hx ltac:(lia) ltac:(lia)) as Hax.
  pose proof (aligned_val my ey (Z.min ex ey) Hy ltac:(lia) ltac:(lia)) as Hay.
  rewrite Z.mul_sub_distr_r.
  destruct sx, sy; cbn [cond_Zopp]; rewrite ?Z.mul_opp_l, Hax, Hay; reflexivity.
Qed.

(** [y <= x] on valid finite floats gives a difference that is not negative. *)
Lemma aligned_diff_nonneg (sx : bool) (mx : positive) (ex : Z)
    (sy : bool) (my : positive) (ey : Z) :
  valid_binary (S754_finite sx mx ex) = true ->
  valid_binary (S754_finite sy my ey) = true ->
  SFleb (S754_finite sy my ey) (S754_finite sx mx ex) = true ->
  0 <= aligned_diff sx mx ex sy my ey.
Proof.
  intros Hvx Hvy Hle.
  pose proof (valid_bounds _ _ _ Hvx) as (Hex & _).
  pose proof (valid_bounds _ _ _ Hvy) as (Hey & _).
  pose proof (aligned_diff_val sx mx ex sy my ey ltac:(lia) ltac:(lia)) as Hval.
  pose proof (W_pos (Z.min ex ey) ltac:(lia)) as HW.
  pose proof (W_pos ex ltac:(lia)) as HWx.
  pose proof (W_pos ey ltac:(lia)) as HWy.
  apply SFleb_key in Hle. destruct Hle as (_ & _ & Hle).
  assert (Hgoal : 0 <= aligned_diff sx mx ex sy my ey * W (Z.min ex ey)).
  { rewrite Hval. unfold lex_lt, key in Hle.
    destruct sx, sy; cbn [cond_Zopp].
    - (* both negative *)
      assert (Hk : ex < ey \/ (ex = ey /\ Zpos mx <= Zpos my)).
      { destruct Hle as [H|H]; [lia | inversion H; lia]. }
      change (valid_binary (S754_finite true mx ex)) with
        (valid_binary (S754_finite false mx ex)) in Hvx.
      change (valid_binary (S754_finite true my ey)) with
        (valid_binary (S754_finite false my ey)) in Hvy.
      pose proof (key_le_val mx my ex ey Hvx Hvy Hk). lia.
    - exfalso. destruct Hle as [H|H]; [lia | inversion H].
    - assert (0 < Zpos mx * W ex) by (apply Z.mul_pos_pos; lia).
      assert (0 < Zpos my * W ey) by (apply Z.mul_pos_pos; lia). lia.
    - assert (Hk : ey < ex \/ (ey = ex /\ Zpos my <= Zpos mx)).
      { destruct Hle as [H|H]; [lia | inversion H; lia]. }
      pose proof (key_le_val my mx ey ex Hvy Hvx Hk). lia. }
  destruct (Z_le_gt_dec 0 (aligned_diff sx mx ex sy my ey)) as [|Hneg]; [assumption|].
  exfalso.
  assert (aligned_diff sx mx ex sy my ey * W (Z.min ex ey) < 0)
    by (apply Z.mul_neg_pos; lia).
  lia.
Qed.

Lemma normalize_nonneg (m e : Z) :
  0 <= m -> nonneg (binary_normalize prec emax m e false).
Proof.
  intros Hm. destruct m as [|p|p]; cbn [binary_normalize]; [exact I| |lia].
  pose proof (binary_round_sign false p e) as H.
  destruct (binary_round prec emax false p e); cbn; tauto.
Qed.

(** The difference of valid finite floats [y <= x] is not negative. *)
Lemma SFsub_nonneg (x y : spec_float) :
  valid_binary x = true -> valid_binary y = true ->
  finite x = true -> finite y = true ->
  SFleb y x = true -> nonneg (SFsub prec emax x y).
Proof.
  intros Hvx Hvy Hfx Hfy Hle.
  destruct x as [sx|sx| |sx mx ex], y as [sy|sy| |sy my ey]; try discriminate.
  - cbn. destruct sx, sy; exact I.
  - cbn. destruct sy; [reflexivity| discriminate].
  - cbn. destruct sx; [discriminate | reflexivity].
  - rewrite SFsub_finite. apply normalize_nonneg.
    apply aligned_diff_nonneg; assumption.
Qed.

(** Taking a non-negative finite [e] from a non-negative finite [T]
    gives at most [T], when it gives a positive number at all. *)
Lemma SFsub_upper (T e : spec_float) :
  valid_binary T = true -> valid_binary e = true ->
  finite T = true -> finite e = true ->
  nonneg T -> nonneg e ->
  valid_binary (SFsub prec emax T e) = true ->
  SFltb SFzero (SFsub prec emax T e) = true ->
  SFleb (SFsub prec emax T e) T = true.
Proof.
  intros HvT Hve HfT Hfe HnT Hne HvR Hpos.
  destruct T as [sT|sT| |sT mT eT], e as [se|se| |se me ee]; try discriminate.
  - exfalso. cbn in Hpos. destruct sT, se; discriminate.
  - exfalso. cbn in Hne. subst se. cbn in Hpos. discriminate.
  - cbn in HnT. subst sT. cbn -[Z.compare].
    rewrite Z.compare_refl, Pos.compare_cont_refl. reflexivity.
  - cbn in HnT, Hne. subst sT se.
    rewrite SFsub_finite in *.
    pose proof (valid_bounds _ _ _ HvT) as (HeT & _).
    pose proof (valid_bounds _ _ _ Hve) as (Hee & _).
    pose proof (aligned_diff_val false mT eT false me ee ltac:(lia) ltac:(lia)) as Hval.
    cbn [cond_Zopp] in Hval.
    assert (0 < Zpos me * W ee) by (apply Z.mul_pos_pos; [lia | apply W_pos; lia]).
    destruct (aligned_diff false mT eT false me ee) as [|p|p] eqn:Hd;
      cbn [binary_normalize] in *.
    + discriminate.
    + pose proof (binary_round_upper p (Z.min eT ee) mT eT ltac:(lia) HvT ltac:(lia)) as Hup.
      destruct (binary_round prec emax false p (Z.min eT ee)) as [s|s| |s m2 e2];
        try contradiction.
      * subst s. discriminate.
      * destruct Hup as [-> Hup].
        apply SFleb_key. repeat split. cbn [key lex_lt].
        destruct (val_le_key m2 mT e2 eT HvR HvT Hup) as [Hlt|[-> Hm]].
        -- left. lia.
        -- destruct (Z.eq_dec (Zpos m2) (Zpos mT)) as [Heq|Hne'].
           ++ right. inversion Heq. reflexivity.
           ++ left. lia.
    + exfalso. pose proof (binary_round_sign true p (Z.min eT ee)) as Hs.
      destruct (binary_round prec emax true p (Z.min eT ee)) as [s|s| |s m2 e2];
        try contradiction; subst s; discriminate.
Qed.

Lemma SFone_valid : valid_binary SFone = true.
Proof. reflexivity. Qed.

Lemma SFone_val : Zpos 4503599627370496 * W (-52) = W 0.
Proof.
  change (Zpos 4503599627370496) with (2 ^ 52). rewrite pow_W by lia. reflexivity.
Qed.

Lemma W_mul (a b : Z) :
  -4000 <= a -> -4000 <= b -> -4000 <= a + b -> W (a + b) * W 0 = W a * W b.
Proof.
  intros Ha Hb Hab. unfold W. rewrite <- !Z.pow_add_r by lia. f_equal. lia.
Qed.

Lemma new_location_delta (nb k : Z) :
  delta (new_location nb k) = if k =? 0 then 0 else 1.
Proof.
  unfold new_location, new_location_even, new_location_odd.
  destruct (Z.even nb); destruct (k =? 0); reflexivity.
Qed.

(** From a value order, the keys are ordered: the result of a rounding below
    a valid float compares below it. *)
Lemma upper_leb (R : spec_float) (mF : positive) (eF : Z) :
  valid_binary R = true ->
  valid_binary (S754_finite false mF eF) = true ->
  match R with
  | S754_zero s => s = false
  | S754_finite s m2 e2 => s = false /\ Zpos m2 * W e2 <= Zpos mF * W eF
  | _ => False
  end ->
  finite R = true /\ nonneg R /\ SFleb R (S754_finite false mF eF) = true.
Proof.
  intros HvR HvF H. destruct R as [s|s| |s m2 e2]; try contradiction.
  - subst s. repeat split.
  - destruct H as [-> Hle]. repeat split.
    apply SFleb_key. repeat split. cbn [key lex_lt].
    destruct (val_le_key m2 mF e2 eF HvR HvF Hle) as [Hlt|[-> Hm]].
    + left. lia.
    + destruct (Z.eq_dec (Zpos m2) (Zpos mF)) as [Heq|Hne].
      * right. inversion Heq. reflexivity.
      * left. lia.
Qed.

(** A quotient [x / y] of positive valid floats with [x <= y] rounds to at
    most one. *)
Lemma SFdiv_upper (mx my : positive) (ex ey : Z) :
  valid_binary (S754_finite false mx ex) = true ->
  valid_binary (S754_finite false my ey) = true ->
  Zpos mx * W ex <= Zpos my * W ey ->
  match SFdiv prec emax (S754_finite false mx ex) (S754_finite false my ey) with
  | S754_zero s => s = false
  | S754_finite s m2 e2 => s = false /\ Zpos m2 * W e2 <= Zpos 4503599627370496 * W (-52)
  | _ => False
  end.
Proof.
  intros Hvx Hvy Hle.
  pose proof (valid_bounds _ _ _ Hvx) as (Hex & Hmx & _).
  pose proof (valid_bounds _ _ _ Hvy) as (Hey & Hmy & _).
  cbn [SFdiv xorb]. unfold SFdiv_core_binary.
  set (d1 := Zdigits2 (Zpos mx)). set (d2 := Zdigits2 (Zpos my)).
  set (e' := Z.min (fexp prec emax (d1 + ex - (d2 + ey))) (ex - ey)).
  set (s := ex - ey - e').
  assert (Hs : 0 <= s) by (unfold s, e'; lia).
  set (m' := match s with Zpos _ => Z.shiftl (Zpos mx) s | Z0 => Zpos mx | Zneg _ => 0 end).
  assert (Hm' : m' = Zpos mx * 2 ^ s).
  { unfold m'. destruct s as [|p|p]; [cbn; lia | apply Z.shiftl_mul_pow2; lia | lia]. }
  pose proof (Z_div_mod m' (Zpos my) ltac:(lia)) as Hdm.
  destruct (Z.div_eucl m' (Zpos my)) as [q r]. destruct Hdm as [Hdm Hr].
  (* magnitudes *)
  pose proof (digits2_pos_bounds mx) as [Hlox _].
  pose proof (digits2_pos_bounds my) as [_ Hhiy].
  fold (Zdigits2 (Zpos mx)) in Hlox. fold d1 in Hlox.
  fold (Zdigits2 (Zpos my)) in Hhiy. fold d2 in Hhiy.
  assert (Hd1 : 1 <= d1) by (unfold d1; cbn; lia).
  assert (Hd2 : 1 <= d2) by (unfold d2; cbn; lia).
  pose proof (W_pos ex ltac:(lia)) as HWx. pose proof (W_pos ey ltac:(lia)) as HWy.
  assert (Hmag : d1 + ex - (d2 + ey) <= 0).
  { assert (H1 : 2 ^ (d1 - 1) * W ex <= Zpos mx * W ex)
      by (apply Z.mul_le_mono_nonneg_r; lia).
    assert (H2 : Zpos my * W ey < 2 ^ d2 * W ey)
      by (apply Z.mul_lt_mono_pos_r; lia).
    rewrite !pow_W in * by lia.
    assert (H3 : W (ex + (d1 - 1)) < W (ey + d2)) by lia.
    apply W_lt_exp in H3; lia. }
  assert (He'0 : e' <= 0) by (unfold e'; rewrite fexp_eq; lia).
  assert (He'lo : -2100 <= e') by (unfold e'; rewrite fexp_eq; lia).
  assert (Hq : 0 <= q).
  { assert (0 <= m') by (rewrite Hm'; apply Z.mul_nonneg_nonneg; [lia|apply Z.pow_nonneg; lia]).
    destruct (Z_le_gt_dec 0 q); [assumption|]. exfalso. nia. }
  apply (round_aux_upper q e' _ 4503599627370496 (-52));
    [exact Hq | lia | exact SFone_valid |].
  rewrite SFone_val, new_location_delta.
  (* the scaled quotient *)
  pose proof (W_pos e' ltac:(lia)) as HWe'.
  pose proof (W_pos (e' + ey) ltac:(lia)) as HWee.
  pose proof (W_pos 0 ltac:(lia)) as HW0.
  assert (Hscale : m' * W (e' + ey) <= Zpos my * W ey).
  { rewrite Hm'. replace (Zpos mx * 2 ^ s * W (e' + ey))
      with (Zpos mx * (W (e' + ey) * 2 ^ s)) by ring.
    rewrite <- W_add by lia. replace (e' + ey + s) with ex by (unfold s; lia).
    exact Hle. }
  assert (Hmul : W (e' + ey) * W 0 = W e' * W ey) by (apply W_mul; lia).
  destruct (Z.eqb_spec r 0) as [Hr0|Hr0].
  - (* exact quotient *)
    rewrite Z.add_0_r.
    assert (Hq1 : q * W (e' + ey) <= W ey).
    { apply (Z.mul_le_mono_pos_l _ _ (Zpos my)); [lia|].
      replace (Zpos my * (q * W (e' + ey))) with ((Zpos my * q) * W (e' + ey)) by ring.
      replace (Zpos my * q) with m' by lia. exact Hscale. }
    apply (Z.mul_le_mono_pos_r _ _ (W ey) HWy).
    replace (q * W e' * W ey) with (q * (W e' * W ey)) by ring.
    rewrite <- Hmul.
    replace (q * (W (e' + ey) * W 0)) with ((q * W (e' + ey)) * W 0) by ring.
    rewrite (Z.mul_comm (W 0) (W ey)).
    apply Z.mul_le_mono_nonneg_r; lia.
  - (* a remainder: strictly below one, which is on the grid *)
    replace (W 0) with (1 * W 0) by ring.
    apply grid_step; [lia | lia |].
    rewrite Z.mul_1_l.
    assert (Hq1 : q * W (e' + ey) < W ey).
    { apply (Z.mul_lt_mono_pos_l (Zpos my)); [lia|].
      replace (Zpos my * (q * W (e' + ey))) with ((Zpos my * q) * W (e' + ey)) by ring.
      apply Z.lt_le_trans with (m' * W (e' + ey)); [|exact Hscale].
      apply Z.mul_lt_mono_pos_r; lia. }
    apply (Z.mul_lt_mono_pos_r (W ey) _ _ HWy).
    replace (q * W e' * W ey) with (q * (W e' * W ey)) by ring.
    rewrite <- Hmul.
    replace (q * (W (e' + ey) * W 0)) with ((q * W (e' + ey)) * W 0) by ring.
    rewrite (Z.mul_comm (W 0) (W ey)).
    apply Z.mul_lt_mono_pos_r; lia.
Qed.

(** A product [x * y] of positive valid floats with [y <= 1] rounds to at
    most [x]. *)
Lemma SFmul_upper (mx my : positive) (ex ey : Z) :
  valid_binary (S754_finite false mx ex) = true ->
  valid_binary (S754_finite false my ey) = true ->
  Zpos my * W ey <= W 0 ->
  match SFmul prec emax (S754_finite false mx ex) (S754_finite false my ey) with
  | S754_zero s => s = false
  | S754_finite s m2 e2 => s = false /\ Zpos m2 * W e2 <= Zpos mx * W ex
  | _ => False
  end.
Proof.
  intros Hvx Hvy Hle.
  pose proof (valid_bounds _ _ _ Hvx) as (Hex & Hmx & _).
  pose proof (valid_bounds _ _ _ Hvy) as (Hey & Hmy & _).
  cbn [SFmul xorb].
  assert (Hey0 : ey <= -52).
  { rewrite <- SFone_val in Hle.
    destruct (val_le_key my 4503599627370496 ey (-52) Hvy SFone_valid Hle); lia. }
  apply round_aux_upper; [lia | lia | exact Hvx |].
  cbn [delta]. rewrite Z.add_0_r.
  pose proof (W_pos 0 ltac:(lia)) as HW0.
  pose proof (W_pos ex ltac:(lia)) as HWx.
  apply (Z.mul_le_mono_pos_r _ _ (W 0) HW0).
  rewrite Pos2Z.inj_mul.
  replace (Zpos mx * Zpos my * W (ex + ey) * W 0)
    with (Zpos mx * Zpos my * (W (ex + ey) * W 0)) by ring.
  rewrite W_mul by lia.
  replace (Zpos mx * Zpos my * (W ex * W ey)) with ((Zpos mx * W ex) * (Zpos my * W ey)) by ring.
  apply Z.mul_le_mono_nonneg_l; [lia | exact Hle].
Qed.

(** ** Primitive floats *)

Local Open Scope float_scope.

Lemma P_valid (x : float) : valid_binary (Prim2SF x) = true.
Proof. apply Prim2SF_valid. Qed.

Lemma leb_trans (x y z : float) :
  (x <=? y) = true -> (y <=? z) = true -> (x <=? z) = true.
Proof.
  rewrite !FloatAxioms.leb_spec, !SFleb_key.
  intros (Hx & Hy & Hxy) (_ & Hz & Hyz). repeat split; try assumption.
  destruct (key (Prim2SF x)) as [[a1 a2] a3], (key (Prim2SF y)) as [[b1 b2] b3],
    (key (Prim2SF z)) as [[c1 c2] c3].
  unfold lex_lt in *.
  destruct Hxy as [Hxy|Hxy], Hyz as [Hyz|Hyz];
    try (inversion Hxy; subst); try (inversion Hyz; subst);
    try (left; lia); try (right; reflexivity); try (left; assumption).
Qed.

Lemma leb_refl_l (x y : float) : (x <=? y) = true -> (x <=? x) = true.
Proof.
  rewrite !FloatAxioms.leb_spec, !SFleb_key. intros (Hx & _ & _). repeat split; try assumption.
  right. reflexivity.
Qed.

Lemma leb_refl_r (x y : float) : (x <=? y) = true -> (y <=? y) = true.
Proof.
  rewrite !FloatAxioms.leb_spec, !SFleb_key. intros (_ & Hy & _). repeat split; try assumption.
  right. reflexivity.
Qed.

Lemma ltb_leb (x y : float) : (x <? y) = true -> (x <=? y) = true.
Proof.
  rewrite FloatAxioms.ltb_spec, FloatAxioms.leb_spec, SFltb_key, SFleb_key.
  intros (Hx & Hy & H). repeat split; try assumption. left. exact H.
Qed.

Lemma eqb_not_ltb (x y : float) : (x =? y) = true -> (y <? x) = false.
Proof.
  rewrite FloatAxioms.eqb_spec, SFeqb_key. intros (Hx & Hy & H).
  destruct (y <? x) eqn:E; [|reflexivity].
  rewrite FloatAxioms.ltb_spec, SFltb_key in E. destruct E as (_ & _ & E).
  rewrite H in E. destruct (key (Prim2SF y)) as [[a b] c]. unfold lex_lt in E. lia.
Qed.

Lemma leb_not_ltb (x y : float) : (x <=? y) = true -> (y <? x) = false.
Proof.
  rewrite FloatAxioms.leb_spec, SFleb_key. intros (Hx & Hy & H).
  destruct (y <? x) eqn:E; [|reflexivity].
  rewrite FloatAxioms.ltb_spec, SFltb_key in E. destruct E as (_ & _ & E).
  destruct (key (Prim2SF x)) as [[a1 a2] a3], (key (Prim2SF y)) as [[b1 b2] b3].
  unfold lex_lt in *. destruct H as [H|H]; [lia|]. inversion H; subst. lia.
Qed.

Lemma P_zero : Prim2SF 0 = S754_zero false.
Proof. reflexivity. Qed.

(** [x - 0 = x], also for the zeros, the infinities and NaN. *)
Lemma sub_zero_r (x : float) : x - 0 = x.
Proof.
  apply Prim2SF_inj. rewrite FloatAxioms.sub_spec, P_zero. unfold SF64sub.
  destruct (Prim2SF x) as [[]|[]| |s m e]; reflexivity.
Qed.

Lemma aligned_diff_self (s : bool) (m : positive) (e : Z) :
  aligned_diff s m e s m e = 0%Z.
Proof. unfold aligned_diff. lia. Qed.

(** [x - x = 0] for a finite [x]. *)
Lemma sub_self (x : float) : finite (Prim2SF x) = true -> x - x = 0.
Proof.
  intros Hf. apply Prim2SF_inj. rewrite FloatAxioms.sub_spec, P_zero. unfold SF64sub.
  destruct (Prim2SF x) as [[]|[]| |s m e]; try discriminate; try reflexivity.
  rewrite SFsub_finite, aligned_diff_self. reflexivity.
Qed.

(** Equal finite floats differ by a zero. *)
Lemma sub_eq_zero (x y : float) :
  (x =? y) = true -> finite (Prim2SF x) = true ->
  exists s, Prim2SF (x - y) = S754_zero s.
Proof.
  rewrite FloatAxioms.eqb_spec, SFeqb_key, FloatAxioms.sub_spec. unfold SF64sub.
  intros (Hnx & Hny & Hk) Hf.
  destruct (Prim2SF x) as [sx|sx| |sx mx ex], (Prim2SF y) as [sy|sy| |sy my ey];
    try discriminate.
  - destruct sx, sy; eexists; reflexivity.
  - destruct sy; cbn in Hk; inversion Hk.
  - destruct sy; cbn in Hk; inversion Hk.
  - destruct sx; cbn in Hk; inversion Hk.
  - destruct sx, sy; cbn in Hk; inversion Hk.
  - assert (Hsame : sx = sy /\ mx = my /\ ex = ey).
    { destruct sx, sy; cbn in Hk; inversion Hk; repeat split; lia. }
    destruct Hsame as (-> & -> & ->).
    rewrite SFsub_finite, aligned_diff_self. eexists. reflexivity.
Qed.

(** For finite [y <= x] the difference [x - y] is not negative. *)
Lemma sub_nonneg (x y : float) :
  finite (Prim2SF x) = true -> finite (Prim2SF y) = true ->
  (y <=? x) = true -> (0 <=? x - y) = true.
Proof.
  intros Hfx Hfy Hle. rewrite FloatAxioms.leb_spec in *. rewrite FloatAxioms.sub_spec, P_zero.
  apply nonneg_leb. apply SFsub_nonneg; auto using P_valid.
Qed.

Lemma elapsed_class (now last : float) :
  (last <=? now) = true -> elapsed_like (Prim2SF (now - last)).
Proof.
  intros Hle. unfold elapsed_like. rewrite FloatAxioms.sub_spec. unfold SF64sub.
  destruct (finite (Prim2SF now) && finite (Prim2SF last))%bool eqn:Hfin.
  - apply andb_prop in Hfin as [Hn Hl].
    rewrite FloatAxioms.leb_spec in Hle.
    pose proof (SFsub_nonneg _ _ (P_valid now) (P_valid last) Hn Hl Hle) as Hnn.
    destruct (SFsub prec emax (Prim2SF now) (Prim2SF last)) as [s|s| |s m e];
      cbn in Hnn; try contradiction.
    + right. right. split; [reflexivity | exact I].
    + subst s. right. left. reflexivity.
    + subst s. right. right. split; reflexivity.
  - rewrite FloatAxioms.leb_spec, SFleb_key in Hle. destruct Hle as (Hl & Hn & Hk).
    destruct (Prim2SF now) as [sn|sn| |sn mn en], (Prim2SF last) as [sl|sl| |sl ml el];
      try discriminate;
      try (destruct sn); try (destruct sl); cbn in Hk |- *;
      try (left; reflexivity); try (right; left; reflexivity);
      exfalso; destruct Hk as [Hk|Hk]; try lia; inversion Hk.
Qed.

Lemma SF_remaining_le (sT se : spec_float) :
  valid_binary sT = true -> valid_binary se = true ->
  nonneg sT -> elapsed_like se ->
  valid_binary (SFsub prec emax sT se) = true ->
  SFltb SFzero (SFsub prec emax sT se) = true ->
  SFleb (SFsub prec emax sT se) sT = true.
Proof.
  intros HvT Hve HnT [->|[->|[Hfe Hne]]] HvR Hpos.
  - exfalso. destruct sT; cbn in Hpos; discriminate.
  - exfalso. destruct sT as [s|s| |s m e]; cbn in HnT, Hpos; try contradiction;
      try subst s; cbn in Hpos; discriminate.
  - destruct sT as [s|s| |s m e]; try contradiction.
    + apply SFsub_upper; auto.
    + cbn in HnT. subst s.
      destruct se as [s'|s'| |s' m' e']; try discriminate; reflexivity.
    + apply SFsub_upper; auto.
Qed.

Lemma zero_leb_zero : (0 <=? 0) = true.
Proof. reflexivity. Qed.

(** With a clock not behind the presence time and a timeout that is not
    negative, the time left, [max(0.0, T - (now - last))], lies between zero
    and the timeout. *)
Lemma time_left_bounds (T now last : float) :
  (last <=? now) = true -> (0 <=? T) = true ->
  let time_left := Py.max 0 (T - (now - last)) in
  (0 <=? time_left) = true /\ (time_left <=? T) = true.
Proof.
  intros Hclock HT. cbn zeta. unfold Py.max, Py.gt.
  destruct (0 <? T - (now - last)) eqn:Hpos.
  - split; [apply ltb_leb, Hpos|].
    rewrite FloatAxioms.leb_spec. rewrite FloatAxioms.ltb_spec, P_zero in Hpos.
    pose proof (P_valid (T - (now - last))) as HvR.
    rewrite FloatAxioms.sub_spec in *. unfold SF64sub in *.
    apply SF_remaining_le; auto using P_valid.
    + apply leb_nonneg. rewrite FloatAxioms.leb_spec, P_zero in HT. exact HT.
    + apply elapsed_class, Hclock.
  - split; [reflexivity | exact HT].
Qed.

(** Integer part of a positive float below an integer bound. *)
Lemma shiftl_bound (m : positive) (e N : Z) :
  (-4000 <= e -> 0 <= N -> Zpos m * W e <= N * W 0 ->
   0 <= Z.shiftl (Zpos m) e <= N)%Z.
Proof.
  intros He HN Hle. pose proof (W_pos 0 ltac:(lia)) as HW0.
  destruct (Z_le_gt_dec 0 e) as [Hpos|Hneg].
  - rewrite Z.shiftl_mul_pow2 by lia.
    replace e with (0 + e)%Z in Hle by lia. rewrite W_add in Hle by lia.
    assert (0 < 2 ^ e)%Z by (apply Z.pow_pos_nonneg; lia).
    split; [apply Z.mul_nonneg_nonneg; lia|].
    apply (Z.mul_le_mono_pos_r _ _ (W 0) HW0).
    replace (Zpos m * 2 ^ e * W 0)%Z with (Zpos m * (W 0 * 2 ^ e))%Z by ring.
    exact Hle.
  - rewrite Z.shiftl_div_pow2 by lia.
    assert (Hp : (0 < 2 ^ (- e))%Z) by (apply Z.pow_pos_nonneg; lia).
    split; [apply Z.div_pos; lia|].
    apply Z.div_le_upper_bound; [exact Hp|].
    pose proof (W_pos e He) as HWe.
    apply (Z.mul_le_mono_pos_r _ _ (W e) HWe).
    replace (2 ^ (- e) * N * W e)%Z with (N * (W e * 2 ^ (- e)))%Z by ring.
    rewrite <- W_add by lia. replace (e + - e)%Z with 0%Z by lia. exact Hle.
Qed.

Lemma P_300 : Prim2SF 300 = S754_finite false 5277655813324800 (-44).
Proof. reflexivity. Qed.

Lemma P_30 : Prim2SF 30 = S754_finite false 8444249301319680 (-48).
Proof. reflexivity. Qed.

Lemma val_30 : (Zpos 8444249301319680 * W (-48) = 30 * W 0)%Z.
Proof.
  change (Zpos 8444249301319680) with (30 * 2 ^ 48)%Z.
  replace (30 * 2 ^ 48 * W (-48))%Z with (30 * (2 ^ 48 * W (-48)))%Z by ring.
  rewrite pow_W by lia. reflexivity.
Qed.

(** The share of the bar to fill, [tl / 300.0], for [0 <= tl <= 300]: a
    zero or a positive float of value at most one. *)
Lemma percent_bounds (tl : float) :
  (0 <=? tl) = true -> (tl <=? 300) = true ->
  match Prim2SF (tl / 300) with
  | S754_zero _ => True
  | S754_finite s m e => s = false /\ (Zpos m * W e <= W 0)%Z
  | _ => False
  end.
Proof.
  intros H0 H300. rewrite FloatAxioms.leb_spec, P_zero in H0. apply leb_nonneg in H0.
  rewrite FloatAxioms.leb_spec, P_300, SFleb_key in H300. destruct H300 as (_ & _ & Hk).
  pose proof (P_valid tl) as Hv.
  rewrite FloatAxioms.div_spec, P_300. unfold SF64div.
  destruct (Prim2SF tl) as [s|s| |s m e]; cbn in H0; try contradiction.
  - exact I.
  - subst s. exfalso. cbn in Hk. destruct Hk as [Hk|Hk]; [lia | inversion Hk].
  - subst s.
    assert (Hle : (Zpos m * W e <= Zpos 5277655813324800 * W (-44))%Z).
    { apply key_le_val; [exact Hv | reflexivity|].
      cbn in Hk. destruct Hk as [Hk|Hk]; [lia | inversion Hk; lia]. }
    pose proof (SFdiv_upper m 5277655813324800 e (-44) Hv eq_refl Hle) as Hd.
    destruct (SFdiv prec emax (S754_finite false m e)
                (S754_finite false 5277655813324800 (-44))) as [s2|s2| |s2 m2 e2];
      try contradiction; [exact I|].
    rewrite SFone_val in Hd. exact Hd.
Qed.

(** The number of full blocks, [int(30 * (tl / 300.0))], for
    [0 <= tl <= 300]: between 0 and 30. *)
Lemma fill_bounds (tl : float) :
  (0 <=? tl) = true -> (tl <=? 300) = true ->
  exists n, Py.int (30 * (tl / 300)) = inr n /\ (0 <= n <= 30)%Z.
Proof.
  intros H0 H300. pose proof (percent_bounds tl H0 H300) as Hp.
  pose proof (P_valid (tl / 300)) as Hvp.
  pose proof (P_valid (30 * (tl / 300))) as Hvq.
  unfold Py.int. rewrite FloatAxioms.mul_spec, P_30 in *. unfold SF64mul in *.
  destruct (Prim2SF (tl / 300)) as [s|s| |s m e]; try contradiction.
  - cbn. exists 0%Z. split; [reflexivity | lia].
  - destruct Hp as [-> Hle].
    pose proof (SFmul_upper 8444249301319680 m (-48) e eq_refl Hvp Hle) as Hm.
    destruct (SFmul prec emax (S754_finite false 8444249301319680 (-48))
                (S754_finite false m e)) as [s2|s2| |s2 m2 e2];
      try contradiction.
    + exists 0%Z. split; [reflexivity | lia].
    + destruct Hm as [-> Hm]. rewrite val_30 in Hm.
      pose proof (valid_bounds _ _ _ Hvq) as (He2 & _).
      eexists. split; [reflexivity|]. cbn [cond_Zopp].
      apply shiftl_bound; [lia | lia | exact Hm].
Qed.

(** ** [math.isfinite], [int] and the exact value of a double *)

Lemma isfinite_spec (x : float) : Py.isfinite x = finite (Prim2SF x).
Proof. unfold Py.isfinite. destruct (Prim2SF x); reflexivity. Qed.

(** A finite difference has finite operands. *)
Lemma isfinite_sub (x y : float) :
  Py.isfinite (x - y) = true -> Py.isfinite x = true /\ Py.isfinite y = true.
Proof.
  rewrite !isfinite_spec, FloatAxioms.sub_spec. unfold SF64sub.
  destruct (Prim2SF x) as [[]|[]| |sx mx ex], (Prim2SF y) as [[]|[]| |sy my ey];
    cbn; intros H; try discriminate; split; reflexivity.
Qed.

(** [int(x)] returns on the finite doubles and raises on the others. *)
Lemma int_finite (x : float) :
  Py.isfinite x = true -> exists n, Py.int x = inr n.
Proof.
  unfold Py.isfinite, Py.int. destruct (Prim2SF x); try discriminate; eauto.
Qed.

Lemma int_not_finite (x : float) :
  Py.isfinite x = false -> exists err, Py.int x = inl err.
Proof.
  unfold Py.isfinite, Py.int. destruct (Prim2SF x); try discriminate; eauto.
Qed.

Lemma shiftl_floor (m : positive) (e : Z) :
  Z.shiftl (Zpos m) e = Qfloor (inject_Z (Zpos m) * 2 ^ e)%Q.
Proof.
  destruct (Z_le_gt_dec 0 e) as [He|He].
  - rewrite Z.shiftl_mul_pow2 by lia.
    rewrite <- (Qfloor_Z (Zpos m * 2 ^ e)). apply Qfloor_comp.
    rewrite inject_Z_mult, Zpower_Qpower by lia. reflexivity.
  - rewrite Z.shiftl_div_pow2 by lia. rewrite Zdiv_Qdiv. apply Qfloor_comp.
    unfold Qdiv. rewrite Zpower_Qpower by lia. rewrite <- Qpower_opp.
    replace (- - e)%Z with e by lia. reflexivity.
Qed.

(** On a finite double that is not negative, [int] is the floor of the
    exact value. *)
Lemma int_floor (x : float) :
  (0 <=? x) = true -> Py.isfinite x = true ->
  exists v, Py.exact x = Some v /\ (0 <= v)%Q /\ Py.int x = inr (Qfloor v).
Proof.
  rewrite FloatAxioms.leb_spec, P_zero. intros H0 Hf. apply leb_nonneg in H0.
  unfold Py.isfinite, Py.exact, Py.int in *.
  destruct (Prim2SF x) as [s|s| |s m e]; try discriminate.
  - exists 0%Q. split; [reflexivity|]. split; [apply Qle_refl | reflexivity].
  - cbn in H0. subst s. eexists. split; [reflexivity|]. split.
    + cbn [cond_Zopp]. apply Qmult_le_0_compat; [discriminate|].
      apply Qpower_0_le. discriminate.
    + cbn [cond_Zopp]. rewrite shiftl_floor. reflexivity.
Qed.

(** [x <= x] unless [x] is not a number. *)
Lemma leb_refl (x : float) : Py.isfinite x = true -> (x <=? x) = true.
Proof.
  rewrite isfinite_spec, FloatAxioms.leb_spec, SFleb_key. intros Hf.
  destruct (Prim2SF x); try discriminate; repeat split; right; reflexivity.
Qed.

(** The order of the doubles is total away from NaN. *)
Lemma ltb_false_leb (x y : float) :
  Py.isfinite x = true -> Py.isfinite y = true ->
  (y <? x) = false -> (x <=? y) = true.
Proof.
  rewrite !isfinite_spec. intros Hx Hy Hlt.
  rewrite FloatAxioms.leb_spec, SFleb_key.
  assert (Hn : ~ ((y <? x) = true)) by (rewrite Hlt; discriminate).
  rewrite FloatAxioms.ltb_spec, SFltb_key in Hn.
  assert (Hnx : is_nan (Prim2SF x) = false) by (destruct (Prim2SF x); try discriminate; reflexivity).
  assert (Hny : is_nan (Prim2SF y) = false) by (destruct (Prim2SF y); try discriminate; reflexivity).
  repeat split; try assumption.
  destruct (key (Prim2SF x)) as [[a1 a2] a3], (key (Prim2SF y)) as [[b1 b2] b3].
  unfold lex_lt in *.
  destruct (Z.compare_spec a1 b1) as [H1|H1|H1]; [|left; lia|exfalso; apply Hn; repeat split; auto; lia].
  destruct (Z.compare_spec a2 b2) as [H2|H2|H2]; [|left; lia|exfalso; apply Hn; repeat split; auto; lia].
  destruct (Z.compare_spec a3 b3) as [H3|H3|H3]; [|left; lia|exfalso; apply Hn; repeat split; auto; lia].
  right. congruence.
Qed.

(** Equality of doubles is symmetric and keeps to the finite ones. *)
Lemma eqb_sym (x y : float) : (x =? y) = true -> (y =? x) = true.
Proof.
  rewrite !FloatAxioms.eqb_spec, !SFeqb_key. intros (Hx & Hy & Hk).
  repeat split; auto.
Qed.

Lemma eqb_finite (x y : float) :
  (x =? y) = true -> Py.isfinite x = true -> Py.isfinite y = true.
Proof.
  rewrite !isfinite_spec, FloatAxioms.eqb_spec, SFeqb_key. intros (Hx & Hy & Hk) Hf.
  destruct (Prim2SF x) as [sx|sx| |sx mx ex], (Prim2SF y) as [sy|[]| |sy my ey];
    try discriminate; try reflexivity;
    try destruct sx; cbn in Hk; inversion Hk.
Qed.

(** [int] of a zero, of either sign. *)
Lemma int_zero (x : float) (s : bool) : Prim2SF x = S754_zero s -> Py.int x = inr 0%Z.
Proof. unfold Py.int. intros ->. reflexivity. Qed.

(** [max(0.0, x)] is never negative, and never NaN. *)
Lemma max_zero_nonneg (x : float) : (0 <=? Py.max 0 x) = true.
Proof.
  unfold Py.max, Py.gt. destruct (0 <? x) eqn:E; [apply ltb_leb, E | reflexivity].
Qed.

(** ** Signs of differences, quotients and products *)

Local Open Scope Z_scope.

Lemma normalize_nonpos (m e : Z) :
  m <= 0 -> nonpos (binary_normalize prec emax m e false).
Proof.
  intros Hm. destruct m as [|p|p]; cbn [binary_normalize]; [exact I|lia|].
  pose proof (binary_round_sign true p e) as H.
  destruct (binary_round prec emax true p e); cbn; tauto.
Qed.

Lemma aligned_diff_opp (sx : bool) (mx : positive) (ex : Z)
    (sy : bool) (my : positive) (ey : Z) :
  aligned_diff sx mx ex sy my ey = - aligned_diff sy my ey sx mx ex.
Proof. unfold aligned_diff. rewrite (Z.min_comm ey ex). lia. Qed.

(** [x <= y] on valid finite floats gives a difference [x - y] that is not
    positive. *)
Lemma SFsub_nonpos (x y : spec_float) :
  valid_binary x = true -> valid_binary y = true ->
  finite x = true -> finite y = true ->
  SFleb x y = true -> nonpos (SFsub prec emax x y).
Proof.
  intros Hvx Hvy Hfx Hfy Hle.
  destruct x as [sx|sx| |sx mx ex], y as [sy|sy| |sy my ey]; try discriminate.
  - destruct sx, sy; exact I.
  - destruct sy; [discriminate|]. reflexivity.
  - destruct sx; [reflexivity|discriminate].
  - rewrite SFsub_finite. apply normalize_nonpos.
    rewrite aligned_diff_opp.
    pose proof (aligned_diff_nonneg sy my ey sx mx ex Hvy Hvx Hle). lia.
Qed.

Lemma nonpos_not_ltb (x : spec_float) : nonpos x -> SFltb SFzero x = false.
Proof. destruct x as [s|s| |s m e]; cbn; try tauto; intros ->; reflexivity. Qed.

(** The quotient and the product of floats that are not negative are not
    negative, and in particular not NaN, when the divisor is positive and
    finite. *)
Lemma SFdiv_nonneg (x : spec_float) (my : positive) (ey : Z) :
  nonneg x -> nonneg (SFdiv prec emax x (S754_finite false my ey)).
Proof.
  intros Hx. destruct x as [sx|sx| |sx mx ex]; cbn in Hx; try contradiction.
  - exact I.
  - subst sx. reflexivity.
  - subst sx. cbn [SFdiv xorb]. unfold SFdiv_core_binary.
    set (s := ex - ey - _).
    set (m' := match s with Zpos _ => Z.shiftl (Zpos mx) s | Z0 => Zpos mx | Zneg _ => 0 end).
    assert (Hm' : 0 <= m').
    { unfold m'. destruct s as [|p|p]; [lia| |lia].
      rewrite Z.shiftl_mul_pow2 by lia.
      apply Z.mul_nonneg_nonneg; [lia | apply Z.pow_nonneg; lia]. }
    pose proof (Z_div_mod m' (Zpos my) ltac:(lia)) as Hdm.
    destruct (Z.div_eucl m' (Zpos my)) as [q r]. destruct Hdm as [Hdm Hr].
    assert (Hq : 0 <= q) by (destruct (Z_le_gt_dec 0 q); [assumption | exfalso; nia]).
    match goal with
    | |- nonneg (binary_round_aux _ _ _ ?m ?e ?l) =>
        pose proof (round_aux_sign false m e l Hq) as Hsign;
        destruct (binary_round_aux prec emax false m e l); cbn; tauto
    end.
Qed.

Lemma SFmul_nonneg (mx : positive) (ex : Z) (y : spec_float) :
  nonneg y -> nonneg (SFmul prec emax (S754_finite false mx ex) y).
Proof.
  intros Hy. destruct y as [sy|sy| |sy my ey]; cbn in Hy; try contradiction.
  - exact I.
  - subst sy. reflexivity.
  - subst sy. cbn [SFmul xorb].
    match goal with
    | |- nonneg (binary_round_aux _ _ _ ?m ?e ?l) =>
        pose proof (round_aux_sign false m e l ltac:(lia)) as Hsign;
        destruct (binary_round_aux prec emax false m e l); cbn; tauto
    end.
Qed.

Local Open Scope float_scope.

(** The order of the doubles is total away from NaN. *)
Lemma leb_or_ltb (x y : float) :
  (x <=? x) = true -> (y <=? y) = true ->
  (x <=? y) = true \/ (y <? x) = true.
Proof.
  rewrite !FloatAxioms.leb_spec, FloatAxioms.ltb_spec, !SFleb_key, SFltb_key.
  intros (Hx & _ & _) (Hy & _ & _).
  destruct (key (Prim2SF x)) as [[a1 a2] a3], (key (Prim2SF y)) as [[b1 b2] b3].
  unfold lex_lt.
  destruct (Z.compare_spec a1 b1) as [H1|H1|H1];
    [|left; repeat split; auto; left; lia | right; repeat split; auto; lia].
  destruct (Z.compare_spec a2 b2) as [H2|H2|H2];
    [|left; repeat split; auto; left; lia | right; repeat split; auto; lia].
  destruct (Z.compare_spec a3 b3) as [H3|H3|H3];
    [|left; repeat split; auto; left; lia | right; repeat split; auto; lia].
  left. repeat split; auto. right. congruence.
Qed.

(** With a negative timeout nothing is left, whatever the elapsed time of
    a clock not behind the presence time. *)
Lemma remaining_not_positive (T now last : float) :
  (last <=? now) = true -> (T <? 0) = true ->
  (0 <? T - (now - last)) = false.
Proof.
  intros Hclock HT. pose proof (elapsed_class now last Hclock) as He.
  pose proof (P_valid T) as HvT. pose proof (P_valid (now - last)) as Hve.
  destruct (0 <? T - (now - last)) eqn:E; [|reflexivity]. exfalso.
  rewrite FloatAxioms.ltb_spec, P_zero in E.
  rewrite FloatAxioms.ltb_spec, P_zero, SFltb_key in HT. destruct HT as (_ & _ & HT).
  rewrite FloatAxioms.sub_spec in E. unfold SF64sub in E.
  destruct He as [He|[He|[Hfe Hne]]].
  - rewrite He in E. destruct (Prim2SF T); discriminate.
  - rewrite He in E.
    destruct (Prim2SF T) as [s|[]| |[] m e]; cbn in HT, E; try discriminate;
      lia.
  - destruct (Prim2SF T) as [s|[]| |[] m e] eqn:ET; cbn in HT; try lia.
    + destruct (Prim2SF (now - last)) as [s'|s'| |s' m' e']; try discriminate.
    + assert (Hle : SFleb (S754_finite true m e) (Prim2SF (now - last)) = true).
      { destruct (Prim2SF (now - last)) as [s'|s'| |s' m' e'];
          cbn in Hne, Hfe; try discriminate; try contradiction;
          try subst s'; reflexivity. }
      pose proof (SFsub_nonpos _ _ HvT Hve eq_refl Hfe Hle) as Hnp.
      pose proof (nonpos_not_ltb _ Hnp) as Hc. unfold SFzero in Hc.
      rewrite Hc in E. discriminate.
Qed.

(** With a clock not behind the presence time and a timeout that is a number,
    the time left is at most the larger of zero and the timeout. *)
Lemma time_left_le (T now last bound : float) :
  (last <=? now) = true -> (T <=? bound) = true -> (0 <=? bound) = true ->
  let time_left := Py.max 0 (T - (now - last)) in
  (0 <=? time_left) = true /\ (time_left <=? bound) = true.
Proof.
  intros Hclock HT Hb. cbn zeta.
  destruct (leb_or_ltb 0 T eq_refl (leb_refl_l _ _ HT)) as [Hpos|Hneg].
  - destruct (time_left_bounds T now last Hclock Hpos) as [H0 H1].
    split; [exact H0 | exact (leb_trans _ _ _ H1 HT)].
  - unfold Py.max, Py.gt. rewrite (remaining_not_positive T now last Hclock Hneg).
    split; [reflexivity | exact Hb].
Qed.

(** [max(0.0, x)] and [x] have the same integer part when [x] is not
    negative. *)
Lemma int_max_zero (x : float) : (0 <=? x) = true -> Py.int (Py.max 0 x) = Py.int x.
Proof.
  intros Hx. unfold Py.max, Py.gt. destruct (0 <? x) eqn:E; [reflexivity|].
  assert (Hn : ~ (0 <? x) = true) by (rewrite E; discriminate).
  rewrite FloatAxioms.ltb_spec, P_zero, SFltb_key in Hn.
  rewrite FloatAxioms.leb_spec, P_zero, SFleb_key in Hx.
  destruct Hx as (H0 & Hnx & [Hlt|Heq]); [exfalso; apply Hn; auto|].
  unfold Py.int. change (Prim2SF 0) with (S754_zero false).
  destruct (Prim2SF x) as [s|[]| |[] m e]; cbn in Heq, Hnx;
    try discriminate; reflexivity.
Qed.

(** The bar arithmetic on a time left that is not negative never meets NaN. *)
Lemma fill_not_nan (tl : float) :
  (0 <=? tl) = true ->
  nonneg (Prim2SF tl) /\ nonneg (Prim2SF (30 * (tl / 300))).
Proof.
  intros H0. rewrite FloatAxioms.leb_spec, P_zero in H0. apply leb_nonneg in H0.
  split; [exact H0|].
  rewrite FloatAxioms.mul_spec, FloatAxioms.div_spec, P_30, P_300.
  unfold SF64mul, SF64div.
  apply SFmul_nonneg, SFdiv_nonneg, H0.
Qed.

Lemma int_nonneg_not_value_error (x : float) :
  nonneg (Prim2SF x) -> Py.int x <> inl Py.ValueError.
Proof.
  unfold Py.int. destruct (Prim2SF x); cbn; try contradiction; discriminate.
Qed.

(** A double between zero and a finite bound is finite. *)
Lemma bounded_finite (x b : float) :
  (0 <=? x) = true -> (x <=? b) = true -> Py.isfinite b = true ->
  Py.isfinite x = true.
Proof.
  rewrite !isfinite_spec, !FloatAxioms.leb_spec, P_zero. intros H0 Hle Hb.
  apply leb_nonneg in H0. rewrite SFleb_key in Hle. destruct Hle as (_ & _ & Hk).
  destruct (Prim2SF x) as [s|s| |s m e]; cbn in H0; try contradiction;
    try reflexivity.
  subst s. exfalso.
  destruct (Prim2SF b) as [s'|s'| |[] m' e']; try discriminate;
    cbn in Hk; destruct Hk as [Hk|Hk]; try lia; inversion Hk.
Qed.

(** ** Rounding never crosses a representable lower bound *)

Local Open Scope Z_scope.

(** Truncating a mantissa to the precision of the format does not take it
    below a number [g * 2 ^ eg] of at most 53 digits. *)
Lemma shr_fexp_lower (m e : Z) (l : location) (g eg : Z) :
  0 <= m -> -4000 <= e -> 0 < g < 2 ^ 53 -> -1074 <= eg ->
  g * W eg <= m * W e ->
  g * W eg <= shr_m (fst (shr_fexp prec emax m e l)) * W (snd (shr_fexp prec emax m e l))
  /\ -4000 <= snd (shr_fexp prec emax m e l).
Proof.
  intros Hm He Hg Heg Hle.
  pose proof (shr_fexp_spec m e l Hm) as H. cbn zeta in H.
  destruct H as [_ [(Hn & -> & ->)|(Hn & -> & Hdiv & _)]].
  - rewrite shr_m_of_loc. split; [exact Hle | exact He].
  - rewrite Hdiv. set (n := fexp prec emax (Zdigits2 m + e) - e) in *.
    split; [|lia].
    pose proof (W_pos e He) as HWe. pose proof (W_pos eg ltac:(lia)) as HWg.
    assert (Hpn : 0 < 2 ^ n) by (apply Z.pow_pos_nonneg; lia).
    assert (Hmp : 0 < m).
    { destruct (Z.eq_dec m 0) as [->|]; [|lia].
      assert (0 < g * W eg) by (apply Z.mul_pos_pos; lia). lia. }
    pose proof (Zdigits2_bounds m Hmp) as [Hlo _].
    assert (Hd1 : 1 <= Zdigits2 m) by (destruct m; cbn in *; lia).
    destruct (Z_le_gt_dec (e + n) eg) as [Hgrid|Hcoarse].
    + (* the bound is on the grid of the result *)
      replace eg with ((e + n) + (eg - (e + n))) in Hle |- * by lia.
      rewrite W_add in Hle |- * by lia.
      set (c := 2 ^ (eg - (e + n))) in *.
      rewrite (W_add e n) in Hle |- * by lia.
      replace (g * (W e * 2 ^ n * c)) with ((g * c) * (W e * 2 ^ n)) by ring.
      apply Z.mul_le_mono_nonneg_r; [lia|].
      apply Z.div_le_lower_bound; [exact Hpn|].
      apply (Z.mul_le_mono_pos_r _ _ (W e) HWe).
      replace (2 ^ n * (g * c) * W e) with (g * (W e * 2 ^ n * c)) by ring.
      exact Hle.
    + (* the result has 53 digits, more than the bound *)
      assert (Hn53 : n = Zdigits2 m - 53) by (unfold n in *; rewrite fexp_eq in *; lia).
      assert (Hq : 2 ^ 52 <= m / 2 ^ n).
      { apply Z.div_le_lower_bound; [exact Hpn|].
        rewrite <- Z.pow_add_r by lia.
        replace (n + 52) with (Zdigits2 m - 1) by lia. exact Hlo. }
      apply Z.le_trans with (2 ^ 53 * W eg).
      { apply Z.mul_le_mono_nonneg_r; lia. }
      rewrite pow_W by lia.
      apply Z.le_trans with (2 ^ 52 * W (e + n)).
      { rewrite pow_W by lia. apply W_le_mono; lia. }
      apply Z.mul_le_mono_nonneg_r; [pose proof (W_pos (e + n) ltac:(lia)); lia | exact Hq].
Qed.

Lemma round_aux_lower (m e : Z) (l : location) (g eg : Z) :
  0 <= m -> -4000 <= e -> 0 < g < 2 ^ 53 -> -1074 <= eg ->
  g * W eg <= m * W e ->
  match binary_round_aux prec emax false m e l with
  | S754_finite s m2 e2 => s = false /\ g * W eg <= Zpos m2 * W e2
  | S754_infinity s => s = false
  | _ => False
  end.
Proof.
  intros Hm He Hg Heg Hle.
  unfold binary_round_aux.
  pose proof (shr_fexp_lower m e l g eg Hm He Hg Heg Hle) as [K1 He1].
  pose proof (shr_fexp_spec m e l Hm) as [Hm1 _].
  destruct (shr_fexp prec emax m e l) as [mrs1 e1]. cbn [fst snd] in *.
  pose proof (round_bounds mrs1) as Hr. cbn zeta in Hr.
  set (r := round_nearest_even (shr_m mrs1) (loc_of_shr_record mrs1)) in *.
  destruct Hr as [[Hrlo _] _].
  assert (Hr0 : 0 <= r) by lia.
  pose proof (W_pos e1 He1) as HWe1.
  assert (K1' : g * W eg <= r * W e1).
  { apply Z.le_trans with (shr_m mrs1 * W e1); [exact K1|].
    apply Z.mul_le_mono_nonneg_r; lia. }
  pose proof (shr_fexp_lower r e1 loc_Exact g eg Hr0 He1 Hg Heg K1') as [K2 He2].
  pose proof (shr_fexp_spec r e1 loc_Exact Hr0) as [Hm2 _].
  destruct (shr_fexp prec emax r e1 loc_Exact) as [mrs2 e2]. cbn [fst snd] in *.
  pose proof (W_pos eg ltac:(lia)) as HWg.
  assert (Hpos : 0 < g * W eg) by (apply Z.mul_pos_pos; lia).
  destruct (shr_m mrs2) as [|p|p]; [lia| |lia].
  destruct (e2 <=? emax - prec); [split; [reflexivity | exact K2] | reflexivity].
Qed.

(** A quotient [x / y] of positive valid floats with [x >= G * y] rounds to
    at least [G], a number [g * 2 ^ eg] of at most 53 digits. *)
Lemma SFdiv_lower (mx my : positive) (ex ey : Z) (g eg : Z) :
  valid_binary (S754_finite false mx ex) = true ->
  valid_binary (S754_finite false my ey) = true ->
  0 < g < 2 ^ 53 -> -1074 <= eg ->
  g * W eg * (Zpos my * W ey) <= Zpos mx * W ex * W 0 ->
  match SFdiv prec emax (S754_finite false mx ex) (S754_finite false my ey) with
  | S754_finite s m2 e2 => s = false /\ g * W eg <= Zpos m2 * W e2
  | S754_infinity s => s = false
  | _ => False
  end.
Proof.
  intros Hvx Hvy Hg Heg Hle.
  pose proof (valid_bounds _ _ _ Hvx) as (Hex & Hmx & _).
  pose proof (valid_bounds _ _ _ Hvy) as (Hey & Hmy & _).
  cbn [SFdiv xorb]. unfold SFdiv_core_binary.
  set (d1 := Zdigits2 (Zpos mx)). set (d2 := Zdigits2 (Zpos my)).
  set (e' := Z.min (fexp prec emax (d1 + ex - (d2 + ey))) (ex - ey)).
  set (s := ex - ey - e').
  assert (Hs : 0 <= s) by (unfold s, e'; lia).
  set (m' := match s with Zpos _ => Z.shiftl (Zpos mx) s | Z0 => Zpos mx | Zneg _ => 0 end).
  assert (Hm' : m' = Zpos mx * 2 ^ s).
  { unfold m'. destruct s as [|p|p]; [cbn; lia | apply Z.shiftl_mul_pow2; lia | lia]. }
  pose proof (Z_div_mod m' (Zpos my) ltac:(lia)) as Hdm.
  assert (Hq : fst (Z.div_eucl m' (Zpos my)) = m' / Zpos my) by reflexivity.
  destruct (Z.div_eucl m' (Zpos my)) as [q r]. destruct Hdm as [Hdm Hr].
  cbn [fst] in Hq.
  pose proof (digits2_pos_bounds mx) as [Hlox _].
  pose proof (digits2_pos_bounds my) as [_ Hhiy].
  fold (Zdigits2 (Zpos mx)) in Hlox. fold d1 in Hlox.
  fold (Zdigits2 (Zpos my)) in Hhiy. fold d2 in Hhiy.
  assert (Hd1 : 1 <= d1) by (unfold d1; cbn; lia).
  assert (Hd2 : 1 <= d2) by (unfold d2; cbn; lia).
  assert (He'lo : -2100 <= e') by (unfold e'; rewrite fexp_eq; lia).
  assert (He'hi : e' <= ex - ey) by (unfold e'; lia).
  pose proof (W_pos ex ltac:(lia)) as HWx. pose proof (W_pos ey ltac:(lia)) as HWy.
  pose proof (W_pos e' ltac:(lia)) as HWe'. pose proof (W_pos eg ltac:(lia)) as HWg.
  pose proof (W_pos 0 ltac:(lia)) as HW0.
  assert (Hps : 0 < 2 ^ s) by (apply Z.pow_pos_nonneg; lia).
  assert (Hm'0 : 0 <= m') by (rewrite Hm'; lia).
  assert (Hq0 : 0 <= q) by (rewrite Hq; apply Z.div_pos; lia).
  apply round_aux_lower; [exact Hq0 | lia | exact Hg | exact Heg |].
  (* the bound against the scaled numerator *)
  assert (Hnum : g * W eg * Zpos my <= m' * W e').
  { apply (Z.mul_le_mono_pos_r _ _ (W ey) HWy).
    replace (g * W eg * Zpos my * W ey) with (g * W eg * (Zpos my * W ey)) by ring.
    apply Z.le_trans with (Zpos mx * W ex * W 0); [exact Hle|].
    replace ex with ((e' + ey) + s) at 1 by (unfold s; lia).
    rewrite W_add by lia. rewrite Hm'.
    replace (Zpos mx * (W (e' + ey) * 2 ^ s) * W 0)
      with (Zpos mx * 2 ^ s * (W (e' + ey) * W 0)) by ring.
    rewrite W_mul by lia. lia. }
  destruct (Z_le_gt_dec e' eg) as [Hgrid|Hcoarse].
  - replace eg with (e' + (eg - e')) in Hnum |- * by lia.
    rewrite W_add in Hnum |- * by lia.
    set (c := 2 ^ (eg - e')) in *.
    replace (g * (W e' * c)) with ((g * c) * W e') by ring.
    apply Z.mul_le_mono_nonneg_r; [lia|].
    rewrite Hq. apply Z.div_le_lower_bound; [lia|].
    apply (Z.mul_le_mono_pos_r _ _ (W e') HWe').
    replace (Zpos my * (g * c) * W e') with (g * (W e' * c) * Zpos my) by ring.
    exact Hnum.
  - assert (He'53 : e' <= d1 + ex - (d2 + ey) - 53)
      by (unfold e' in *; rewrite fexp_eq in *; lia).
    assert (Hbig : 2 ^ 52 <= q).
    { rewrite Hq. apply Z.div_le_lower_bound; [lia|].
      apply Z.le_trans with (2 ^ d2 * 2 ^ 52); [apply Z.mul_le_mono_nonneg_r; lia|].
      rewrite <- Z.pow_add_r by lia. rewrite Hm'.
      apply Z.le_trans with (2 ^ (d1 - 1) * 2 ^ s);
        [|apply Z.mul_le_mono_nonneg_r; lia].
      rewrite <- Z.pow_add_r by lia.
      apply Z.pow_le_mono_r; unfold s; lia. }
    apply Z.le_trans with (2 ^ 53 * W eg).
    { apply Z.mul_le_mono_nonneg_r; lia. }
    rewrite pow_W by lia.
    apply Z.le_trans with (2 ^ 52 * W e').
    { rewrite pow_W by lia. apply W_le_mono; lia. }
    apply Z.mul_le_mono_nonneg_r; lia.
Qed.

(** A product of positive valid floats rounds to at least any [g * 2 ^ eg]
    of at most 53 digits below it. *)
Lemma SFmul_lower (mx my : positive) (ex ey : Z) (g eg : Z) :
  valid_binary (S754_finite false mx ex) = true ->
  valid_binary (S754_finite false my ey) = true ->
  0 < g < 2 ^ 53 -> -1074 <= eg ->
  g * W eg * W 0 <= (Zpos mx * W ex) * (Zpos my * W ey) ->
  match SFmul prec emax (S754_finite false mx ex) (S754_finite false my ey) with
  | S754_finite s m2 e2 => s = false /\ g * W eg <= Zpos m2 * W e2
  | S754_infinity s => s = false
  | _ => False
  end.
Proof.
  intros Hvx Hvy Hg Heg Hle.
  pose proof (valid_bounds _ _ _ Hvx) as (Hex & Hmx & _).
  pose proof (valid_bounds _ _ _ Hvy) as (Hey & Hmy & _).
  cbn [SFmul xorb].
  apply round_aux_lower; [lia | lia | exact Hg | exact Heg |].
  pose proof (W_pos 0 ltac:(lia)) as HW0.
  apply (Z.mul_le_mono_pos_r _ _ (W 0) HW0).
  rewrite Pos2Z.inj_mul.
  replace (Zpos mx * Zpos my * W (ex + ey) * W 0)
    with (Zpos mx * Zpos my * (W (ex + ey) * W 0)) by ring.
  rewrite W_mul by lia.
  replace (Zpos mx * Zpos my * (W ex * W ey))
    with ((Zpos mx * W ex) * (Zpos my * W ey)) by ring.
  exact Hle.
Qed.

(** Integer part of a positive float above an integer bound. *)
Lemma shiftl_lower (m : positive) (e N : Z) :
  -4000 <= e -> N * W 0 <= Zpos m * W e -> N <= Z.shiftl (Zpos m) e.
Proof.
  intros He Hle. pose proof (W_pos 0 ltac:(lia)) as HW0.
  destruct (Z_le_gt_dec 0 e) as [Hpos|Hneg].
  - rewrite Z.shiftl_mul_pow2 by lia.
    replace e with (0 + e) in Hle by lia. rewrite W_add in Hle by lia.
    apply (Z.mul_le_mono_pos_r _ _ (W 0) HW0).
    replace (Zpos m * 2 ^ e * W 0) with (Zpos m * (W 0 * 2 ^ e)) by ring.
    exact Hle.
  - rewrite Z.shiftl_div_pow2 by lia.
    assert (Hp : 0 < 2 ^ (- e)) by (apply Z.pow_pos_nonneg; lia).
    apply Z.div_le_lower_bound; [exact Hp|].
    pose proof (W_pos e He) as HWe.
    apply (Z.mul_le_mono_pos_r _ _ (W e) HWe).
    replace (2 ^ (- e) * N * W e) with (N * (W e * 2 ^ (- e))) by ring.
    rewrite <- W_add by lia. replace (e + - e) with 0 by lia. exact Hle.
Qed.

Local Open Scope float_scope.

Lemma P_320 : Prim2SF 320 = S754_finite false 5629499534213120 (-44).
Proof. reflexivity. Qed.

Lemma val_320 : (Zpos 5629499534213120 * W (-44) = 320 * W 0)%Z.
Proof.
  change (Zpos 5629499534213120) with (320 * 2 ^ 44)%Z.
  replace (320 * 2 ^ 44 * W (-44))%Z with (320 * (2 ^ 44 * W (-44)))%Z by ring.
  rewrite pow_W by lia. reflexivity.
Qed.

Lemma val_300 : (Zpos 5277655813324800 * W (-44) = 300 * W 0)%Z.
Proof.
  change (Zpos 5277655813324800) with (300 * 2 ^ 44)%Z.
  replace (300 * 2 ^ 44 * W (-44))%Z with (300 * (2 ^ 44 * W (-44)))%Z by ring.
  rewrite pow_W by lia. reflexivity.
Qed.

(** From 320 seconds on, the number of full blocks,
    [int(30 * (tl / 300.0))], is above 30 whenever [int] returns; it raises
    [OverflowError] on an infinite time left. *)
Lemma fill_lower (tl : float) :
  (320 <=? tl) = true ->
  match Py.int (30 * (tl / 300)) with
  | inr n => (31 <= n)%Z
  | inl err => err = Py.OverflowError
  end.
Proof.
  intros H320. pose proof (P_valid tl) as Hv.
  pose proof (P_valid (tl / 300)) as Hvp.
  pose proof (P_valid (30 * (tl / 300))) as Hvq.
  rewrite FloatAxioms.leb_spec, P_320, SFleb_key in H320.
  destruct H320 as (_ & Hn & Hk).
  unfold Py.int.
  rewrite FloatAxioms.mul_spec, FloatAxioms.div_spec, P_30, P_300 in *.
  unfold SF64mul, SF64div in *.
  pose proof (W_pos 0 ltac:(lia)) as HW0.
  assert (H16 : (W 0 = 16 * W (-4))%Z)
    by (change 16%Z with (2 ^ 4)%Z; rewrite pow_W by lia; reflexivity).
  destruct (Prim2SF tl) as [s|[]| |[] m e]; try discriminate;
    try (cbn in Hk; destruct Hk as [Hk|Hk]; [lia | inversion Hk]; fail).
  - reflexivity.
  - assert (Hle : (320 * W 0 <= Zpos m * W e)%Z).
    { rewrite <- val_320. apply key_le_val; [reflexivity | exact Hv|].
      cbn in Hk. destruct Hk as [Hk|Hk]; [lia | inversion Hk; lia]. }
    pose proof (SFdiv_lower m 5277655813324800 e (-44) 17 (-4) Hv eq_refl
                  ltac:(lia) ltac:(lia)) as Hd.
    rewrite val_300 in Hd.
    assert (Hd' : (17 * W (-4) * (300 * W 0) <= Zpos m * W e * W 0)%Z).
    { apply Z.le_trans with (320 * W 0 * W 0)%Z;
        [|apply Z.mul_le_mono_nonneg_r; lia].
      rewrite H16. pose proof (W_pos (-4) ltac:(lia)). nia. }
    specialize (Hd Hd').
    destruct (SFdiv prec emax (S754_finite false m e)
                (S754_finite false 5277655813324800 (-44))) as [sp|sp| |sp mp ep];
      try contradiction.
    + subst sp. reflexivity.
    + destruct Hd as [-> Hd].
      pose proof (SFmul_lower 8444249301319680 mp (-48) ep 31 0 eq_refl Hvp
                    ltac:(lia) ltac:(lia)) as Hm.
      rewrite val_30 in Hm.
      assert (Hm' : (31 * W 0 * W 0 <= 30 * W 0 * (Zpos mp * W ep))%Z).
      { apply Z.le_trans with (30 * W 0 * (17 * W (-4)))%Z;
          [|apply Z.mul_le_mono_nonneg_l; lia].
        rewrite H16. pose proof (W_pos (-4) ltac:(lia)). nia. }
      specialize (Hm Hm').
      destruct (SFmul prec emax (S754_finite false 8444249301319680 (-48))
                  (S754_finite false mp ep)) as [sq|sq| |sq mq eq];
        try contradiction.
      * subst sq. reflexivity.
      * destruct Hm as [-> Hm]. cbn [cond_Zopp].
        pose proof (valid_bounds _ _ _ Hvq) as (Heq & _).
        apply shiftl_lower; [lia | exact Hm].
Qed.

(** A positive timeout and a finite clock reading: at the reading of the
    grant the whole timeout is left. *)
Lemma ltb_leb_trans (x y z : float) :
  (x <? y) = true -> (y <=? z) = true -> (x <? z) = true.
Proof.
  rewrite !FloatAxioms.ltb_spec, FloatAxioms.leb_spec, !SFltb_key, SFleb_key.
  intros (Hx & Hy & Hxy) (_ & Hz & Hyz). repeat split; try assumption.
  destruct (key (Prim2SF x)) as [[a1 a2] a3], (key (Prim2SF y)) as [[b1 b2] b3],
    (key (Prim2SF z)) as [[c1 c2] c3].
  unfold lex_lt in *.
  destruct Hyz as [Hyz|Hyz]; [|inversion Hyz; subst; assumption]. lia.
Qed.

Lemma time_left_at_grant (T now : float) :
  (0 <? T) = true -> Py.isfinite now = true ->
  Py.max 0 (T - (now - now)) = T.
Proof.
  intros HT Hnow. rewrite isfinite_spec in Hnow.
  rewrite (sub_self now Hnow), sub_zero_r.
  unfold Py.max, Py.gt. rewrite HT. reflexivity.
Qed.

(** ** Quotients and products below a bound *)

Local Open Scope Z_scope.

(** A quotient [x / y] of positive valid floats with [x <= 2 ^ k * y] rounds
    to at most [2 ^ k], the float of mantissa [2 ^ 52] and exponent
    [k - 52]. *)
Lemma SFdiv_upper_pow (mx my : positive) (ex ey eF : Z) :
  valid_binary (S754_finite false mx ex) = true ->
  valid_binary (S754_finite false my ey) = true ->
  valid_binary (S754_finite false 4503599627370496 eF) = true ->
  Zpos mx * W ex * W 0 <= W (eF + 52) * (Zpos my * W ey) ->
  match SFdiv prec emax (S754_finite false mx ex) (S754_finite false my ey) with
  | S754_zero s => s = false
  | S754_finite s m2 e2 =>
      s = false /\ Zpos m2 * W e2 <= Zpos 4503599627370496 * W eF
  | _ => False
  end.
Proof.
  intros Hvx Hvy HvF Hle.
  pose proof (valid_bounds _ _ _ Hvx) as (Hex & Hmx & _).
  pose proof (valid_bounds _ _ _ Hvy) as (Hey & Hmy & _).
  pose proof (valid_bounds _ _ _ HvF) as (HeF & _ & _).
  cbn [SFdiv xorb]. unfold SFdiv_core_binary.
  set (d1 := Zdigits2 (Zpos mx)). set (d2 := Zdigits2 (Zpos my)).
  set (e' := Z.min (fexp prec emax (d1 + ex - (d2 + ey))) (ex - ey)).
  set (s := ex - ey - e').
  assert (Hs : 0 <= s) by (unfold s, e'; lia).
  set (m' := match s with Zpos _ => Z.shiftl (Zpos mx) s | Z0 => Zpos mx | Zneg _ => 0 end).
  assert (Hm' : m' = Zpos mx * 2 ^ s).
  { unfold m'. destruct s as [|p|p]; [cbn; lia | apply Z.shiftl_mul_pow2; lia | lia]. }
  pose proof (Z_div_mod m' (Zpos my) ltac:(lia)) as Hdm.
  destruct (Z.div_eucl m' (Zpos my)) as [q r]. destruct Hdm as [Hdm Hr].
  pose proof (digits2_pos_bounds mx) as [Hlox _].
  pose proof (digits2_pos_bounds my) as [_ Hhiy].
  fold (Zdigits2 (Zpos mx)) in Hlox. fold d1 in Hlox.
  fold (Zdigits2 (Zpos my)) in Hhiy. fold d2 in Hhiy.
  assert (Hd1 : 1 <= d1) by (unfold d1; cbn; lia).
  assert (Hd2 : 1 <= d2) by (unfold d2; cbn; lia).
  pose proof (W_pos ex ltac:(lia)) as HWx. pose proof (W_pos ey ltac:(lia)) as HWy.
  pose proof (W_pos 0 ltac:(lia)) as HW0.
  pose proof (W_pos (eF + 52) ltac:(lia)) as HWk.
  (* the magnitude of the quotient *)
  assert (Hmag : d1 + ex - (d2 + ey) <= eF + 52).
  { assert (H1 : 2 ^ (d1 - 1) * W ex <= Zpos mx * W ex)
      by (apply Z.mul_le_mono_nonneg_r; lia).
    assert (H2 : Zpos my * W ey < 2 ^ d2 * W ey)
      by (apply Z.mul_lt_mono_pos_r; lia).
    rewrite !pow_W in * by lia.
    assert (H3 : W (ex + (d1 - 1)) * W 0 < W (eF + 52) * W (ey + d2)).
    { apply Z.le_lt_trans with (Zpos mx * W ex * W 0).
      - apply Z.mul_le_mono_nonneg_r; lia.
      - apply Z.le_lt_trans with (W (eF + 52) * (Zpos my * W ey)); [exact Hle|].
        apply Z.mul_lt_mono_pos_l; lia. }
    rewrite <- (W_mul (eF + 52) (ey + d2)) in H3 by lia.
    apply Z.mul_lt_mono_pos_r in H3; [|exact HW0].
    apply W_lt_exp in H3; lia. }
  assert (He'F : e' <= eF) by (unfold e'; rewrite fexp_eq; lia).
  assert (He'lo : -2100 <= e') by (unfold e'; rewrite fexp_eq; lia).
  assert (Hq : 0 <= q).
  { assert (0 <= m') by (rewrite Hm'; apply Z.mul_nonneg_nonneg; [lia|apply Z.pow_nonneg; lia]).
    destruct (Z_le_gt_dec 0 q); [assumption|]. exfalso. nia. }
  apply (round_aux_upper q e' _ 4503599627370496 eF); [exact Hq | lia | exact HvF |].
  rewrite new_location_delta.
  change (Zpos 4503599627370496) with (2 ^ 52). rewrite pow_W by lia.
  pose proof (W_pos e' ltac:(lia)) as HWe'.
  pose proof (W_pos (e' + ey) ltac:(lia)) as HWee.
  assert (Hscale : m' * W (e' + ey) * W 0 <= W (eF + 52) * (Zpos my * W ey)).
  { rewrite Hm'. replace (Zpos mx * 2 ^ s * W (e' + ey))
      with (Zpos mx * (W (e' + ey) * 2 ^ s)) by ring.
    rewrite <- W_add by lia. replace (e' + ey + s) with ex by (unfold s; lia).
    exact Hle. }
  assert (Hmul : W (e' + ey) * W 0 = W e' * W ey) by (apply W_mul; lia).
  assert (Hcancel : forall a, Zpos my * a * W e' * W ey <= W (eF + 52) * (Zpos my * W ey) ->
                              a * W e' <= W (eF + 52)).
  { intros a Ha. apply (Z.mul_le_mono_pos_r _ _ (Zpos my * W ey)); [lia|].
    replace (a * W e' * (Zpos my * W ey)) with (Zpos my * a * W e' * W ey) by ring.
    exact Ha. }
  destruct (Z.eqb_spec r 0) as [Hr0|Hr0].
  - rewrite Z.add_0_r. apply Hcancel.
    replace (Zpos my * q) with m' by lia.
    replace (m' * W e' * W ey) with (m' * (W e' * W ey)) by ring.
    rewrite <- Hmul.
    replace (m' * (W (e' + ey) * W 0)) with (m' * W (e' + ey) * W 0) by ring.
    exact Hscale.
  - change (W (eF + 52)) with (W (eF + 52)).
    replace (W (eF + 52)) with (2 ^ 52 * W eF) by (rewrite pow_W by lia; reflexivity).
    apply grid_step; [lia | exact He'F |].
    rewrite pow_W by lia.
    assert (Hlt : Zpos my * q * W e' * W ey < W (eF + 52) * (Zpos my * W ey)).
    { apply Z.lt_le_trans with (m' * W (e' + ey) * W 0); [|exact Hscale].
      replace (m' * W (e' + ey) * W 0) with (m' * (W (e' + ey) * W 0)) by ring.
      rewrite Hmul.
      replace (Zpos my * q * W e' * W ey) with (Zpos my * q * (W e' * W ey)) by ring.
      apply Z.mul_lt_mono_pos_r; [apply Z.mul_pos_pos; lia | lia]. }
    apply (Z.mul_lt_mono_pos_r (Zpos my * W ey)); [lia|].
    replace (q * W e' * (Zpos my * W ey)) with (Zpos my * q * W e' * W ey) by ring.
    exact Hlt.
Qed.

(** A product of positive valid floats below a valid float rounds to at
    most that float. *)
Lemma SFmul_upper_gen (mx my mF : positive) (ex ey eF : Z) :
  valid_binary (S754_finite false mx ex) = true ->
  valid_binary (S754_finite false my ey) = true ->
  valid_binary (S754_finite false mF eF) = true ->
  ex + ey <= 971 ->
  (Zpos mx * W ex) * (Zpos my * W ey) <= (Zpos mF * W eF) * W 0 ->
  match SFmul prec emax (S754_finite false mx ex) (S754_finite false my ey) with
  | S754_zero s => s = false
  | S754_finite s m2 e2 => s = false /\ Zpos m2 * W e2 <= Zpos mF * W eF
  | _ => False
  end.
Proof.
  intros Hvx Hvy HvF Hsum Hle.
  pose proof (valid_bounds _ _ _ Hvx) as (Hex & Hmx & _).
  pose proof (valid_bounds _ _ _ Hvy) as (Hey & Hmy & _).
  cbn [SFmul xorb].
  apply round_aux_upper; [lia | lia | exact HvF |].
  cbn [delta]. rewrite Z.add_0_r.
  pose proof (W_pos 0 ltac:(lia)) as HW0.
  apply (Z.mul_le_mono_pos_r _ _ (W 0) HW0).
  rewrite Pos2Z.inj_mul.
  replace (Zpos mx * Zpos my * W (ex + ey) * W 0)
    with (Zpos mx * Zpos my * (W (ex + ey) * W 0)) by ring.
  rewrite W_mul by lia.
  replace (Zpos mx * Zpos my * (W ex * W ey))
    with ((Zpos mx * W ex) * (Zpos my * W ey)) by ring.
  exact Hle.
Qed.

Local Open Scope float_scope.

Lemma P_2400 : Prim2SF 2400 = S754_finite false 5277655813324800 (-41).
Proof. reflexivity. Qed.

Lemma P_240 : Prim2SF 240 = S754_finite false 8444249301319680 (-45).
Proof. reflexivity. Qed.

Lemma val_240 : (Zpos 8444249301319680 * W (-45) = 240 * W 0)%Z.
Proof.
  change (Zpos 8444249301319680) with (240 * 2 ^ 45)%Z.
  replace (240 * 2 ^ 45 * W (-45))%Z with (240 * (2 ^ 45 * W (-45)))%Z by ring.
  rewrite pow_W by lia. reflexivity.
Qed.

Lemma val_2400 : (Zpos 5277655813324800 * W (-41) = 2400 * W 0)%Z.
Proof.
  change (Zpos 5277655813324800) with (300 * 2 ^ 44)%Z.
  replace (300 * 2 ^ 44 * W (-41))%Z with (300 * (2 ^ 44 * W (-41)))%Z by ring.
  rewrite pow_W by lia. change (-41 + 44)%Z with (0 + 3)%Z.
  rewrite W_add by lia. ring.
Qed.

(** Up to 2400 seconds the number of full blocks is at most 240: [int]
    returns and the bar can be built. *)
Lemma fill_upper (tl : float) :
  (0 <=? tl) = true -> (tl <=? 2400) = true ->
  exists n, Py.int (30 * (tl / 300)) = inr n /\ (0 <= n <= 240)%Z.
Proof.
  intros H0 Hhi. rewrite FloatAxioms.leb_spec, P_zero in H0. apply leb_nonneg in H0.
  rewrite FloatAxioms.leb_spec, P_2400, SFleb_key in Hhi. destruct Hhi as (_ & _ & Hk).
  pose proof (P_valid tl) as Hv.
  pose proof (P_valid (tl / 300)) as Hvp.
  pose proof (P_valid (30 * (tl / 300))) as Hvq.
  unfold Py.int.
  rewrite FloatAxioms.mul_spec, FloatAxioms.div_spec, P_30, P_300 in *.
  unfold SF64mul, SF64div in *.
  pose proof (W_pos 0 ltac:(lia)) as HW0.
  assert (H8 : (W (-49 + 52) = 8 * W 0)%Z).
  { change (-49 + 52)%Z with (0 + 3)%Z. rewrite W_add by lia. ring. }
  destruct (Prim2SF tl) as [s|s| |s m e]; cbn in H0; try contradiction.
  - exists 0%Z. split; [reflexivity | lia].
  - subst s. exfalso. cbn in Hk. destruct Hk as [Hk|Hk]; [lia | inversion Hk].
  - subst s.
    assert (Hle : (Zpos m * W e <= 2400 * W 0)%Z).
    { rewrite <- val_2400. apply key_le_val; [exact Hv | reflexivity|].
      cbn in Hk. destruct Hk as [Hk|Hk]; [lia | inversion Hk; lia]. }
    pose proof (SFdiv_upper_pow m 5277655813324800 e (-44) (-49) Hv eq_refl eq_refl) as Hd.
    rewrite val_300, H8 in Hd.
    assert (Hd' : (Zpos m * W e * W 0 <= 8 * W 0 * (300 * W 0))%Z) by nia.
    specialize (Hd Hd').
    destruct (SFdiv prec emax (S754_finite false m e)
                (S754_finite false 5277655813324800 (-44))) as [sp|sp| |sp mp ep];
      try contradiction.
    + exists 0%Z. split; [reflexivity | lia].
    + destruct Hd as [-> Hd].
      change (Zpos 4503599627370496) with (2 ^ 52)%Z in Hd.
      rewrite pow_W, H8 in Hd by lia.
      pose proof (valid_bounds _ _ _ Hvp) as (Hep & _).
      pose proof (SFmul_upper_gen 8444249301319680 mp 8444249301319680 (-48) ep (-45)
                    eq_refl Hvp eq_refl ltac:(lia)) as Hm.
      rewrite val_30, val_240 in Hm.
      assert (Hm' : (30 * W 0 * (Zpos mp * W ep) <= 240 * W 0 * W 0)%Z) by nia.
      specialize (Hm Hm').
      destruct (SFmul prec emax (S754_finite false 8444249301319680 (-48))
                  (S754_finite false mp ep)) as [sq|sq| |sq mq eq];
        try contradiction.
      * exists 0%Z. split; [reflexivity | lia].
      * destruct Hm as [-> Hm]. cbn [cond_Zopp].
        pose proof (valid_bounds _ _ _ Hvq) as (Heq & _).
        eexists. split; [reflexivity|].
        apply shiftl_bound; [lia | lia | exact Hm].
Qed.

End F64Facts.

(** * Facts about the built-ins *)

Import F64Facts.

Lemma contains_true {V} (d : gmap string V) (k : string) :
  Py.contains d k = true <-> is_Some (d !! k).
Proof. unfold Py.contains. apply bool_decide_eq_true. Qed.

Lemma list_contains_true (l : list string) (x : string) :
  Py.list_contains l x = true <-> x ∈ l.
Proof. unfold Py.list_contains. apply bool_decide_eq_true. Qed.

Lemma valid_intents_spec (x : string) :
  x ∈ valid_intents
  <-> x = "start maintenance" \/ x = "admin override" \/ x = "system check".
Proof.
  unfold valid_intents. rewrite !elem_of_cons, elem_of_nil. tauto.
Qed.

(** ** Stripping and lower-casing *)

Lemma append_cons (c : ascii) (l s : string) : String c l +:+ s = String c (l +:+ s).
Proof. reflexivity. Qed.

Lemma append_nil (s : string) : "" +:+ s = s.
Proof. reflexivity. Qed.

Lemma append_nil_r (s : string) : s +:+ "" = s.
Proof.
  induction s as [|c s IH]; [reflexivity|]. rewrite append_cons, IH. reflexivity.
Qed.

Lemma lstrip_only_space (r : string) : all_space r = true -> Py.lstrip r = "".
Proof.
  induction r as [|c r IH]; cbn -[Py.isspace Py.lower_char]; [reflexivity|].
  intros H. apply andb_prop in H as [Hc Hr]. rewrite Hc. exact (IH Hr).
Qed.

Lemma rstrip_only_space (r : string) : all_space r = true -> Py.rstrip r = "".
Proof.
  induction r as [|c r IH]; cbn -[Py.isspace Py.lower_char]; [reflexivity|].
  intros H. apply andb_prop in H as [Hc Hr]. rewrite (IH Hr), Hc. reflexivity.
Qed.

Lemma lstrip_app_space (l s : string) :
  all_space l = true -> Py.lstrip (l +:+ s) = Py.lstrip s.
Proof.
  induction l as [|c l IH]; [reflexivity|].
  rewrite append_cons. cbn -[Py.isspace].
  intros H. apply andb_prop in H as [Hc Hl]. rewrite Hc. exact (IH Hl).
Qed.

Lemma rstrip_app_space (s r : string) :
  all_space r = true -> Py.rstrip (s +:+ r) = Py.rstrip s.
Proof.
  intros Hr. induction s as [|c s IH].
  - rewrite append_nil. cbn. apply rstrip_only_space, Hr.
  - rewrite append_cons. cbn -[Py.isspace]. rewrite IH. reflexivity.
Qed.

Lemma strip_app_space (s r : string) :
  all_space r = true -> Py.strip (s +:+ r) = Py.strip s.
Proof.
  intros Hr. unfold Py.strip. induction s as [|c s IH].
  - rewrite append_nil, (lstrip_only_space r Hr). reflexivity.
  - rewrite append_cons. cbn -[Py.isspace].
    destruct (Py.isspace c); [exact IH|].
    rewrite <- append_cons. apply rstrip_app_space, Hr.
Qed.

Lemma strip_padding (l s r : string) :
  all_space l = true -> all_space r = true ->
  Py.strip (l +:+ (s +:+ r)) = Py.strip s.
Proof.
  intros Hl Hr. unfold Py.strip. rewrite (lstrip_app_space l _ Hl).
  apply strip_app_space, Hr.
Qed.

(** No whitespace in front: empty, or a first character that is not a space. *)
Lemma lstrip_fixed (s : string) :
  match s with EmptyString => True | String c _ => Py.isspace c = false end ->
  Py.lstrip s = s.
Proof. destruct s as [|c s]; cbn -[Py.isspace Py.lower_char]; [reflexivity|]. intros ->. reflexivity. Qed.

Lemma lstrip_head (s : string) :
  match Py.lstrip s with EmptyString => True | String c _ => Py.isspace c = false end.
Proof.
  induction s as [|c s IH]; cbn -[Py.isspace Py.lower_char]; [exact I|].
  destruct (Py.isspace c) eqn:E; [exact IH | exact E].
Qed.

Lemma rstrip_head (s : string) :
  match s with EmptyString => True | String c _ => Py.isspace c = false end ->
  match Py.rstrip s with EmptyString => True | String c _ => Py.isspace c = false end.
Proof.
  destruct s as [|c s]; cbn -[Py.isspace Py.lower_char]; [trivial|]. intros Hc.
  destruct (Py.rstrip s); [rewrite Hc|]; exact Hc.
Qed.

Lemma rstrip_cons (c : ascii) (s : string) :
  Py.rstrip (String c s)
  = match Py.rstrip s with
    | EmptyString => if Py.isspace c then EmptyString else String c EmptyString
    | kept => String c kept
    end.
Proof. reflexivity. Qed.

Lemma rstrip_idempotent (s : string) : Py.rstrip (Py.rstrip s) = Py.rstrip s.
Proof.
  induction s as [|c s IH]; [reflexivity|].
  rewrite rstrip_cons. destruct (Py.rstrip s) as [|d k] eqn:E.
  - destruct (Py.isspace c) eqn:Hc; [reflexivity|].
    rewrite rstrip_cons. cbn [Py.rstrip]. rewrite Hc. reflexivity.
  - rewrite rstrip_cons, IH. reflexivity.
Qed.

Lemma strip_idempotent (s : string) : Py.strip (Py.strip s) = Py.strip s.
Proof.
  unfold Py.strip.
  rewrite (lstrip_fixed (Py.rstrip (Py.lstrip s))).
  - apply rstrip_idempotent.
  - apply rstrip_head, lstrip_head.
Qed.

Lemma lower_char_idempotent (c : ascii) :
  Py.lower_char (Py.lower_char c) = Py.lower_char c.
Proof. destruct c as [[] [] [] [] [] [] [] []]; vm_compute; reflexivity. Qed.

Lemma isspace_lower_char (c : ascii) : Py.isspace (Py.lower_char c) = Py.isspace c.
Proof. destruct c as [[] [] [] [] [] [] [] []]; vm_compute; reflexivity. Qed.

Lemma lower_idempotent (s : string) : Py.lower (Py.lower s) = Py.lower s.
Proof.
  induction s as [|c s IH]; cbn -[Py.isspace Py.lower_char]; [reflexivity|].
  rewrite lower_char_idempotent, IH. reflexivity.
Qed.

Lemma lstrip_lower (s : string) : Py.lstrip (Py.lower s) = Py.lower (Py.lstrip s).
Proof.
  induction s as [|c s IH]; cbn -[Py.isspace Py.lower_char]; [reflexivity|].
  rewrite isspace_lower_char. destruct (Py.isspace c); [exact IH | reflexivity].
Qed.

Lemma rstrip_lower (s : string) : Py.rstrip (Py.lower s) = Py.lower (Py.rstrip s).
Proof.
  induction s as [|c s IH]; cbn -[Py.isspace Py.lower_char]; [reflexivity|].
  rewrite IH, isspace_lower_char.
  destruct (Py.rstrip s) as [|d k]; cbn -[Py.isspace Py.lower_char]; [|reflexivity].
  destruct (Py.isspace c); reflexivity.
Qed.

Lemma strip_lower (s : string) : Py.strip (Py.lower s) = Py.lower (Py.strip s).
Proof. unfold Py.strip. rewrite lstrip_lower, rstrip_lower. reflexivity. Qed.

(** ** The trimmed form of a string *)

Lemma starts_with_space_head (s : string) :
  starts_with_space s = false <->
  match s with EmptyString => True | String c _ => Py.isspace c = false end.
Proof. destruct s; cbn -[Py.isspace]; tauto. Qed.

(** What [lstrip] removes is whitespace. *)
Lemma lstrip_split (s : string) :
  exists l, s = l +:+ Py.lstrip s /\ all_space l = true.
Proof.
  induction s as [|c s (l & Hl & Hsp)].
  - exists "". split; reflexivity.
  - cbn -[Py.isspace]. destruct (Py.isspace c) eqn:Hc.
    + exists (String c l). rewrite append_cons, <- Hl. split; [reflexivity|].
      cbn -[Py.isspace]. rewrite Hc. exact Hsp.
    + exists "". split; reflexivity.
Qed.

(** What [rstrip] removes is whitespace, and what it keeps does not end
    with any. *)
Lemma rstrip_split (s : string) :
  (exists r, s = Py.rstrip s +:+ r /\ all_space r = true)
  /\ ends_with_space (Py.rstrip s) = false.
Proof.
  induction s as [|c s [(r & Hr & Hsp) Hend]].
  - split; [exists ""; split; reflexivity | reflexivity].
  - rewrite rstrip_cons. destruct (Py.rstrip s) as [|d k] eqn:E.
    + rewrite append_nil in Hr. subst r.
      destruct (Py.isspace c) eqn:Hc.
      * split; [|reflexivity]. exists (String c s). split; [reflexivity|].
        cbn -[Py.isspace]. rewrite Hc. exact Hsp.
      * split; [|cbn -[Py.isspace]; exact Hc].
        exists s. split; [reflexivity | exact Hsp].
    + split.
      * exists r. rewrite !append_cons. rewrite append_cons in Hr.
        rewrite <- Hr. split; [reflexivity | exact Hsp].
      * exact Hend.
Qed.

Lemma rstrip_fixed (s : string) : ends_with_space s = false -> Py.rstrip s = s.
Proof.
  induction s as [|c s IH]; [reflexivity|].
  intros H. rewrite rstrip_cons. destruct s as [|d k].
  - cbn -[Py.isspace] in *. rewrite H. reflexivity.
  - rewrite IH by exact H. reflexivity.
Qed.

(** [strip] gives the trimmed form, and there is no other. *)
Lemma trimmed_of_strip (s : string) : trimmed_of s (Py.strip s).
Proof.
  unfold trimmed_of, Py.strip.
  destruct (lstrip_split s) as (l & Hl & Hlsp).
  destruct (rstrip_split (Py.lstrip s)) as [(r & Hr & Hrsp) Hend].
  exists l, r. rewrite <- Hr. repeat split; try assumption.
  apply starts_with_space_head, rstrip_head, lstrip_head.
Qed.

Lemma trimmed_of_unique (s clean : string) :
  trimmed_of s clean -> Py.strip s = clean.
Proof.
  intros (l & r & -> & Hl & Hr & Hhead & Hend).
  rewrite (strip_padding l clean r Hl Hr). unfold Py.strip.
  rewrite lstrip_fixed by (apply starts_with_space_head, Hhead).
  apply rstrip_fixed, Hend.
Qed.

(** ** Lower-casing against a lower-case phrase *)

Ltac bools_to_props H :=
  repeat first
    [ rewrite orb_true_iff in H | rewrite andb_true_iff in H
    | rewrite orb_false_iff in H | rewrite andb_false_iff in H
    | rewrite negb_true_iff in H | rewrite negb_false_iff in H
    | rewrite N.leb_le in H | rewrite N.leb_gt in H
    | rewrite N.eqb_eq in H | rewrite N.eqb_neq in H ].

Lemma lower_char_folds (c p : ascii) :
  (N_of_ascii p < 128)%N ->
  ((65 <=? N_of_ascii p) && (N_of_ascii p <=? 90))%N = false ->
  Py.lower_char c = p <-> folds_to_char c p = true.
Proof.
  intros Hp Hcap. unfold Py.lower_char, folds_to_char. cbn zeta.
  pose proof (N_ascii_bounded c) as Hc.
  set (n := N_of_ascii c) in *. set (k := N_of_ascii p) in *.
  bools_to_props Hcap.
  destruct ((65 <=? n) && (n <=? 90)
            || (192 <=? n) && (n <=? 222) && negb (n =? 215))%N eqn:Hup;
    bools_to_props Hup.
  - assert (Hemb : N_of_ascii (ascii_of_N (n + 32)) = (n + 32)%N)
      by (apply N_ascii_embedding; lia).
    split.
    + intros <-. subst k. rewrite Hemb in *.
      apply orb_true_iff. right.
      repeat (apply andb_true_iff; split);
        first [apply N.leb_le; lia | apply N.eqb_eq; lia].
    + intros H. bools_to_props H.
      assert (Heq : (n + 32)%N = k) by lia.
      rewrite Heq. subst k. apply ascii_N_embedding.
  - split.
    + intros ->. apply orb_true_iff. left. apply N.eqb_refl.
    + intros H. bools_to_props H.
      assert (Heq : n = k) by lia. subst n k.
      rewrite <- (ascii_N_embedding c), <- (ascii_N_embedding p), Heq. reflexivity.
Qed.

(** On a phrase without capitals, [lower] gives the phrase exactly for the
    strings that are the phrase up to the case of the letters a..z. *)
Lemma lower_folds (phrase s : string) :
  plain_lower phrase = true ->
  Py.lower s = phrase <-> folds_to s phrase = true.
Proof.
  revert s. induction phrase as [|p phrase IH]; intros s Hplain.
  - destruct s; cbn -[Py.lower_char]; split; congruence.
  - cbn -[N.ltb N.leb] in Hplain.
    apply andb_true_iff in Hplain as [Hp Hrest].
    apply andb_true_iff in Hp as [Hlt Hcap].
    apply N.ltb_lt in Hlt. apply negb_true_iff in Hcap.
    destruct s as [|c s]; cbn -[Py.lower_char folds_to_char]; [split; congruence|].
    rewrite andb_true_iff, <- (IH s Hrest), <- (lower_char_folds c p Hlt Hcap).
    split; [intros H; inversion H; subst; auto | intros [-> ->]; reflexivity].
Qed.

(** * request_override *)

(** C1. For string inputs, [request_override] returns true exactly when the
    badge, with its surrounding whitespace trimmed, is a key of the auth
    cache as it stands (case included) and the intent, trimmed and
    lower-cased, is one of the three accepted phrases. Every string has a
    trimmed form; the call always returns a boolean, and when it returns
    false the manager is left as it was. *)
Theorem request_override_true_iff (self : AccessManager) (now : float)
    (badge intent : string) :
  let e := request_override self now (Some badge) (Some intent) in
  (exists clean_badge clean_intent,
     trimmed_of badge clean_badge /\ trimmed_of intent clean_intent)
  /\ forall clean_badge clean_intent,
     trimmed_of badge clean_badge -> trimmed_of intent clean_intent ->
     (exists granted, result e = Returns granted)
     /\ (result e = Returns true
         <-> is_Some (auth_cache (cfg self) !! clean_badge)
             /\ (folds_to clean_intent "start maintenance" = true
                 \/ folds_to clean_intent "admin override" = true
                 \/ folds_to clean_intent "system check" = true))
     /\ (result e = Returns false -> after e = self).
Proof.
  cbn zeta. split.
  { exists (Py.strip badge), (Py.strip intent). split; apply trimmed_of_strip. }
  intros clean_badge clean_intent Hbadge Hintent.
  apply trimmed_of_unique in Hbadge, Hintent.
  rewrite <- !lower_folds by reflexivity.
  rewrite <- valid_intents_spec, <- contains_true, <- list_contains_true.
  unfold request_override. rewrite Hbadge, Hintent.
  destruct (Py.contains (auth_cache (cfg self)) clean_badge);
    destruct (Py.list_contains valid_intents (Py.lower clean_intent));
    cbn; repeat split; eauto; intros; try congruence; intuition congruence.
Qed.

Lemma request_override_true_iff_witness :
  let self := init default_config in
  let granted := request_override self 5 (Some "  ARCH-001 ") (Some " Admin OVERRIDE  ") in
  let denied := request_override self 5 (Some " arch-001") (Some "admin override") in
  result granted = Returns true
  /\ result denied = Returns false /\ after denied = self.
Proof.
  cbn zeta.
  assert (Hb : trimmed_of "  ARCH-001 " "ARCH-001")
    by (exists "  ", " "; repeat split; reflexivity).
  assert (Hi : trimmed_of " Admin OVERRIDE  " "Admin OVERRIDE")
    by (exists " ", "  "; repeat split; reflexivity).
  assert (Hb' : trimmed_of " arch-001" "arch-001")
    by (exists " ", ""; repeat split; reflexivity).
  assert (Hi' : trimmed_of "admin override" "admin override")
    by (exists "", ""; repeat split; reflexivity).
  destruct (proj2 (request_override_true_iff (init default_config) 5
                     "  ARCH-001 " " Admin OVERRIDE  ") _ _ Hb Hi)
    as (_ & Hgrant & _).
  destruct (proj2 (request_override_true_iff (init default_config) 5
                     " arch-001" "admin override") _ _ Hb' Hi')
    as (_ & _ & Hsame).
  assert (Hdenied : result (request_override (init default_config) 5
                              (Some " arch-001") (Some "admin override")) = Returns false)
    by (vm_compute; reflexivity).
  split; [|split; [exact Hdenied | exact (Hsame Hdenied)]].
  apply Hgrant. split; [vm_compute; eauto | right; left; reflexivity].
Defined.

(** C3. When both checks pass, [request_override] returns true and installs
    the session whatever the manager held before: the tier follows the
    prefix of the stripped badge (ARCH first, then MAINT, else Standard),
    the badge is the stripped badge and the presence time is the clock
    reading of the call. *)
Theorem request_override_grant (self : AccessManager) (now : float) (badge intent : string) :
  is_Some (auth_cache (cfg self) !! Py.strip badge) ->
  Py.lower (Py.strip intent) ∈ valid_intents ->
  let e := request_override self now (Some badge) (Some intent) in
  let clean_badge := Py.strip badge in
  result e = Returns true
  /\ (exists tier, _active_session (after e) = Some tier
      /\ (Py.startswith clean_badge "ARCH" = true ->
          tier = TIER_3 /\ name tier = "Admin" /\ tier_id tier = 3%Z)
      /\ (Py.startswith clean_badge "ARCH" = false ->
          Py.startswith clean_badge "MAINT" = true ->
          tier = TIER_2 /\ name tier = "Maintenance" /\ tier_id tier = 2%Z)
      /\ (Py.startswith clean_badge "ARCH" = false ->
          Py.startswith clean_badge "MAINT" = false ->
          tier = TIER_1 /\ name tier = "Standard" /\ tier_id tier = 1%Z))
  /\ _active_badge (after e) = Some clean_badge
  /\ _last_presence_time (after e) = now
  /\ cfg (after e) = cfg self.
Proof.
  intros Hbadge Hintent. cbn zeta.
  apply contains_true in Hbadge. apply list_contains_true in Hintent.
  unfold request_override. rewrite Hbadge, Hintent. cbn.
  repeat split.
  eexists. split; [reflexivity|].
  destruct (Py.startswith (Py.strip badge) "ARCH");
    destruct (Py.startswith (Py.strip badge) "MAINT");
    repeat split; intros; congruence.
Qed.

Lemma request_override_grant_witness :
  let held := after (request_override (init default_config) 1
                       (Some "ARCH-001") (Some "admin override")) in
  let e := request_override held 9 (Some "OP-7721 ") (Some " System Check") in
  _active_session held = Some TIER_3
  /\ result e = Returns true
  /\ _active_session (after e) = Some TIER_1
  /\ _active_badge (after e) = Some "OP-7721"
  /\ _last_presence_time (after e) = 9.
Proof.
  cbn zeta.
  set (held := after (request_override (init default_config) 1
                        (Some "ARCH-001") (Some "admin override"))).
  assert (Hb : is_Some (auth_cache (cfg held) !! Py.strip "OP-7721 "))
    by (vm_compute; eauto).
  assert (Hi : Py.lower (Py.strip " System Check") ∈ valid_intents)
    by (apply valid_intents_spec; vm_compute; tauto).
  destruct (request_override_grant held 9 "OP-7721 " " System Check" Hb Hi)
    as (Hr & (tier & Ht & _ & _ & Hstd) & Hbadge & Htime & _).
  split; [reflexivity|].
  split; [exact Hr|].
  split; [|split; [exact Hbadge | exact Htime]].
  rewrite Ht. f_equal. apply Hstd; vm_compute; reflexivity.
Defined.

(** C4. [request_override] raises [AttributeError] exactly when the badge or
    the intent is [None], and then changes nothing; for any two strings it
    returns a boolean. *)
Theorem request_override_raises_iff (self : AccessManager) (now : float)
    (badge_id voice_intent : option string) :
  let e := request_override self now badge_id voice_intent in
  (result e = Raises Py.AttributeError <-> badge_id = None \/ voice_intent = None)
  /\ (badge_id = None \/ voice_intent = None -> after e = self /\ logged e = [])
  /\ (forall badge intent, badge_id = Some badge -> voice_intent = Some intent ->
      exists granted, result e = Returns granted)
  /\ (forall x, result e = Raises x -> x = Py.AttributeError).
Proof.
  cbn zeta. unfold request_override.
  destruct badge_id as [badge|], voice_intent as [intent|]; cbn;
    try (repeat split; intros; try congruence; eauto; intuition congruence).
  destruct (Py.contains (auth_cache (cfg self)) (Py.strip badge));
    destruct (Py.list_contains valid_intents (Py.lower (Py.strip intent)));
    cbn; repeat split; intros; try congruence; eauto; intuition congruence.
Qed.

Lemma request_override_raises_iff_witness :
  let self := after (request_override (init default_config) 1
                       (Some "MAINT-900") (Some "start maintenance")) in
  let e := request_override self 2 (Some "ARCH-001") None in
  result e = Raises Py.AttributeError /\ after e = self /\ logged e = [].
Proof.
  cbn zeta.
  set (self := after (request_override (init default_config) 1
                        (Some "MAINT-900") (Some "start maintenance"))).
  pose proof (request_override_raises_iff self 2 (Some "ARCH-001") None) as H.
  cbn zeta in H. destruct H as (Hiff & Hsame & _).
  split; [apply Hiff; right; reflexivity | apply Hsame; right; reflexivity].
Defined.

(** * maintenance_pulse *)

(** The pulse on an active session, with the elapsed time it compares. *)
Lemma maintenance_pulse_active (self : AccessManager) (now : float)
    (operator_present : bool) (s : ClearanceLevel) :
  _active_session self = Some s ->
  maintenance_pulse self now operator_present =
    let self1 :=
      if operator_present then set_last_presence_time now self else self in
    let T := MAINTENANCE_TIMEOUT_SEC (cfg self) in
    let elapsed := pulse_elapsed self now operator_present in
    if Py.gt elapsed T
    then mkEffect (Returns (false, emergency_message)) (init (cfg self))
           [(ERROR, "WATCHDOG EXPIRED: Operator absent.");
            (INFO, "SECURE LOGOUT: User " +:+ Py.format_opt_str (_active_badge self)
                   +:+ " session closed.")]
    else match Py.int (T - elapsed) with
         | inl err => mkEffect (Raises err) self1 []
         | inr remaining =>
             mkEffect (Returns (true, active_message remaining)) self1 []
         end.
Proof.
  intros Hs. unfold maintenance_pulse, is_override_active, pulse_elapsed.
  rewrite Hs. cbn [negb].
  destruct operator_present;
    cbn -[Py.gt Py.int PrimFloat.sub String.append];
    rewrite ?Hs; reflexivity.
Qed.

Lemma maintenance_pulse_idle (self : AccessManager) (now : float)
    (operator_present : bool) :
  _active_session self = None ->
  maintenance_pulse self now operator_present
  = mkEffect (Returns (true, standby_message)) self [].
Proof.
  intros Hs. unfold maintenance_pulse, is_override_active. rewrite Hs. reflexivity.
Qed.

(** C2. With a session active and timeout T: a pulse whose elapsed time, the
    double the code computes, is a number equal to T answers still-active,
    with zero seconds left, and keeps the session; a pulse whose elapsed
    time is greater than T answers not-active with the EMERGENCY message and
    logs the session out, leaving the manager idle. *)
Theorem maintenance_pulse_boundary (self : AccessManager) (now : float)
    (operator_present : bool) (s : ClearanceLevel) :
  _active_session self = Some s ->
  let T := MAINTENANCE_TIMEOUT_SEC (cfg self) in
  let elapsed := pulse_elapsed self now operator_present in
  let e := maintenance_pulse self now operator_present in
  (elapsed == T -> Py.isfinite elapsed = true ->
     result e = Returns (true, active_message 0)
     /\ _active_session (after e) = Some s
     /\ _active_badge (after e) = _active_badge self
     /\ is_override_active (after e) = true
     /\ logged e = [])
  /\ (T < elapsed ->
     result e = Returns (false, emergency_message)
     /\ Py.startswith emergency_message "EMERGENCY" = true
     /\ _active_session (after e) = None
     /\ _active_badge (after e) = None
     /\ _last_presence_time (after e) = 0
     /\ is_override_active (after e) = false).
Proof.
  intros Hs. cbn zeta. rewrite (maintenance_pulse_active _ _ _ _ Hs). cbn zeta.
  split.
  - intros Heq Hfin.
    assert (Hle : Py.gt (pulse_elapsed self now operator_present)
                    (MAINTENANCE_TIMEOUT_SEC (cfg self)) = false).
    { unfold Py.gt. apply eqb_not_ltb, Heq. }
    pose proof (eqb_finite _ _ Heq Hfin) as HfT. rewrite isfinite_spec in HfT.
    destruct (sub_eq_zero _ _ (eqb_sym _ _ Heq) HfT) as [sg Hzero].
    rewrite Hle, (int_zero _ _ Hzero). unfold is_override_active.
    destruct operator_present; cbn; rewrite Hs; repeat split.
  - intros Hlt. unfold Py.gt. rewrite Hlt. cbn. repeat split.
Qed.

Lemma maintenance_pulse_boundary_witness :
  let self := after (request_override (init default_config) 0x1.fffffffffffffp-1
                       (Some "MAINT-900") (Some "start maintenance")) in
  result (maintenance_pulse self 301 false) = Returns (true, active_message 0)
  /\ _active_session (after (maintenance_pulse self 301 false)) = Some TIER_2
  /\ result (maintenance_pulse self 301.5 false) = Returns (false, emergency_message)
  /\ _active_session (after (maintenance_pulse self 301.5 false)) = None.
Proof.
  cbn zeta.
  set (self := after (request_override (init default_config) 0x1.fffffffffffffp-1
                        (Some "MAINT-900") (Some "start maintenance"))).
  assert (Hs : _active_session self = Some TIER_2) by reflexivity.
  pose proof (maintenance_pulse_boundary self 301 false TIER_2 Hs) as Hat.
  pose proof (maintenance_pulse_boundary self 301.5 false TIER_2 Hs) as Hover.
  cbn zeta in Hat, Hover.
  destruct Hat as [Hat _]. destruct Hover as [_ Hover].
  assert (Heq : pulse_elapsed self 301 false == MAINTENANCE_TIMEOUT_SEC (cfg self))
    by (vm_compute; reflexivity).
  assert (Hfin : Py.isfinite (pulse_elapsed self 301 false) = true)
    by (vm_compute; reflexivity).
  assert (Hlt : MAINTENANCE_TIMEOUT_SEC (cfg self) < pulse_elapsed self 301.5 false)
    by (vm_compute; reflexivity).
  destruct (Hat Heq Hfin) as (Hmsg & Hkept & _).
  destruct (Hover Hlt) as (Hres & _ & Hgone & _).
  repeat split; assumption.
Defined.







(** * get_telemetry *)

(** C6. [get_telemetry] leaves the manager as it is and logs nothing. Idle,
    the packet has [active] false and [time_left] zero, and neither [tier]
    nor [badge]. With a session active, the packet has exactly the keys
    [active], [tier], [badge] and [time_left]: [active] true, the name of
    the clearance, the active badge, and
    [time_left] = max(0.0, timeout - (now - last presence time)) in double
    arithmetic, which is never negative. *)
Theorem get_telemetry_snapshot (self : AccessManager) (now : float) :
  let e := get_telemetry self now in
  after e = self /\ logged e = []
  /\ exists packet : gmap string Py.value, result e = Returns packet
     /\ match _active_session self with
        | None =>
            packet !! "active" = Some (Py.VBool false)
            /\ packet !! "time_left" = Some (Py.VFloat 0)
            /\ packet !! "tier" = None
            /\ packet !! "badge" = None
        | Some s =>
            packet !! "active" = Some (Py.VBool true)
            /\ packet !! "tier" = Some (Py.VStr (name s))
            /\ packet !! "badge" = Some (Py.of_opt_str (_active_badge self))
            /\ (forall b, _active_badge self = Some b ->
                packet !! "badge" = Some (Py.VStr b))
            /\ (exists time_left, packet !! "time_left" = Some (Py.VFloat time_left)
                /\ time_left = Py.max 0 (MAINTENANCE_TIMEOUT_SEC (cfg self)
                                         - (now - _last_presence_time self))
                /\ (0 < MAINTENANCE_TIMEOUT_SEC (cfg self)
                         - (now - _last_presence_time self) ->
                    time_left = MAINTENANCE_TIMEOUT_SEC (cfg self)
                                - (now - _last_presence_time self))
                /\ (~ 0 < MAINTENANCE_TIMEOUT_SEC (cfg self)
                           - (now - _last_presence_time self) ->
                    time_left = 0)
                /\ 0 <= time_left)
            /\ dom packet = ({[ "active"; "tier"; "badge"; "time_left" ]} : gset string)
        end.
Proof.
  cbn zeta. unfold get_telemetry, is_override_active.
  destruct (_active_session self) as [s|] eqn:Hs; cbn [negb result after logged].
  - split; [reflexivity|]. split; [reflexivity|].
    eexists. split; [reflexivity|].
    split; [reflexivity|]. split; [reflexivity|]. split; [reflexivity|].
    split; [intros b ->; reflexivity|].
    split.
    + eexists. split; [reflexivity|]. split; [reflexivity|].
      split; [|split; [|apply max_zero_nonneg]]; unfold Py.max, Py.gt.
      * intros ->. reflexivity.
      * intros Hnot. destruct (0 <? _)%float; [contradiction Hnot; reflexivity | reflexivity].
    + rewrite !dom_insert_L, dom_singleton_L. set_solver.
  - split; [reflexivity|]. split; [reflexivity|].
    eexists. split; [reflexivity|]. repeat split.
Qed.

(** * The session invariant *)

Lemma perform_consistent (self : AccessManager) (now : float) (c : call) :
  session_consistent self -> session_consistent (after (perform self now c)).
Proof.
  intros Hinv. destruct c as [badge_id voice_intent|operator_present| |];
    cbn [perform answering after].
  - unfold request_override.
    destruct badge_id as [badge|]; [|exact Hinv].
    destruct voice_intent as [intent|]; [|exact Hinv].
    destruct (Py.contains _ _); [|exact Hinv].
    destruct (Py.list_contains _ _); [|exact Hinv].
    cbn. unfold session_consistent. cbn. eauto.
  - destruct (_active_session self) as [s|] eqn:Hs.
    + rewrite (maintenance_pulse_active _ _ _ _ Hs). cbn zeta.
      destruct (Py.gt _ _); cbn [after].
      * unfold session_consistent. cbn. split; reflexivity.
      * assert (Hkept : session_consistent
                  (if operator_present then set_last_presence_time now self else self)).
        { destruct operator_present; [|exact Hinv].
          unfold session_consistent in *. cbn. rewrite Hs in *. exact Hinv. }
        destruct (Py.int _); exact Hkept.
    + rewrite (maintenance_pulse_idle _ _ _ Hs). exact Hinv.
  - unfold get_telemetry. destruct (negb _); exact Hinv.
  - unfold session_consistent. cbn. split; reflexivity.
Qed.

Lemma final_state_consistent (self : AccessManager) (calls : list (float * call)) :
  session_consistent self -> session_consistent (final_state self calls).
Proof.
  revert self. induction calls as [|[now c] rest IH]; intros self Hinv; cbn.
  - exact Hinv.
  - apply IH, perform_consistent, Hinv.
Qed.

Lemma init_consistent (config : AccessConfig) : session_consistent (init config).
Proof. unfold session_consistent. cbn. split; reflexivity. Qed.

(** * secure_logout *)

(** C7. [secure_logout] never raises and always leaves the manager idle:
    no session, no badge, presence time zero. A second logout changes
    nothing more and logs nothing. In any idle state reached from
    construction by the four operations it changes nothing at all. *)
Theorem secure_logout_idempotent (self : AccessManager) :
  let once := secure_logout self in
  let twice := secure_logout (after once) in
  result once = Returns tt
  /\ _active_session (after once) = None
  /\ _active_badge (after once) = None
  /\ _last_presence_time (after once) = 0
  /\ is_override_active (after once) = false
  /\ cfg (after once) = cfg self
  /\ result twice = Returns tt
  /\ after twice = after once
  /\ logged twice = []
  /\ (forall config calls,
      self = final_state (init config) calls ->
      is_override_active self = false ->
      after once = self /\ logged once = []).
Proof.
  cbn zeta. unfold secure_logout, is_override_active. cbn.
  do 9 (split; [reflexivity|]).
  intros config calls Hreached Hidle.
  pose proof (final_state_consistent (init config) calls (init_consistent config)) as Hinv.
  rewrite <- Hreached in Hinv. unfold session_consistent in Hinv.
  destruct self as [c s t b]. cbn in *.
  destruct s as [held|]; [discriminate|].
  destruct Hinv as [-> ->]. split; reflexivity.
Qed.

Lemma secure_logout_idempotent_witness :
  let self := final_state (init default_config)
                [(1, RequestOverride (Some "ARCH-001") (Some "admin override"));
                 (2, MaintenancePulse true);
                 (400, MaintenancePulse false)] in
  is_override_active self = false
  /\ after (secure_logout self) = self /\ logged (secure_logout self) = [].
Proof.
  cbn zeta.
  set (calls := [(1, RequestOverride (Some "ARCH-001") (Some "admin override"));
                 (2, MaintenancePulse true);
                 (400, MaintenancePulse false)]).
  assert (Hidle : is_override_active (final_state (init default_config) calls) = false)
    by (vm_compute; reflexivity).
  split; [exact Hidle|].
  pose proof (secure_logout_idempotent (final_state (init default_config) calls)) as H.
  cbn zeta in H.
  destruct H as (_ & _ & _ & _ & _ & _ & _ & _ & _ & H).
  exact (H default_config calls eq_refl Hidle).
Defined.

(** * Reachable states *)

(** C5. In every state reached from construction by any sequence of
    [request_override], [maintenance_pulse], [get_telemetry] and
    [secure_logout] calls, the clearance is absent exactly when the badge is
    absent: both are present when an override is active and both are absent
    when the manager is idle. *)
Theorem session_and_badge_together (config : AccessConfig) (calls : list (float * call)) :
  let m := final_state (init config) calls in
  (_active_session m = None <-> _active_badge m = None)
  /\ (is_override_active m = true
      <-> is_Some (_active_session m) /\ is_Some (_active_badge m))
  /\ (is_override_active m = false
      <-> _active_session m = None /\ _active_badge m = None).
Proof.
  cbn zeta.
  pose proof (final_state_consistent (init config) calls (init_consistent config)) as Hinv.
  unfold session_consistent, is_override_active in *.
  destruct (_active_session (final_state (init config) calls)) as [s|].
  - destruct Hinv as [b Hb]. rewrite Hb.
    repeat split; intros; try congruence; eauto; intuition congruence.
  - destruct Hinv as [Hb _]. rewrite Hb.
    repeat split; intros; try congruence;
      try (destruct H as [[? ?] _]; congruence); intuition congruence.
Qed.

(** * The heartbeat threshold *)

Lemma perform_agree (m1 m2 : AccessManager) (now : float) (c : call) :
  agree_but_heartbeat m1 m2 ->
  result (perform m1 now c) = result (perform m2 now c)
  /\ logged (perform m1 now c) = logged (perform m2 now c)
  /\ agree_but_heartbeat (after (perform m1 now c)) (after (perform m2 now c)).
Proof.
  destruct m1 as [[T1 h1 a1] s1 t1 b1], m2 as [[T2 h2 a2] s2 t2 b2].
  unfold agree_but_heartbeat. cbn.
  intros (-> & -> & -> & -> & ->).
  destruct c as [badge_id voice_intent|operator_present| |]; cbn [perform answering].
  - unfold request_override. cbn [cfg auth_cache].
    destruct badge_id as [badge|]; [|cbn; repeat split].
    destruct voice_intent as [intent|]; [|cbn; repeat split].
    destruct (Py.contains a2 (Py.strip badge)); [|cbn; repeat split].
    destruct (Py.list_contains valid_intents (Py.lower (Py.strip intent)));
      cbn; repeat split.
  - unfold maintenance_pulse, is_override_active.
    cbn [_active_session cfg MAINTENANCE_TIMEOUT_SEC].
    destruct s2 as [s|]; [|cbn; repeat split].
    cbn [negb].
    destruct operator_present;
      cbn [set_last_presence_time _last_presence_time cfg MAINTENANCE_TIMEOUT_SEC];
      match goal with |- context [Py.gt ?x ?y] => destruct (Py.gt x y) end;
      try (cbn; repeat split; fail);
      match goal with |- context [Py.int ?x] => destruct (Py.int x) end;
      cbn; repeat split.
  - unfold get_telemetry, is_override_active.
    cbn [_active_session cfg MAINTENANCE_TIMEOUT_SEC].
    destruct s2 as [s|]; cbn; repeat split.
  - cbn. repeat split.
Qed.

Lemma run_agree (calls : list (float * call)) (m1 m2 : AccessManager) :
  agree_but_heartbeat m1 m2 ->
  responses m1 calls = responses m2 calls
  /\ agree_but_heartbeat (final_state m1 calls) (final_state m2 calls).
Proof.
  revert m1 m2. induction calls as [|[now c] rest IH]; intros m1 m2 Hagree.
  - split; [reflexivity | exact Hagree].
  - destruct (perform_agree m1 m2 now c Hagree) as (Hres & Hlog & Hnext).
    destruct (IH _ _ Hnext) as (Hrest & Hfinal).
    cbn [responses final_state]. cbn zeta.
    rewrite Hres, Hlog, Hrest. split; [reflexivity | exact Hfinal].
Qed.

(** C9. Two configurations that differ only in the heartbeat threshold
    cannot be told apart: along every sequence of calls the two managers
    give the same results (and log records) and hold the same session,
    badge and presence time. *)
Theorem heartbeat_threshold_unobservable (c1 c2 : AccessConfig) (calls : list (float * call)) :
  MAINTENANCE_TIMEOUT_SEC c1 = MAINTENANCE_TIMEOUT_SEC c2 ->
  auth_cache c1 = auth_cache c2 ->
  let m1 := final_state (init c1) calls in
  let m2 := final_state (init c2) calls in
  responses (init c1) calls = responses (init c2) calls
  /\ _active_session m1 = _active_session m2
  /\ _active_badge m1 = _active_badge m2
  /\ _last_presence_time m1 = _last_presence_time m2.
Proof.
  intros HT Hauth. cbn zeta.
  assert (Hinit : agree_but_heartbeat (init c1) (init c2)).
  { unfold agree_but_heartbeat. cbn. repeat split; assumption. }
  destruct (run_agree calls _ _ Hinit) as (Hres & _ & _ & Hs & Ht & Hb).
  repeat split; assumption.
Qed.

Lemma heartbeat_threshold_unobservable_witness :
  let patient := mkAccessConfig 300 3600 default_auth_cache in
  let calls := [(1, RequestOverride (Some "MAINT-900") (Some "start maintenance"));
                (10, MaintenancePulse false);
                (10, GetTelemetry);
                (900, MaintenancePulse false);
                (901, SecureLogout)] in
  (HEARTBEAT_THRESHOLD_SEC default_config =? HEARTBEAT_THRESHOLD_SEC patient)%float = false
  /\ responses (init default_config) calls = responses (init patient) calls
  /\ _active_session (final_state (init default_config) calls)
     = _active_session (final_state (init patient) calls).
Proof.
  cbn zeta. split; [reflexivity|].
  destruct (heartbeat_threshold_unobservable default_config
              (mkAccessConfig 300 3600 default_auth_cache)
              [(1, RequestOverride (Some "MAINT-900") (Some "start maintenance"));
               (10, MaintenancePulse false);
               (10, GetTelemetry);
               (900, MaintenancePulse false);
               (901, SecureLogout)] eq_refl eq_refl) as (Hres & Hs & _).
  split; [exact Hres | exact Hs].
Defined.

(** * Padding and letter case of the inputs *)

(** X1. Whitespace around the badge or around the intent makes no
    difference: the padded call gives the same result, the same manager and
    the same log records as the call on the bare strings. *)
Theorem request_override_ignores_padding (self : AccessManager) (now : float)
    (badge intent l1 r1 l2 r2 : string) :
  all_space l1 = true -> all_space r1 = true ->
  all_space l2 = true -> all_space r2 = true ->
  request_override self now (Some (l1 +:+ (badge +:+ r1))) (Some (l2 +:+ (intent +:+ r2)))
  = request_override self now (Some badge) (Some intent).
Proof.
  intros Hl1 Hr1 Hl2 Hr2. unfold request_override.
  rewrite (strip_padding l1 badge r1 Hl1 Hr1), (strip_padding l2 intent r2 Hl2 Hr2).
  reflexivity.
Qed.

Lemma request_override_ignores_padding_witness :
  request_override (init default_config) 3 (Some "  ARCH-001 ") (Some " admin override  ")
  = request_override (init default_config) 3 (Some "ARCH-001") (Some "admin override")
  /\ result (request_override (init default_config) 3
               (Some "  ARCH-001 ") (Some " admin override  ")) = Returns true.
Proof.
  split.
  - exact (request_override_ignores_padding (init default_config) 3
             "ARCH-001" "admin override" "  " " " " " "  "
             eq_refl eq_refl eq_refl eq_refl).
  - vm_compute. reflexivity.
Defined.

(** X2. The intent is matched without regard to letter case: two intents
    with the same lower-casing give the same result, manager and log
    records. *)
Theorem request_override_ignores_intent_case (self : AccessManager) (now : float)
    (badge_id : option string) (intent intent' : string) :
  Py.lower intent = Py.lower intent' ->
  request_override self now badge_id (Some intent)
  = request_override self now badge_id (Some intent').
Proof.
  intros Hsame. unfold request_override.
  rewrite <- !strip_lower, Hsame. reflexivity.
Qed.

Lemma request_override_ignores_intent_case_witness :
  request_override (init default_config) 3 (Some "OP-7721") (Some "System CHECK")
  = request_override (init default_config) 3 (Some "OP-7721") (Some "sYSTEM check").
Proof.
  exact (request_override_ignores_intent_case (init default_config) 3
           (Some "OP-7721") "System CHECK" "sYSTEM check" eq_refl).
Defined.

(** * What every reachable state satisfies, the setter included *)

Lemma perform_cfg (self : AccessManager) (now : float) (c : call) :
  cfg (after (perform self now c)) = cfg self.
Proof.
  destruct c as [badge_id voice_intent|operator_present| |];
    cbn [perform answering after].
  - unfold request_override.
    destruct badge_id as [badge|]; [|reflexivity].
    destruct voice_intent as [intent|]; [|reflexivity].
    destruct (Py.contains _ _); [|reflexivity].
    destruct (Py.list_contains _ _); reflexivity.
  - destruct (_active_session self) as [s|] eqn:Hs.
    + rewrite (maintenance_pulse_active _ _ _ _ Hs). cbn zeta.
      destruct (Py.gt _ _); [reflexivity|].
      destruct (Py.int _); destruct operator_present; reflexivity.
    + rewrite (maintenance_pulse_idle _ _ _ Hs). reflexivity.
  - unfold get_telemetry. destruct (negb _); reflexivity.
  - reflexivity.
Qed.

Lemma perform_granted (self : AccessManager) (now : float) (c : call) :
  granted_session self -> granted_session (after (perform self now c)).
Proof.
  intros Hinv.
  destruct c as [badge_id voice_intent|operator_present| |];
    cbn [perform answering after].
  - unfold request_override.
    destruct badge_id as [badge|]; [|exact Hinv].
    destruct voice_intent as [intent|]; [|exact Hinv].
    destruct (Py.contains _ _) eqn:Hkey; [|exact Hinv].
    destruct (Py.list_contains _ _); [|exact Hinv].
    cbn [negb after]. unfold granted_session.
    cbn [_active_session _active_badge cfg].
    split; [apply contains_true, Hkey|].
    split; [apply strip_idempotent | reflexivity].
  - destruct (_active_session self) as [s|] eqn:Hs.
    + rewrite (maintenance_pulse_active _ _ _ _ Hs). cbn zeta.
      destruct (Py.gt _ _); cbn [after]; [exact I|].
      assert (Hkept : granted_session
                (if operator_present then set_last_presence_time now self else self)).
      { destruct operator_present; [|exact Hinv].
        unfold granted_session in *. cbn. rewrite Hs in *. exact Hinv. }
      destruct (Py.int _); exact Hkept.
    + rewrite (maintenance_pulse_idle _ _ _ Hs). exact Hinv.
  - unfold get_telemetry. destruct (negb _); exact Hinv.
  - exact I.
Qed.

(** X3. In every state reached from construction by the four operations and
    the [last_presence_time] setter, in any order: the configuration is the
    one given at construction; session and badge are present together or
    absent together; and an active session holds a badge that is a key of
    the auth cache, carries no surrounding whitespace, and has the tier its
    prefix selects (ARCH, then MAINT, else Standard). *)
Theorem reachable_session_is_granted (config : AccessConfig) (acts : list action) :
  let m := final_state_with_setter (init config) acts in
  cfg m = config
  /\ (_active_session m = None <-> _active_badge m = None)
  /\ (forall s, _active_session m = Some s ->
      exists b, _active_badge m = Some b
        /\ is_Some (auth_cache config !! b)
        /\ Py.strip b = b
        /\ s = (if Py.startswith b "ARCH" then TIER_3
                else if Py.startswith b "MAINT" then TIER_2
                else TIER_1)
        /\ (1 <= tier_id s <= 3)%Z).
Proof.
  cbn zeta.
  assert (Hgen : forall self,
            granted_session self ->
            cfg (final_state_with_setter self acts) = cfg self
            /\ granted_session (final_state_with_setter self acts)).
  { induction acts as [|[now c|value] rest IH]; intros self Hinv; cbn.
    - split; [reflexivity | exact Hinv].
    - destruct (IH _ (perform_granted self now c Hinv)) as [Hcfg Hg].
      rewrite Hcfg, perform_cfg. split; [reflexivity | exact Hg].
    - destruct (IH (set_last_presence_time value self) Hinv) as [Hcfg Hg].
      rewrite Hcfg. split; [reflexivity | exact Hg]. }
  destruct (Hgen (init config) I) as [Hcfg Hg]. clear Hgen.
  cbn in Hcfg. split; [exact Hcfg|].
  unfold granted_session in Hg. rewrite Hcfg in Hg.
  destruct (_active_session (final_state_with_setter (init config) acts)) as [s|];
    destruct (_active_badge (final_state_with_setter (init config) acts)) as [b|];
    try contradiction.
  - split; [split; discriminate|].
    intros s' [= <-]. exists b. destruct Hg as (Hkey & Hstrip & Htier).
    repeat split; try assumption;
      rewrite Htier;
      (destruct (Py.startswith b "ARCH"); [|destruct (Py.startswith b "MAINT")]);
      cbn; lia.
  - split; [split; reflexivity|]. intros s [=].
Qed.

(** * Single steps *)

(** X4. Only a granted [request_override] starts an override: if a call
    takes an idle manager to an active one, the call was a
    [request_override] with two strings that returned true, the stripped
    badge being a key of the auth cache and the stripped, lower-cased
    intent one of the accepted phrases. *)
Theorem activation_needs_grant (self : AccessManager) (now : float) (c : call) :
  is_override_active self = false ->
  is_override_active (after (perform self now c)) = true ->
  exists badge intent,
    c = RequestOverride (Some badge) (Some intent)
    /\ result (perform self now c) = Returns (Granted true)
    /\ is_Some (auth_cache (cfg self) !! Py.strip badge)
    /\ Py.lower (Py.strip intent) ∈ valid_intents.
Proof.
  intros Hidle.
  destruct c as [badge_id voice_intent|operator_present| |];
    cbn [perform answering after result].
  - unfold request_override.
    destruct badge_id as [badge|]; [|cbn; congruence].
    destruct voice_intent as [intent|]; [|cbn; congruence].
    destruct (Py.contains _ _) eqn:Hkey; [|cbn; congruence].
    destruct (Py.list_contains _ _) eqn:Hint; [|cbn; congruence].
    cbn. intros _. exists badge, intent.
    split; [reflexivity|]. split; [reflexivity|].
    split; [apply contains_true, Hkey | apply list_contains_true, Hint].
  - unfold maintenance_pulse. rewrite Hidle. cbn. congruence.
  - unfold get_telemetry. rewrite Hidle. cbn. congruence.
  - cbn. discriminate.
Qed.

Lemma activation_needs_grant_witness :
  exists badge intent,
    RequestOverride (Some " MAINT-900") (Some "System Check")
    = RequestOverride (Some badge) (Some intent)
    /\ is_Some (auth_cache default_config !! Py.strip badge).
Proof.
  destruct (activation_needs_grant (init default_config) 4
              (RequestOverride (Some " MAINT-900") (Some "System Check"))
              eq_refl eq_refl) as (badge & intent & Hc & _ & Hkey & _).
  exists badge, intent. split; [exact Hc | exact Hkey].
Defined.

(** X5. The three outcomes of [maintenance_pulse]. It raises exactly when a
    session is active, the elapsed time (after the refresh) is not above
    the timeout and the remaining time [timeout - elapsed] is not a finite
    double; the presence refresh is then already written and the session
    kept. Otherwise it returns a pair, and the flag is false exactly when a
    session was active and the elapsed time is above the timeout. On false
    the manager is back to its state at construction; on true the session
    and the badge are the ones held before, so a pulse never starts a
    session and never changes its tier or badge. *)
Theorem maintenance_pulse_outcomes (self : AccessManager) (now : float)
    (operator_present : bool) :
  let e := maintenance_pulse self now operator_present in
  let T := MAINTENANCE_TIMEOUT_SEC (cfg self) in
  let elapsed := pulse_elapsed self now operator_present in
  ((exists err, result e = Raises err)
   <-> is_override_active self = true
       /\ ~ T < elapsed
       /\ Py.isfinite (T - elapsed) = false)
  /\ match result e with
     | Raises err =>
         (err = Py.OverflowError \/ err = Py.ValueError)
         /\ after e = (if operator_present then set_last_presence_time now self
                       else self)
         /\ logged e = []
     | Returns (still_active, message) =>
         (still_active = false <-> is_override_active self = true /\ T < elapsed)
         /\ (still_active = false -> after e = init (cfg self))
         /\ (still_active = true ->
             _active_session (after e) = _active_session self
             /\ _active_badge (after e) = _active_badge self
             /\ cfg (after e) = cfg self
             /\ logged e = [])
     end.
Proof.
  cbn zeta. destruct (_active_session self) as [s|] eqn:Hs.
  - rewrite (maintenance_pulse_active _ _ _ _ Hs). cbn zeta.
    unfold is_override_active. rewrite Hs. unfold Py.gt.
    destruct (MAINTENANCE_TIMEOUT_SEC (cfg self)
              <? pulse_elapsed self now operator_present) eqn:Hgt;
      cbn [result after logged].
    + split.
      * split; [intros [err [=]] | intros (_ & Hnot & _); contradiction Hnot; reflexivity].
      * repeat split; intros; try discriminate; assumption.
    + destruct (Py.isfinite (MAINTENANCE_TIMEOUT_SEC (cfg self)
                             - pulse_elapsed self now operator_present)) eqn:Hfin.
      * destruct (int_finite _ Hfin) as [n Hn]. rewrite Hn. cbn [result after logged].
        split.
        { split; [intros [err [=]] | intros (_ & _ & [=])]. }
        split; [split; [discriminate | intros [_ [=]]]|].
        split; [discriminate|]. intros _.
        destruct operator_present; cbn; rewrite ?Hs; repeat split.
      * destruct (int_not_finite _ Hfin) as [err Herr]. rewrite Herr.
        cbn [result after logged].
        split.
        { split; [intros _; repeat split; discriminate | intros _; eauto]. }
        split; [|split; reflexivity].
        revert Herr. unfold Py.int.
        destruct (Prim2SF _); intros [= <-]; [left | right]; reflexivity.
  - rewrite (maintenance_pulse_idle _ _ _ Hs). unfold is_override_active.
    rewrite Hs. cbn [result after logged].
    split.
    { split; [intros [err [=]] | intros ([=] & _)]. }
    split; [split; [discriminate | intros [[=] _]]|].
    split; [discriminate|]. intros _. repeat split; exact Hs.
Qed.

Lemma maintenance_pulse_outcomes_witness :
  let config := mkAccessConfig infinity 1 default_auth_cache in
  let self := after (request_override (init config) 100
                       (Some "MAINT-900") (Some "start maintenance")) in
  exists err, result (maintenance_pulse self 250 true) = Raises err.
Proof.
  cbn zeta.
  set (self := after (request_override (init (mkAccessConfig infinity 1 default_auth_cache))
                        100 (Some "MAINT-900") (Some "start maintenance"))).
  apply (proj1 (maintenance_pulse_outcomes self 250 true)).
  split; [reflexivity|]. split; [|reflexivity].
  intros H. vm_compute in H. discriminate.
Defined.

(** * Runs of pulses *)

Lemma pulse_absent_within (self : AccessManager) (t : float) (s : ClearanceLevel) :
  _active_session self = Some s ->
  t - _last_presence_time self <= MAINTENANCE_TIMEOUT_SEC (cfg self) ->
  Py.isfinite (MAINTENANCE_TIMEOUT_SEC (cfg self) - (t - _last_presence_time self)) = true ->
  exists remaining,
    maintenance_pulse self t false
    = mkEffect (Returns (true, active_message remaining)) self [].
Proof.
  intros Hs Hle Hfin. rewrite (maintenance_pulse_active _ _ _ _ Hs). cbn zeta.
  unfold pulse_elapsed, Py.gt. rewrite (leb_not_ltb _ _ Hle).
  destruct (int_finite _ Hfin) as [n Hn]. rewrite Hn. eauto.
Qed.

Lemma pulse_present (self : AccessManager) (t : float) (s : ClearanceLevel)
    (remaining : Z) :
  _active_session self = Some s ->
  0 <= MAINTENANCE_TIMEOUT_SEC (cfg self) ->
  Py.int (MAINTENANCE_TIMEOUT_SEC (cfg self)) = inr remaining ->
  Py.isfinite t = true ->
  maintenance_pulse self t true
  = mkEffect (Returns (true, active_message remaining))
      (set_last_presence_time t self) [].
Proof.
  intros Hs HT Hint Ht. rewrite (maintenance_pulse_active _ _ _ _ Hs). cbn zeta.
  unfold pulse_elapsed. rewrite isfinite_spec in Ht.
  rewrite (sub_self t Ht), sub_zero_r. unfold Py.gt.
  rewrite (leb_not_ltb _ _ HT), Hint. reflexivity.
Qed.

(** X6. Pulses without presence do not extend a session. With a session
    active, any run of such pulses at which the elapsed time the code
    computes is within the timeout, the remaining time being a finite
    double, leaves the manager exactly as it was, each answering
    still-active and logging nothing; and the first such pulse whose elapsed
    time is above the timeout expires the session however many came
    before. *)
Theorem pulses_without_presence_do_not_extend (self : AccessManager)
    (s : ClearanceLevel) (readings : list float) :
  _active_session self = Some s ->
  Forall (fun t =>
            t - _last_presence_time self <= MAINTENANCE_TIMEOUT_SEC (cfg self)
            /\ Py.isfinite (MAINTENANCE_TIMEOUT_SEC (cfg self)
                            - (t - _last_presence_time self)) = true)
    readings ->
  final_state self (pulses false readings) = self
  /\ Forall (fun r => exists message, r = (Returns (Pulse true message), []))
       (responses self (pulses false readings))
  /\ (forall t,
      MAINTENANCE_TIMEOUT_SEC (cfg self) < t - _last_presence_time self ->
      maintenance_pulse (final_state self (pulses false readings)) t false
      = mkEffect (Returns (false, emergency_message)) (init (cfg self))
          [(ERROR, "WATCHDOG EXPIRED: Operator absent.");
           (INFO, "SECURE LOGOUT: User " +:+ Py.format_opt_str (_active_badge self)
                  +:+ " session closed.")]).
Proof.
  intros Hs Hall.
  assert (Hrun : final_state self (pulses false readings) = self
                 /\ Forall (fun r => exists message, r = (Returns (Pulse true message), []))
                      (responses self (pulses false readings))).
  { induction Hall as [|t rest [Ht Hfin] Hrest IH]; cbn.
    - split; [reflexivity | constructor].
    - destruct (pulse_absent_within self t s Hs Ht Hfin) as [n Hn].
      rewrite Hn. cbn.
      destruct IH as [IHstate IHres]. split; [exact IHstate|].
      constructor; [eexists; reflexivity | exact IHres]. }
  destruct Hrun as [Hstate Hres]. split; [exact Hstate|]. split; [exact Hres|].
  intros t Hlate. rewrite Hstate, (maintenance_pulse_active _ _ _ _ Hs). cbn zeta.
  unfold pulse_elapsed, Py.gt. rewrite Hlate. reflexivity.
Qed.

Lemma pulses_without_presence_do_not_extend_witness :
  let self := after (request_override (init default_config) 100
                       (Some "OP-7721") (Some "system check")) in
  final_state self (pulses false [150; 250; 399]) = self
  /\ result (maintenance_pulse (final_state self (pulses false [150; 250; 399]))
               400.5 false)
     = Returns (false, emergency_message).
Proof.
  cbn zeta.
  set (self := after (request_override (init default_config) 100
                        (Some "OP-7721") (Some "system check"))).
  assert (Hall : Forall (fun t =>
                    t - _last_presence_time self <= MAINTENANCE_TIMEOUT_SEC (cfg self)
                    /\ Py.isfinite (MAINTENANCE_TIMEOUT_SEC (cfg self)
                                    - (t - _last_presence_time self)) = true)
                   [150; 250; 399]).
  { repeat constructor; vm_compute; reflexivity. }
  destruct (pulses_without_presence_do_not_extend self TIER_1 [150; 250; 399]
              eq_refl Hall) as (Hstate & _ & Hlate).
  split; [exact Hstate|].
  rewrite (Hlate 400.5); [reflexivity|]. vm_compute. reflexivity.
Defined.

(** X7. Pulses with presence keep a session for ever. With a session active
    and a timeout that is a non-negative number, after any run of such
    pulses, at any clock readings that are numbers, the session and the
    badge are the ones held before, the presence time is the last reading,
    and every pulse answered still-active with the full timeout remaining
    and logged nothing. *)
Theorem pulses_with_presence_keep_session (self : AccessManager)
    (s : ClearanceLevel) (readings : list float) :
  _active_session self = Some s ->
  0 <= MAINTENANCE_TIMEOUT_SEC (cfg self) ->
  Py.isfinite (MAINTENANCE_TIMEOUT_SEC (cfg self)) = true ->
  Forall (fun t => Py.isfinite t = true) readings ->
  let m := final_state self (pulses true readings) in
  _active_session m = Some s
  /\ _active_badge m = _active_badge self
  /\ cfg m = cfg self
  /\ _last_presence_time m
     = last_reading (_last_presence_time self) (pulses true readings)
  /\ exists full : Q,
       Py.exact (MAINTENANCE_TIMEOUT_SEC (cfg self)) = Some full
       /\ Forall (fun r => r = (Returns (Pulse true (active_message (Qfloor full))), []))
            (responses self (pulses true readings)).
Proof.
  intros Hs HT HfT Hall. cbn zeta.
  destruct (int_floor _ HT HfT) as (v & Hv & _ & Hint).
  assert (Hgen : forall self',
            _active_session self' = Some s -> cfg self' = cfg self ->
            let m := final_state self' (pulses true readings) in
            _active_session m = Some s
            /\ _active_badge m = _active_badge self'
            /\ cfg m = cfg self'
            /\ _last_presence_time m
               = last_reading (_last_presence_time self') (pulses true readings)
            /\ Forall (fun r => r = (Returns (Pulse true (active_message (Qfloor v))), []))
                 (responses self' (pulses true readings))).
  { induction Hall as [|t rest Ht Hrest IH]; intros self' Hs' Hcfg; cbn.
    - repeat split; [exact Hs' | constructor].
    - assert (HT' : 0 <= MAINTENANCE_TIMEOUT_SEC (cfg self')) by (rewrite Hcfg; exact HT).
      assert (Hint' : Py.int (MAINTENANCE_TIMEOUT_SEC (cfg self')) = inr (Qfloor v))
        by (rewrite Hcfg; exact Hint).
      rewrite (pulse_present self' t s _ Hs' HT' Hint' Ht). cbn.
      destruct (IH (set_last_presence_time t self') Hs' Hcfg)
        as (IHs & IHb & IHc & IHt & IHr).
      split; [exact IHs|]. split; [exact IHb|]. split; [exact IHc|].
      split; [exact IHt|]. constructor; [reflexivity | exact IHr]. }
  destruct (Hgen self Hs eq_refl) as (H1 & H2 & H3 & H4 & H5).
  repeat (split; [assumption|]). exists v. split; assumption.
Qed.

Lemma pulses_with_presence_keep_session_witness :
  let self := after (request_override (init default_config) 100
                       (Some "ARCH-001") (Some "admin override")) in
  let m := final_state self (pulses true [1000; 5000; 90000]) in
  _active_session m = Some TIER_3 /\ _last_presence_time m = 90000.
Proof.
  cbn zeta.
  set (self := after (request_override (init default_config) 100
                        (Some "ARCH-001") (Some "admin override"))).
  assert (Hall : Forall (fun t => Py.isfinite t = true) [1000; 5000; 90000])
    by (repeat constructor).
  destruct (pulses_with_presence_keep_session self TIER_3 [1000; 5000; 90000]
              eq_refl eq_refl eq_refl Hall) as (Hs & _ & _ & Ht & _).
  split; [exact Hs | exact Ht].
Defined.

(** * Pulse and telemetry together *)

(** X8. The seconds a pulse reports and the telemetry agree. With a session
    active, the pulse not expiring and its remaining time a finite double,
    the telemetry read at the same clock reading after the pulse has a
    [time_left] whose integer part is the number of seconds in the pulse's
    ACTIVE message. *)
Theorem pulse_and_telemetry_agree (self : AccessManager) (now : float)
    (operator_present : bool) (s : ClearanceLevel) :
  _active_session self = Some s ->
  pulse_elapsed self now operator_present <= MAINTENANCE_TIMEOUT_SEC (cfg self) ->
  Py.isfinite (MAINTENANCE_TIMEOUT_SEC (cfg self)
               - pulse_elapsed self now operator_present) = true ->
  let e := maintenance_pulse self now operator_present in
  exists packet time_left seconds,
    result (get_telemetry (after e) now) = Returns packet
    /\ packet !! "time_left" = Some (Py.VFloat time_left)
    /\ packet !! "active" = Some (Py.VBool true)
    /\ Py.int time_left = inr seconds
    /\ result e = Returns (true, active_message seconds).
Proof.
  intros Hs Hle Hfin. cbn zeta.
  rewrite (maintenance_pulse_active _ _ _ _ Hs). cbn zeta.
  destruct (isfinite_sub _ _ Hfin) as [HfT Hfe].
  assert (Hpos : 0 <= MAINTENANCE_TIMEOUT_SEC (cfg self)
                      - pulse_elapsed self now operator_present).
  { apply sub_nonneg; rewrite <- ?isfinite_spec; assumption. }
  destruct (int_finite _ Hfin) as [n Hn].
  unfold Py.gt. rewrite (leb_not_ltb _ _ Hle), Hn. cbn [after result].
  unfold get_telemetry, is_override_active.
  assert (Hs1 : _active_session
                  (if operator_present then set_last_presence_time now self else self)
                = Some s) by (destruct operator_present; exact Hs).
  rewrite Hs1. cbn [negb result].
  eexists _, _, n. split; [reflexivity|]. split; [reflexivity|]. split; [reflexivity|].
  split; [|reflexivity].
  rewrite <- Hn. unfold pulse_elapsed in *.
  destruct operator_present; exact (int_max_zero _ Hpos).
Qed.

Lemma pulse_and_telemetry_agree_witness :
  let self := after (request_override (init default_config) 100
                       (Some "MAINT-900") (Some "start maintenance")) in
  exists packet time_left seconds,
    result (get_telemetry (after (maintenance_pulse self 250.5 false)) 250.5)
    = Returns packet
    /\ packet !! "time_left" = Some (Py.VFloat time_left)
    /\ Py.int time_left = inr seconds
    /\ result (maintenance_pulse self 250.5 false)
       = Returns (true, active_message seconds).
Proof.
  cbn zeta.
  set (self := after (request_override (init default_config) 100
                        (Some "MAINT-900") (Some "start maintenance"))).
  destruct (pulse_and_telemetry_agree self 250.5 false TIER_2 eq_refl eq_refl eq_refl)
    as (packet & time_left & seconds & Hp & Ht & _ & Hi & Hr).
  exists packet, time_left, seconds. repeat split; assumption.
Defined.

(** * A clock that never goes back *)

Lemma perform_presence_behind (self : AccessManager) (t0 t : float) (c : call) :
  (is_override_active self = true -> _last_presence_time self <= t0) ->
  t0 <= t ->
  is_override_active (after (perform self t c)) = true ->
  _last_presence_time (after (perform self t c)) <= t.
Proof.
  intros Hinv Hle.
  assert (Hkeep : is_override_active self = true -> _last_presence_time self <= t)
    by (intros Ha; apply leb_trans with t0; [apply Hinv, Ha | exact Hle]).
  pose proof (leb_refl_r _ _ Hle) as Hrefl.
  destruct c as [badge_id voice_intent|operator_present| |];
    cbn [perform answering after].
  - unfold request_override.
    destruct badge_id as [badge|]; [|exact Hkeep].
    destruct voice_intent as [intent|]; [|exact Hkeep].
    destruct (Py.contains _ _); [|exact Hkeep].
    destruct (Py.list_contains _ _); [|exact Hkeep].
    cbn. intros _. exact Hrefl.
  - destruct (_active_session self) as [s|] eqn:Hs.
    + rewrite (maintenance_pulse_active _ _ _ _ Hs). cbn zeta.
      destruct (Py.gt _ _); cbn [after]; [cbn; discriminate|].
      assert (Hkept : is_override_active
                (if operator_present then set_last_presence_time t self else self) = true ->
              _last_presence_time
                (if operator_present then set_last_presence_time t self else self) <= t).
      { destruct operator_present; [cbn; intros _; exact Hrefl | exact Hkeep]. }
      destruct (Py.int _); exact Hkept.
    + rewrite (maintenance_pulse_idle _ _ _ Hs). unfold is_override_active.
      cbn. rewrite Hs. discriminate.
  - unfold get_telemetry. destruct (negb _); exact Hkeep.
  - cbn. discriminate.
Qed.

Lemma final_state_cfg (self : AccessManager) (calls : list (float * call)) :
  cfg (final_state self calls) = cfg self.
Proof.
  revert self. induction calls as [|[t c] rest IH]; intros self; cbn; [reflexivity|].
  rewrite IH. apply perform_cfg.
Qed.

(** X9. When the clock readings of the calls never go back, an active
    session's presence time is never ahead of the clock: after any sequence
    of calls from construction it is at most the last reading, so at any
    later reading the telemetry's [time_left] lies between zero and the
    timeout (for a non-negative timeout). *)
Theorem presence_time_behind_clock (config : AccessConfig) (t0 : float)
    (calls : list (float * call)) :
  clock_monotonic t0 calls ->
  let m := final_state (init config) calls in
  is_override_active m = true ->
  _last_presence_time m <= last_reading t0 calls
  /\ (forall now,
      last_reading t0 calls <= now ->
      0 <= MAINTENANCE_TIMEOUT_SEC config ->
      exists packet time_left,
        result (get_telemetry m now) = Returns packet
        /\ packet !! "time_left" = Some (Py.VFloat time_left)
        /\ 0 <= time_left <= MAINTENANCE_TIMEOUT_SEC config).
Proof.
  intros Hclock. cbn zeta.
  assert (Hgen : forall self t,
            (is_override_active self = true -> _last_presence_time self <= t) ->
            clock_monotonic t calls ->
            is_override_active (final_state self calls) = true ->
            _last_presence_time (final_state self calls) <= last_reading t calls).
  { clear Hclock. induction calls as [|[t' c] rest IH]; intros self t Hinv Hmono; cbn.
    - exact Hinv.
    - destruct Hmono as [Hle Hrest].
      apply IH; [|exact Hrest].
      apply (perform_presence_behind self t t' c Hinv Hle). }
  intros Hactive.
  assert (Hbehind : _last_presence_time (final_state (init config) calls)
                    <= last_reading t0 calls).
  { apply Hgen; [cbn; discriminate | exact Hclock | exact Hactive]. }
  split; [exact Hbehind|].
  intros now Hnow HT.
  assert (Hcfg : cfg (final_state (init config) calls) = config).
  { rewrite final_state_cfg. reflexivity. }
  unfold get_telemetry. rewrite Hactive, Hcfg. cbn [negb result].
  eexists _, _. split; [reflexivity|]. split; [reflexivity|].
  apply time_left_bounds; [|exact HT].
  apply leb_trans with (last_reading t0 calls); assumption.
Qed.

Lemma presence_time_behind_clock_witness :
  let calls := [(5, RequestOverride (Some "MAINT-900") (Some "start maintenance"));
                (20, MaintenancePulse true);
                (60, MaintenancePulse false)] in
  _last_presence_time (final_state (init default_config) calls) <= last_reading 0 calls.
Proof.
  cbn zeta.
  assert (Hmono : clock_monotonic 0
            [(5, RequestOverride (Some "MAINT-900") (Some "start maintenance"));
             (20, MaintenancePulse true);
             (60, MaintenancePulse false)]).
  { cbn. repeat split. }
  exact (proj1 (presence_time_behind_clock default_config 0 _ Hmono
                  ltac:(vm_compute; reflexivity))).
Defined.

(** * The log *)

Lemma count_lines_app (p : log_record -> bool) (l1 l2 : list log_record) :
  count_lines p (l1 ++ l2) = (count_lines p l1 + count_lines p l2)%nat.
Proof. induction l1 as [|r l1 IH]; cbn; [reflexivity|]. rewrite IH. lia. Qed.

Ltac count_logged :=
  repeat match goal with
    | |- context [count_lines ?p (?r :: ?l)] =>
        let n := eval vm_compute in (count_lines p (r :: l)) in
        change (count_lines p (r :: l)) with n
    | |- context [count_lines ?p []] =>
        change (count_lines p []) with 0%nat
    end.

Lemma perform_log_balance (self : AccessManager) (now : float) (c : call) :
  let e := perform self now c in
  (count_lines is_logout_line (logged e) + held (after e)
   <= count_lines is_grant_line (logged e) + held self)%nat
  /\ (count_lines is_expiry_line (logged e) <= count_lines is_logout_line (logged e))%nat.
Proof.
  cbn zeta.
  destruct c as [badge_id voice_intent|operator_present| |];
    cbn [perform answering after logged].
  - unfold request_override.
    destruct badge_id as [badge|]; [|cbn; lia].
    destruct voice_intent as [intent|]; [|cbn; lia].
    destruct (Py.contains _ _); [|cbn [negb after logged]; count_logged; lia].
    destruct (Py.list_contains _ _); [|cbn [negb after logged]; count_logged; lia].
    cbn [negb after logged]. count_logged.
    unfold held at 1, is_override_active. cbn [_active_session]. lia.
  - destruct (_active_session self) as [s|] eqn:Hs.
    + rewrite (maintenance_pulse_active _ _ _ _ Hs). cbn zeta.
      unfold held, is_override_active. rewrite Hs.
      destruct (Py.gt _ _); cbn [after logged]; count_logged.
      * cbn. lia.
      * destruct (Py.int _); destruct operator_present; cbn; rewrite ?Hs; lia.
    + rewrite (maintenance_pulse_idle _ _ _ Hs). unfold held, is_override_active.
      cbn. rewrite Hs. lia.
  - unfold get_telemetry. destruct (negb _); cbn; lia.
  - unfold secure_logout, held, is_override_active. cbn [after logged _active_session].
    destruct (_active_session self); count_logged; lia.
Qed.

Lemma all_logged_cons (self : AccessManager) (t : float) (c : call)
    (rest : list (float * call)) :
  all_logged self ((t, c) :: rest)
  = (logged (perform self t c) ++ all_logged (after (perform self t c)) rest)%list.
Proof. reflexivity. Qed.

(** X10. The log keeps the books of the sessions. Along any sequence of
    calls from construction, the SECURE LOGOUT lines, plus one if an
    override is still held, never outnumber the OVERRIDE GRANTED lines, and
    every WATCHDOG EXPIRED line comes with a SECURE LOGOUT line. *)
Theorem log_lines_balance (config : AccessConfig) (calls : list (float * call)) :
  let log := all_logged (init config) calls in
  (count_lines is_logout_line log + held (final_state (init config) calls)
   <= count_lines is_grant_line log)%nat
  /\ (count_lines is_expiry_line log <= count_lines is_logout_line log)%nat.
Proof.
  cbn zeta.
  assert (Hgen : forall self,
            (count_lines is_logout_line (all_logged self calls)
             + held (final_state self calls)
             <= count_lines is_grant_line (all_logged self calls) + held self)%nat
            /\ (count_lines is_expiry_line (all_logged self calls)
                <= count_lines is_logout_line (all_logged self calls))%nat).
  { induction calls as [|[t c] rest IH]; intros self.
    - cbn. lia.
    - rewrite all_logged_cons, !count_lines_app. cbn [final_state].
      destruct (perform_log_balance self t c) as [Hstep Hexp].
      destruct (IH (after (perform self t c))) as [Hrest Hexp'].
      cbn zeta in Hstep, Hexp. lia. }
  destruct (Hgen (init config)) as [Hbal Hexp].
  change (held (init config)) with 0%nat in Hbal. split; [lia | exact Hexp].
Qed.

(** * The dashboard *)

Lemma dashboard_int (x : float) (n : Z) :
  Py.int x = inr n -> Dashboard.int x = inr n.
Proof. unfold Dashboard.int. intros ->. reflexivity. Qed.

Lemma dashboard_int_error (x : float) (err : Dashboard.exn) :
  Dashboard.int x = inl err ->
  Py.int x <> inl Py.ValueError ->
  err = Dashboard.OverflowError.
Proof.
  unfold Dashboard.int, Py.int.
  destruct (Prim2SF x); intros [= <-] Hnot; try reflexivity.
  contradiction Hnot. reflexivity.
Qed.

Lemma times_error (c : N) (n : Z) (err : Dashboard.exn) :
  Dashboard.times c n = inl err -> err = Dashboard.OverflowError.
Proof.
  unfold Dashboard.times. destruct (_ || _); intros [= <-]. reflexivity.
Qed.

Lemma times_in_range (c : N) (n : Z) :
  (- Dashboard.maxsize - 1 <= n <= Dashboard.maxsize)%Z ->
  Dashboard.times c n = inr (replicate (Z.to_nat n) c).
Proof.
  intros Hn. unfold Dashboard.times.
  destruct (_ || _) eqn:E; [|reflexivity].
  apply orb_true_iff in E as [E|E]; apply Z.ltb_lt in E; lia.
Qed.

(** The bar of a time left between 0 and 300 seconds: [filled] full blocks
    and dots up to the bar width. *)
Lemma bar_text_cells (time_left : float) :
  0 <= time_left -> time_left <= 300 ->
  exists filled : Z,
    (0 <= filled <= Dashboard.BAR_WIDTH)%Z
    /\ Dashboard.int (30 * (time_left / 300)) = inr filled
    /\ Dashboard.bar_text time_left
       = inr (replicate (Z.to_nat filled) Dashboard.FULL_BLOCK
              ++ replicate (Z.to_nat (Dashboard.BAR_WIDTH - filled)) Dashboard.MIDDLE_DOT)%list.
Proof.
  intros H0 H300. destruct (fill_bounds time_left H0 H300) as (n & Hn & Hrange).
  apply dashboard_int in Hn.
  exists n. split; [exact Hrange|]. split; [exact Hn|].
  unfold Dashboard.bar_text. cbn zeta. rewrite Hn.
  unfold Dashboard.BAR_WIDTH in *.
  rewrite !times_in_range by (unfold Dashboard.maxsize; lia).
  reflexivity.
Qed.

(** The bar of a time left between 320 and 2400 seconds: [filled] full
    blocks, more than the bar width, and no dots. *)
Lemma bar_text_long (time_left : float) :
  320 <= time_left -> time_left <= 2400 ->
  exists filled : Z,
    (Dashboard.BAR_WIDTH < filled <= 240)%Z
    /\ Dashboard.int (30 * (time_left / 300)) = inr filled
    /\ Dashboard.bar_text time_left
       = inr (replicate (Z.to_nat filled) Dashboard.FULL_BLOCK).
Proof.
  intros Hlo Hhi.
  assert (H0 : 0 <= time_left) by (apply leb_trans with 320; [reflexivity | exact Hlo]).
  destruct (fill_upper time_left H0 Hhi) as (n & Hn & Hrange).
  pose proof (fill_lower time_left Hlo) as Hlow. rewrite Hn in Hlow.
  apply dashboard_int in Hn.
  unfold Dashboard.BAR_WIDTH.
  exists n. split; [lia|]. split; [exact Hn|].
  unfold Dashboard.bar_text. cbn zeta. rewrite Hn.
  unfold Dashboard.BAR_WIDTH.
  rewrite !times_in_range by (unfold Dashboard.maxsize; lia).
  replace (Z.to_nat (30 - n)) with 0%nat by lia.
  cbn [replicate]. rewrite app_nil_r. reflexivity.
Qed.

(** What [render] does with the packet of an active session. *)
Lemma render_active (self : AccessManager) (now : float) (s : ClearanceLevel) :
  _active_session self = Some s ->
  let time_left :=
    Py.max 0 (MAINTENANCE_TIMEOUT_SEC (cfg self) - (now - _last_presence_time self)) in
  exists packet,
    result (get_telemetry self now) = Returns packet
    /\ Dashboard.render packet
       = match Dashboard.bar_text time_left with
         | inl err => Dashboard.Failed err
         | inr bar =>
             match Dashboard.int time_left with
             | inl err => Dashboard.Failed err
             | inr rem =>
                 Dashboard.Wrote
                   (Dashboard.override_line (Dashboard.upper (name s)) rem bar)
             end
         end.
Proof.
  intros Hs. cbn zeta. unfold get_telemetry, is_override_active. rewrite Hs.
  cbn [negb result]. eexists. split; reflexivity.
Qed.

(** X11. The override bar fills its width only up to 300 seconds. For a
    [time_left] between 0 and 300, [bar_text] does not raise and the bar
    has exactly [BAR_WIDTH] (30) cells: the full blocks, at most 30, then
    the dots. For a [time_left] between 320 and 2400 the bar is made of
    full blocks only, [int(30 * (time_left / 300.0))] of them, which is
    more than the bar width. *)
Theorem bar_text_length (time_left : float) :
  (0 <= time_left -> time_left <= 300 ->
   exists (filled : nat) (bar : Dashboard.text),
     Dashboard.bar_text time_left = inr bar
     /\ bar = (replicate filled Dashboard.FULL_BLOCK
               ++ replicate (30 - filled) Dashboard.MIDDLE_DOT)%list
     /\ (filled <= 30)%nat
     /\ length bar = Z.to_nat Dashboard.BAR_WIDTH)
  /\ (320 <= time_left -> time_left <= 2400 ->
      exists (filled : Z) (bar : Dashboard.text),
        Dashboard.bar_text time_left = inr bar
        /\ Dashboard.int (30 * (time_left / 300)) = inr filled
        /\ bar = replicate (Z.to_nat filled) Dashboard.FULL_BLOCK
        /\ (Z.to_nat Dashboard.BAR_WIDTH < length bar <= 240)%nat).
Proof.
  split.
  - intros H0 H300.
    destruct (bar_text_cells time_left H0 H300) as (n & Hrange & _ & Hbar).
    unfold Dashboard.BAR_WIDTH in *.
    exists (Z.to_nat n). eexists. split; [exact Hbar|].
    replace (Z.to_nat (30 - n)) with (30 - Z.to_nat n)%nat by lia.
    split; [reflexivity|]. split; [lia|].
    rewrite length_app, !length_replicate. lia.
  - intros Hlo Hhi.
    destruct (bar_text_long time_left Hlo Hhi) as (n & Hrange & Hint & Hbar).
    unfold Dashboard.BAR_WIDTH in *.
    exists n. eexists. split; [exact Hbar|]. split; [exact Hint|].
    split; [reflexivity|]. rewrite length_replicate. lia.
Qed.

Lemma bar_text_length_witness :
  (exists (filled : nat) (bar : Dashboard.text),
     Dashboard.bar_text 150 = inr bar
     /\ bar = (replicate filled Dashboard.FULL_BLOCK
               ++ replicate (30 - filled) Dashboard.MIDDLE_DOT)%list
     /\ (filled <= 30)%nat
     /\ length bar = 30%nat)
  /\ (exists (filled : Z) (bar : Dashboard.text),
        Dashboard.bar_text 1230 = inr bar
        /\ Dashboard.int (30 * (1230 / 300)) = inr filled
        /\ bar = replicate (Z.to_nat filled) Dashboard.FULL_BLOCK
        /\ (30 < length bar <= 240)%nat).
Proof.
  split.
  - exact (proj1 (bar_text_length 150) eq_refl eq_refl).
  - exact (proj2 (bar_text_length 1230) eq_refl eq_refl).
Defined.

(** X12. On what [get_telemetry] returns, [render] never raises
    [KeyError], [TypeError], [AttributeError] or [ValueError], whatever the
    manager holds and whatever the clock reads: of the exceptions of the
    model only the [OverflowError] of a time left too large for [int] or
    for the bar is left. Idle, it writes the safe line; with a session,
    what it writes is the override line with the upper-cased tier name,
    the integer part of [time_left] as the seconds, and the bar of
    [time_left]. *)
Theorem render_get_telemetry (self : AccessManager) (now : float) :
  let time_left :=
    Py.max 0 (MAINTENANCE_TIMEOUT_SEC (cfg self) - (now - _last_presence_time self)) in
  exists packet,
    result (get_telemetry self now) = Returns packet
    /\ (_active_session self = None ->
        Dashboard.render packet = Dashboard.Wrote Dashboard.safe_line)
    /\ (forall s out,
        _active_session self = Some s ->
        Dashboard.render packet = Dashboard.Wrote out ->
        exists rem bar,
          Dashboard.int time_left = inr rem
          /\ Dashboard.bar_text time_left = inr bar
          /\ out = Dashboard.override_line (Dashboard.upper (name s)) rem bar)
    /\ (forall err,
        Dashboard.render packet = Dashboard.Failed err ->
        (forall key, err <> Dashboard.KeyError key)
        /\ err <> Dashboard.TypeError
        /\ err <> Dashboard.AttributeError
        /\ err <> Dashboard.ValueError).
Proof.
  cbn zeta.
  enough (exists packet,
    result (get_telemetry self now) = Returns packet
    /\ (_active_session self = None ->
        Dashboard.render packet = Dashboard.Wrote Dashboard.safe_line)
    /\ (forall s out,
        _active_session self = Some s ->
        Dashboard.render packet = Dashboard.Wrote out ->
        exists rem bar,
          Dashboard.int (Py.max 0 (MAINTENANCE_TIMEOUT_SEC (cfg self)
                                   - (now - _last_presence_time self))) = inr rem
          /\ Dashboard.bar_text (Py.max 0 (MAINTENANCE_TIMEOUT_SEC (cfg self)
                                   - (now - _last_presence_time self))) = inr bar
          /\ out = Dashboard.override_line (Dashboard.upper (name s)) rem bar)
    /\ (forall err,
        Dashboard.render packet = Dashboard.Failed err ->
        err = Dashboard.OverflowError)) as (packet & Hp & Hidle & Hout & Herr).
  { exists packet. split; [exact Hp|]. split; [exact Hidle|]. split; [exact Hout|].
    intros err Hfail. rewrite (Herr err Hfail).
    split; [intros key; discriminate|]. repeat split; discriminate. }
  destruct (_active_session self) as [s|] eqn:Hs.
  - destruct (render_active self now s Hs) as (packet & Hp & Hr). cbn zeta in Hr.
    exists packet. split; [exact Hp|]. split; [discriminate|].
    set (time_left := Py.max 0 (MAINTENANCE_TIMEOUT_SEC (cfg self)
                                - (now - _last_presence_time self))) in *.
    destruct (fill_not_nan time_left (max_zero_nonneg _)) as [Hnn Hfill].
    apply int_nonneg_not_value_error in Hnn, Hfill.
    rewrite Hr. split.
    + intros s' out [= <-].
      destruct (Dashboard.bar_text time_left) as [err|bar]; [discriminate|].
      destruct (Dashboard.int time_left) as [err|rem]; [discriminate|].
      intros [= <-]. eauto.
    + intros err.
      destruct (Dashboard.bar_text time_left) as [err'|bar] eqn:Hbar.
      * intros [= <-]. revert Hbar. unfold Dashboard.bar_text. cbn zeta.
        destruct (Dashboard.int (30 * (time_left / 300))) as [e1|filled] eqn:Hint.
        { intros [= <-]. exact (dashboard_int_error _ _ Hint Hfill). }
        destruct (Dashboard.times Dashboard.FULL_BLOCK filled) as [e2|blocks] eqn:Hb.
        { intros [= <-]. exact (times_error _ _ _ Hb). }
        destruct (Dashboard.times Dashboard.MIDDLE_DOT _) as [e3|dots] eqn:Hd;
          [|discriminate].
        intros [= <-]. exact (times_error _ _ _ Hd).
      * destruct (Dashboard.int time_left) as [err'|rem] eqn:Hint; [|discriminate].
        intros [= <-]. exact (dashboard_int_error _ _ Hint Hnn).
  - unfold get_telemetry, is_override_active. rewrite Hs. cbn [negb result].
    eexists. split; [reflexivity|]. split; [reflexivity|].
    split; [intros s out [=] | intros err [=]].
Qed.

(** X13. With a timeout of at most 300 seconds and a presence time not
    ahead of the clock, the line rendered for an active session has a bar
    of exactly [BAR_WIDTH] cells. *)
Theorem rendered_bar_fits (self : AccessManager) (now : float) (s : ClearanceLevel) :
  _active_session self = Some s ->
  _last_presence_time self <= now ->
  MAINTENANCE_TIMEOUT_SEC (cfg self) <= 300 ->
  exists packet tier rem bar,
    result (get_telemetry self now) = Returns packet
    /\ Dashboard.render packet = Dashboard.Wrote (Dashboard.override_line tier rem bar)
    /\ length bar = Z.to_nat Dashboard.BAR_WIDTH.
Proof.
  intros Hs Hclock HT.
  destruct (render_active self now s Hs) as (packet & Hp & Hr). cbn zeta in Hr.
  destruct (time_left_le _ now _ 300 Hclock HT eq_refl) as [H0 H300].
  cbn zeta in H0, H300.
  destruct (bar_text_cells _ H0 H300) as (n & Hrange & _ & Hbar).
  destruct (int_finite _ (bounded_finite _ 300 H0 H300 eq_refl)) as [rem Hrem].
  apply dashboard_int in Hrem. rewrite Hbar, Hrem in Hr.
  eexists _, _, _, _. split; [exact Hp|]. split; [exact Hr|].
  unfold Dashboard.BAR_WIDTH in *.
  rewrite length_app, !length_replicate. lia.
Qed.

Lemma rendered_bar_fits_witness :
  let self := after (request_override (init default_config) 100
                       (Some "ARCH-001") (Some "admin override")) in
  exists packet tier rem bar,
    result (get_telemetry self 160) = Returns packet
    /\ Dashboard.render packet = Dashboard.Wrote (Dashboard.override_line tier rem bar)
    /\ length bar = 30%nat.
Proof.
  cbn zeta.
  exact (rendered_bar_fits
           (after (request_override (init default_config) 100
                     (Some "ARCH-001") (Some "admin override")))
           160 TIER_3 eq_refl eq_refl eq_refl).
Defined.

(** X14. The bar is scaled by 300 seconds, not by the configured timeout:
    with a timeout between 320 and 2400 seconds, the line rendered at the
    clock reading of a granted [request_override] has a bar longer than
    [BAR_WIDTH]. *)
Theorem rendered_bar_overflows (self : AccessManager) (now : float)
    (badge intent : string) :
  result (request_override self now (Some badge) (Some intent)) = Returns true ->
  320 <= MAINTENANCE_TIMEOUT_SEC (cfg self) ->
  MAINTENANCE_TIMEOUT_SEC (cfg self) <= 2400 ->
  Py.isfinite now = true ->
  let m := after (request_override self now (Some badge) (Some intent)) in
  exists packet tier rem bar,
    result (get_telemetry m now) = Returns packet
    /\ Dashboard.render packet = Dashboard.Wrote (Dashboard.override_line tier rem bar)
    /\ (Z.to_nat Dashboard.BAR_WIDTH < length bar)%nat.
Proof.
  intros Hgranted Hlo Hhi Hnow. cbn zeta.
  set (m := after (request_override self now (Some badge) (Some intent))).
  assert (Hm : exists s, _active_session m = Some s
                         /\ _last_presence_time m = now /\ cfg m = cfg self).
  { subst m. revert Hgranted. unfold request_override.
    destruct (Py.contains _ _); [|cbn; discriminate].
    destruct (Py.list_contains _ _); [|cbn; discriminate].
    cbn. intros _. eexists. repeat split. }
  destruct Hm as (s & Hs & Hlast & Hcfg).
  destruct (render_active m now s Hs) as (packet & Hp & Hr). cbn zeta in Hr.
  rewrite Hlast, Hcfg in Hr.
  assert (Hpos : 0 < MAINTENANCE_TIMEOUT_SEC (cfg self))
    by (apply ltb_leb_trans with 320; [reflexivity | exact Hlo]).
  rewrite (time_left_at_grant _ now Hpos Hnow) in Hr.
  destruct (bar_text_long _ Hlo Hhi) as (n & Hrange & _ & Hbar).
  assert (H0 : 0 <= MAINTENANCE_TIMEOUT_SEC (cfg self)) by (apply ltb_leb, Hpos).
  destruct (int_finite _ (bounded_finite _ 2400 H0 Hhi eq_refl)) as [rem Hrem].
  apply dashboard_int in Hrem. rewrite Hbar, Hrem in Hr.
  eexists _, _, _, _. split; [exact Hp|]. split; [exact Hr|].
  unfold Dashboard.BAR_WIDTH in *. rewrite length_replicate. lia.
Qed.

Lemma rendered_bar_overflows_witness :
  let self := init (mkAccessConfig 600 1 default_auth_cache) in
  let m := after (request_override self 50 (Some "MAINT-900") (Some "start maintenance")) in
  exists packet tier rem bar,
    result (get_telemetry m 50) = Returns packet
    /\ Dashboard.render packet = Dashboard.Wrote (Dashboard.override_line tier rem bar)
    /\ (30 < length bar)%nat.
Proof.
  cbn zeta.
  apply (rendered_bar_overflows (init (mkAccessConfig 600 1 default_auth_cache)) 50
           "MAINT-900" "start maintenance"); vm_compute; reflexivity.
Defined.

(** X15. [render] reads the keys [active], [time_left] and [tier] and no
    other: setting any other key of the packet (the badge among them) to any
    value changes neither the text written nor the exception raised. *)
Theorem render_reads_three_keys (telemetry : gmap string Py.value)
    (key : string) (v : Py.value) :
  key <> "active" -> key <> "time_left" -> key <> "tier" ->
  Dashboard.render (<[key := v]> telemetry) = Dashboard.render telemetry.
Proof.
  intros Ha Ht Hr. unfold Dashboard.render.
  rewrite !lookup_insert_ne by assumption. reflexivity.
Qed.

Lemma render_reads_three_keys_witness :
  let packet : gmap string Py.value :=
    {[ "active" := Py.VBool true; "tier" := Py.VStr "Admin";
       "time_left" := Py.VFloat 120 ]} in
  Dashboard.render (<["badge" := Py.VStr "ARCH-001"]> packet)
  = Dashboard.render packet.
Proof.
  cbn zeta. apply render_reads_three_keys; discriminate.
Defined.
